(** * AIShield: the network anomaly detector and its sample-data generator

    A shallow embedding of [main.py] ([NetworkAnomalyDetector]) and of
    [generate_sample_data.py].

    Conventions of the embedding.
    - Numbers are exact rationals ([Q]); a missing value (pandas' NaN) is
      [None].  A double is the rational it stands for, and [float64]
      rounds the exact result of an operation to the nearest double; it is
      applied where the statements depend on the rounding: the seed that
      the generator takes from the clock, and the operations of the scaler
      on one value.
    - A [DataFrame] is the ordered list of its named columns.
    - Python exceptions are values of [exn]; a function that may raise
      returns an [outcome].
    - Code that logs, reads the clock or draws random numbers runs in the
      state monad [Py] over the process state.
    - The calls into numpy, pandas and scikit-learn are modelled by what
      those libraries document; the parts that are random (the generator's
      distributions, the growth of the isolation trees) are taken from the
      interfaces [Numpy] and [IsolationTrees], and the floating-point
      statistics that the scaler fits from the interface
      [ScalerStatistics]. *)

From Stdlib Require Import ZArith QArith Qround Qabs String List Lia Lqa.
From stdpp Require Import base gmap strings list sorting.
Import ListNotations.

Local Open Scope string_scope.

(** ** Numbers *)

#[global] Instance Qle_decision (x y : Q) : Decision (x <= y)%Q.
Proof.
  destruct (Qlt_le_dec y x) as [H|H]; [right|left];
    auto using Qlt_not_le.
Defined.

#[global] Instance Qlt_decision (x y : Q) : Decision (x < y)%Q.
Proof.
  destruct (Qlt_le_dec x y) as [H|H]; [left|right];
    auto using Qle_not_lt.
Defined.

#[global] Instance Qeq_decision (x y : Q) : Decision (x == y)%Q := Qeq_dec x y.

#[global] Instance Qle_transitive : Transitive Qle := Qle_trans.

#[global] Instance Qle_total : Total Qle.
Proof.
  intros x y. destruct (Qlt_le_dec x y) as [Hlt|Hle]; [left|right];
    auto using Qlt_le_weak.
Qed.

(** *** Double precision *)

(** The largest [k] with [2 ^ k <= x], for a positive [x]. *)
Definition floor_log2 (x : Q) : Z :=
  let k := (Z.log2 (Qnum x) - Z.log2 (Zpos (Qden x)))%Z in
  if Qle_bool (2 ^ k) x then k else (k - 1)%Z.

(** The integer nearest to [x]; halfway between two, the even one. *)
Definition round_half_even (x : Q) : Z :=
  let f := Qfloor x in
  match (x - inject_Z f ?= 1 # 2)%Q with
  | Lt => f
  | Gt => (f + 1)%Z
  | Eq => if Z.even f then f else (f + 1)%Z
  end.

(** The double nearest to the real number [x], ties to the even mantissa:
    what an IEEE 754 operation in binary64 returns when its exact result is
    [x].  The mantissa has 53 bits and the last place is never under
    [2 ^ -1074].  The overflow threshold, near [2 ^ 1024], is not looked
    at: the statements keep their numbers under it. *)
Definition float64 (x : Q) : Q :=
  if Qeq_bool x 0 then 0%Q
  else
    let e := (Z.max (floor_log2 (Qabs x)) (-1022) - 52)%Z in
    (inject_Z (round_half_even (x / 2 ^ e)) * 2 ^ e)%Q.

(** *** Sums and means *)

Definition Qsum (xs : list Q) : Q := fold_right Qplus 0%Q xs.

(** The values of a column that are present. *)
Definition present (xs : list (option Q)) : list Q := omap id xs.

(** [Series.mean()], which skips missing values; NaN when none is present. *)
Definition mean (xs : list (option Q)) : option Q :=
  match present xs with
  | [] => None
  | ys => Some (Qsum ys / inject_Z (Z.of_nat (length ys)))%Q
  end.


(** ** Data frames *)

Inductive column :=
| Float (xs : list (option Q))        (* float64 or int64 data, [None] is NaN *)
| Object (xs : list (option string))  (* text *)
| Datetime (xs : list Z).             (* microseconds since the epoch *)

Definition DataFrame := list (string * column).

Definition col_length (c : column) : nat :=
  match c with
  | Float xs => length xs
  | Object xs => length xs
  | Datetime xs => length xs
  end.

(** [df.columns] *)
Definition columns (df : DataFrame) : list string := map fst df.

(** [len(df)] *)
Definition nrows (df : DataFrame) : nat :=
  match df with
  | [] => 0
  | (_, c) :: _ => col_length c
  end.

(** [df[name]] when the column exists. *)
Fixpoint get_col (name : string) (df : DataFrame) : option column :=
  match df with
  | [] => None
  | (n, c) :: rest => if String.eqb n name then Some c else get_col name rest
  end.

(** [df[name] = c]: an existing column is overwritten where it stands, a
    new one is appended on the right. *)
Fixpoint set_col (name : string) (c : column) (df : DataFrame) : DataFrame :=
  match df with
  | [] => [(name, c)]
  | (n, c0) :: rest =>
      if String.eqb n name then (n, c) :: rest
      else (n, c0) :: set_col name c rest
  end.

(** [df[names] = cols], column by column. *)
Definition assign (cols : list (string * column)) (df : DataFrame) : DataFrame :=
  fold_left (fun d nc => set_col (fst nc) (snd nc) d) cols df.

(** ** Configuration *)

Record Config := {
  features : list string;
  contamination : Q;
  n_estimators : Z;
  random_state : option Z   (* JSON [null] is [None] *)
}.

Definition default_config : Config := {|
  features := ["feature1"; "feature2"; "feature3"];
  contamination := 0.05;
  n_estimators := 100;
  random_state := Some 42%Z
|}.

(** ** Exceptions *)

Inductive value_error :=
| MissingRequiredFeatures (missing : gset string)  (* raised by [_validate_data] *)
| NotNumeric (name : string)         (* the library cannot read a column as numbers *)
| InputContainsNaN                   (* the estimator refuses missing values *)
| NoSamples                          (* the library is given 0 rows *)
| NoFeatures                         (* the library is given 0 columns *)
| InvalidParameter (name : string)   (* a constructor argument out of its range *)
| NegativePeriods.                   (* [pd.date_range] with [periods < 0] *)

Inductive exn :=
| FileNotFoundError
| JSONDecodeError
| KeyError (names : list string)
| TypeError (name : string)
| ValueError (why : value_error).

Inductive outcome (A : Type) :=
| Returned (a : A)
| Raised (e : exn).
Arguments Returned {A} a.
Arguments Raised {A} e.

#[global] Instance outcome_ret : MRet outcome := fun A a => Returned a.
#[global] Instance outcome_bind : MBind outcome := fun A B f m =>
  match m with
  | Returned a => f a
  | Raised e => Raised e
  end.

(** ** [_validate_data] *)

Definition missing_features (cfg : Config) (df : DataFrame) : gset string :=
  list_to_set (features cfg) ∖ list_to_set (columns df).

Definition _validate_data (cfg : Config) (df : DataFrame) : outcome unit :=
  let missing := missing_features cfg df in
  if decide (missing = ∅) then Returned tt
  else Raised (ValueError (MissingRequiredFeatures missing)).

(** ** The libraries *)

(** numpy's legacy random generator and its square root.  The draws thread
    the generator state; [seeded n] is the state that [np.random.seed(n)]
    installs and that [RandomState(n)] starts from. *)
Class Numpy := {
  RandomState : Type;
  seeded : Z -> RandomState;
  sqrt : Q -> Q;
  uniform1 : Q -> Q -> RandomState -> Q * RandomState;
  uniform : Q -> Q -> nat -> RandomState -> list Q * RandomState;
  normal : Q -> Q -> nat -> RandomState -> list Q * RandomState;
  gamma : Q -> Q -> nat -> RandomState -> list Q * RandomState;
  beta : Q -> Q -> nat -> RandomState -> list Q * RandomState;
  randint : Z -> Z -> nat -> RandomState -> list Z * RandomState;
  choice : forall {A : Type}, list A -> option (list Q) -> nat ->
           RandomState -> list A * RandomState;
  (* [Series.sample(n, replace=False)]: the positions drawn *)
  sample_positions : nat -> nat -> RandomState -> list nat * RandomState
}.

(** The ensemble of isolation trees behind scikit-learn's [IsolationForest]:
    [grow] builds the trees from the training rows, drawing from the
    generator it is given; [raw_score] is [score_samples] on one row (the
    lower, the more abnormal). *)
Class IsolationTrees `{Numpy} := {
  Forest : Type;
  grow : Z -> list (list Q) -> RandomState -> Forest * RandomState;
  raw_score : Forest -> list Q -> Q
}.

(** *** [np.percentile], linear interpolation *)

Definition percentile (xs : list Q) (q : Q) : Q :=
  let sorted := merge_sort Qle xs in
  let n := length xs in
  let pos := (q / 100 * inject_Z (Z.of_nat (n - 1)))%Q in
  let lo := Z.to_nat (Qfloor pos) in
  let frac := (pos - inject_Z (Qfloor pos))%Q in
  let a := nth lo sorted 0%Q in
  let b := nth (Nat.min (lo + 1) (n - 1)) sorted 0%Q in
  (a + frac * (b - a))%Q.

(** The number of values of [xs] strictly under the threshold [t], as
    [decision_function] compares them. *)
Definition below (t : Q) (xs : list Q) : nat :=
  length (filter (fun x => (x - t < 0)%Q) xs).

(** The number of outliers that a threshold at the percentile
    [100 * c] leaves under it among [n] scores that are all different. *)
Definition expected_anomalies (c : Q) (n : nat) : nat :=
  Z.to_nat (Qceiling (c * inject_Z (Z.of_nat (n - 1)))).

(** *** What the estimators accept ([check_array]) *)

(** A numeric column is read as it is; a column of another type is refused
    as soon as it has a row. *)
Definition as_numbers (nc : string * column) : outcome (list (option Q)) :=
  match snd nc with
  | Float xs => Returned xs
  | Object [] => Returned []
  | Datetime [] => Returned []
  | _ => Raised (ValueError (NotNumeric (fst nc)))
  end.

Fixpoint traverse {A B : Type} (f : A -> outcome B) (l : list A) : outcome (list B) :=
  match l with
  | [] => Returned []
  | a :: l' =>
      match f a with
      | Raised e => Raised e
      | Returned b =>
          match traverse f l' with
          | Raised e => Raised e
          | Returned bs => Returned (b :: bs)
          end
      end
  end.

Definition has_nan (xs : list (option Q)) : bool :=
  existsb (fun x => match x with None => true | Some _ => false end) xs.

(** The checks of scikit-learn on the input of an estimator: some column,
    numbers only, no missing value unless the estimator allows them
    ([StandardScaler] does, [IsolationForest] does not), at least one row. *)
Definition check_array (allow_nan : bool) (sel : list (string * column))
  : outcome (list (list (option Q))) :=
  match sel with
  | [] => Raised (ValueError NoFeatures)
  | first :: _ =>
      match traverse as_numbers sel with
      | Raised e => Raised e
      | Returned cols =>
          if negb allow_nan && existsb has_nan cols
          then Raised (ValueError InputContainsNaN)
          else if Nat.eqb (col_length (snd first)) 0
               then Raised (ValueError NoSamples)
               else Returned cols
      end
  end.

(** Rows of a table given by its columns. *)
Definition row_at (i : nat) (cols : list (list (option Q))) : list Q :=
  map (fun c => default 0%Q (nth i c None)) cols.

Definition rows_of (cols : list (list (option Q))) : list (list Q) :=
  match cols with
  | [] => []
  | c :: _ => map (fun i => row_at i cols) (seq 0 (length c))
  end.

(** *** [StandardScaler] *)

(** What scikit-learn's scaler fits on the present values of a column:
    [mean_] and [var_], two floating-point reductions of the library, and
    its test for a column without spread (a variance of zero; in later
    versions also a variance that is zero up to rounding).  How these
    reductions round is the library's matter: they are an interface here,
    as the trees are. *)
Class ScalerStatistics := {
  column_mean : list Q -> Q;
  column_var : list Q -> Q;
  constant_column : list Q -> bool
}.

(** [_handle_zeros_in_scale]: the scale of a constant column, and any
    scale of zero, becomes 1. *)
Definition handle_zeros (var scale : Q) : Q :=
  if decide (var == 0)%Q then 1%Q
  else if decide (scale == 0)%Q then 1%Q else scale.

(** [scale_]: the square root of [var_], and 1 for a column that the
    scaler takes for constant. *)
Definition column_scale `{Numpy} `{ScalerStatistics} (ys : list Q) : Q :=
  if constant_column ys then 1%Q
  else handle_zeros (column_var ys) (sqrt (column_var ys)).

(** [X -= mean_; X /= scale_] on one value, each operation rounded to
    double precision.  A division by a scale of zero has no finite
    result. *)
Definition standardise (mu scale x : Q) : option Q :=
  if decide (scale == 0)%Q then None
  else Some (float64 (float64 (x - mu) / scale)).

(** The fitted [(mean_, scale_)] of a column and the transformed column;
    missing values are left out of the fit and kept by the transform.  A
    column without any present value has no statistics and stays as it
    is. *)
Definition fit_transform_col `{Numpy} `{ScalerStatistics}
    (xs : list (option Q)) : option (Q * Q) * list (option Q) :=
  match present xs with
  | [] => (None, xs)
  | ys =>
      let mu := column_mean ys in
      let scale := column_scale ys in
      (Some (mu, scale), map (fun x => x ≫= standardise mu scale) xs)
  end.

(** ** [df[names]] *)

Definition select (names : list string) (df : DataFrame)
  : outcome (list (string * column)) :=
  match filter (fun n => get_col n df = None) names with
  | [] => Returned (omap (fun n => pair n <$> get_col n df) names)
  | absent => Raised (KeyError absent)
  end.

(** ** [_handle_missing_values], the pure part *)

(** [Series.isnull().sum()] *)
Definition count_null (c : column) : nat :=
  match c with
  | Float xs => length (filter (fun x => x = None) xs)
  | Object xs => length (filter (fun x => x = None) xs)
  | Datetime _ => 0
  end.

(** [Series.fillna(value)]: a NaN fill value fills nothing. *)
Definition fillna (value : option Q) (xs : list (option Q)) : list (option Q) :=
  match value with
  | Some v => map (fun x => Some (default v x)) xs
  | None => xs
  end.

(** One column of [df[features].fillna(df[features].mean())]. *)
Definition fill_with_mean (nc : string * column) : outcome (string * column) :=
  match snd nc with
  | Float xs => Returned (fst nc, Float (fillna (mean xs) xs))
  | _ => Raised (TypeError (fst nc))
  end.

(** ** The process state and the monad of the Python code *)

Inductive level := INFO | WARNING | ERROR.

(** The messages of [main.py]; a path interpolated into the text is left
    out. *)
Inductive message :=
| ConfigNotFound
| LoadedData
| ErrorLoadingData (e : exn)
| MissingValuesDetected (missing_stats : list (string * nat))
| ErrorInDetection (e : exn)
| AnomalyStatistics (total_records : nat)
    (anomaly_counts : list (string * nat))
    (score_mean score_min score_max : option Q).

Definition LogRecord : Type := level * message.

Section Program.
Context `{IT : IsolationTrees} `{SS : ScalerStatistics}.

(** A fitted [IsolationForest]: its trees and the threshold [offset_]. *)
Record Model := { trees : Forest; offset_ : Q }.

Record State := {
  clock : Q;                         (* what [time.time()] reads *)
  np_random : RandomState;           (* numpy's global generator *)
  log : list LogRecord;              (* the records handed to [logging] *)
  scaler : option (list (option (Q * Q)));  (* [self.scaler], once fitted *)
  model : option Model               (* [self.model] *)
}.

Definition Py (A : Type) : Type := State -> outcome A * State.

#[global] Instance Py_ret : MRet Py := fun A a s => (Returned a, s).
#[global] Instance Py_bind : MBind Py := fun A B f m s =>
  match m s with
  | (Returned a, s') => f a s'
  | (Raised e, s') => (Raised e, s')
  end.

Definition raise {A : Type} (e : exn) : Py A := fun s => (Raised e, s).

Definition lift {A : Type} (o : outcome A) : Py A := fun s => (o, s).

(** [try: body except Exception as e: handler e] *)
Definition try_except {A : Type} (body : Py A) (handler : exn -> Py A) : Py A :=
  fun s =>
    match body s with
    | (Returned a, s') => (Returned a, s')
    | (Raised e, s') => handler e s'
    end.

(** The state once one more record is handed to [logging]. *)
Definition logged (r : LogRecord) (s : State) : State :=
  {| clock := clock s; np_random := np_random s;
     log := log s ++ [r];
     scaler := scaler s; model := model s |}.

Definition logging (lvl : level) (msg : message) : Py unit := fun s =>
  (Returned tt, logged (lvl, msg) s).

Definition set_scaler (p : list (option (Q * Q))) : Py unit := fun s =>
  (Returned tt,
   {| clock := clock s; np_random := np_random s; log := log s;
      scaler := Some p; model := model s |}).

Definition set_model (m : Model) : Py unit := fun s =>
  (Returned tt,
   {| clock := clock s; np_random := np_random s; log := log s;
      scaler := scaler s; model := Some m |}).

(** Run a drawing computation on numpy's global generator. *)
Definition draw {A : Type} (d : RandomState -> A * RandomState) : Py A := fun s =>
  let '(a, r) := d (np_random s) in
  (Returned a,
   {| clock := clock s; np_random := r; log := log s;
      scaler := scaler s; model := model s |}).

(** [np.random.seed(n)] *)
Definition np_random_seed (n : Z) : Py unit := fun s =>
  (Returned tt,
   {| clock := clock s; np_random := seeded n; log := log s;
      scaler := scaler s; model := model s |}).

(** [time.time()] *)
Definition time_time : Py Q := fun s => (Returned (clock s), s).

(** ** [load_config] *)

(** What [open(config_file)] followed by [json.load] finds. *)
Inductive ConfigSource :=
| Absent                    (* [open] raises [FileNotFoundError] *)
| Unparseable               (* [json.load] raises [JSONDecodeError] *)
| Document (cfg : Config).  (* [json.load] returns this dictionary *)

Definition open_and_load (src : ConfigSource) : Py Config :=
  match src with
  | Absent => raise FileNotFoundError
  | Unparseable => raise JSONDecodeError
  | Document cfg => mret cfg
  end.

(** Only [FileNotFoundError] has a handler. *)
Definition load_config (src : ConfigSource) : Py Config :=
  try_except (open_and_load src)
    (fun e =>
       match e with
       | FileNotFoundError =>
           logging WARNING ConfigNotFound;;
           mret default_config
       | _ => raise e
       end).

(** ** [_handle_missing_values] *)

(** [df[features].isnull().sum()] *)
Definition missing_stats_of (sel : list (string * column)) : list (string * nat) :=
  map (fun nc => (fst nc, count_null (snd nc))) sel.

(** [missing_stats.any()] *)
Definition any_missing (sel : list (string * column)) : bool :=
  existsb (fun st => negb (Nat.eqb (snd st) 0)) (missing_stats_of sel).

Definition _handle_missing_values (cfg : Config) (df : DataFrame) : Py DataFrame :=
  sel ← lift (select (features cfg) df);
  (if any_missing sel
   then logging WARNING (MissingValuesDetected (missing_stats_of sel))
   else mret tt);;
  filled ← lift (traverse fill_with_mean sel);
  mret (assign filled df).

(** ** [_scale_features] *)

(** The transformed columns under the names they were selected by. *)
Definition scaled_columns (sel : list (string * column))
    (cols : list (list (option Q))) : list (string * column) :=
  zip (map fst sel) (map (fun ft => Float (snd ft)) (map fit_transform_col cols)).

Definition _scale_features (cfg : Config) (df : DataFrame) : Py DataFrame :=
  sel ← lift (select (features cfg) df);
  cols ← lift (check_array true sel);
  set_scaler (map fst (map fit_transform_col cols));;
  mret (assign (scaled_columns sel cols) df).

(** ** [load_and_preprocess_data] *)

(** [csv] is what [pd.read_csv(filepath)] does: the table read, or the
    exception raised. *)
Definition load_and_preprocess_data (cfg : Config) (csv : outcome DataFrame)
  : Py DataFrame :=
  try_except
    (df ← lift csv;
     logging INFO LoadedData;;
     lift (_validate_data cfg df);;
     df ← _handle_missing_values cfg df;
     df ← _scale_features cfg df;
     mret df)
    (fun e => logging ERROR (ErrorLoadingData e);; raise e).

(** ** [IsolationForest] *)

(** The constructor arguments are checked when [fit] starts. *)
Definition validate_params (cfg : Config) : outcome unit :=
  if decide (n_estimators cfg < 1)%Z
  then Raised (ValueError (InvalidParameter "n_estimators"))
  else if bool_decide (0 < contamination cfg)%Q
          && bool_decide (contamination cfg <= 0.5)%Q
       then Returned tt
       else Raised (ValueError (InvalidParameter "contamination")).

(** An integer [random_state] starts a generator of its own; with [None]
    the trees draw from numpy's global generator. *)
Definition with_generator {A : Type} (rs : option Z)
    (d : RandomState -> A * RandomState) : Py A :=
  match rs with
  | Some n => mret (fst (d (seeded n)))
  | None => draw d
  end.

(** [decision_function(X) < 0] is an outlier, [-1]; anything else is [1]. *)
Definition predict_row (m : Model) (row : list Q) : Z :=
  if decide (raw_score (trees m) row - offset_ m < 0)%Q then (-1)%Z else 1%Z.

(** [fit]: the threshold [offset_] is the percentile [100 * contamination]
    of the scores of the training rows.  The fitted estimator is kept in
    [self.model]. *)
Definition fit (cfg : Config) (sel : list (string * column)) : Py Model :=
  lift (validate_params cfg);;
  cols ← lift (check_array false sel);
  let X := rows_of cols in
  forest ← with_generator (random_state cfg) (grow (n_estimators cfg) X);
  let scores := map (raw_score forest) X in
  let m := {| trees := forest;
              offset_ := percentile scores (100 * contamination cfg) |} in
  set_model m;;
  mret m.

Definition score_samples (m : Model) (sel : list (string * column)) : Py (list Q) :=
  cols ← lift (check_array false sel);
  mret (map (raw_score (trees m)) (rows_of cols)).

Definition predict (m : Model) (sel : list (string * column)) : Py (list Z) :=
  cols ← lift (check_array false sel);
  mret (map (predict_row m) (rows_of cols)).

(** [fit_predict(X)] is [fit(X).predict(X)]; the estimator comes back with
    the labels because [detect_anomalies] goes on using [self.model]. *)
Definition fit_predict (cfg : Config) (sel : list (string * column))
  : Py (Model * list Z) :=
  m ← fit cfg sel;
  predictions ← predict m sel;
  mret (m, predictions).

(** ** [detect_anomalies] *)

(** [df[name]] *)
Definition getitem (name : string) (df : DataFrame) : outcome column :=
  match get_col name df with
  | Some c => Returned c
  | None => Raised (KeyError [name])
  end.

(** The dictionary [{1: 'Normal', -1: 'Anomaly'}]; a value that is not a
    key maps to NaN. *)
Definition label_of (v : option Q) : option string :=
  match v with
  | Some q =>
      if decide (q == 1)%Q then Some "Normal"
      else if decide (q == -1)%Q then Some "Anomaly"
      else None
  | None => None
  end.

(** [Series.map(labels)] *)
Definition series_map (c : column) : column :=
  match c with
  | Float xs => Object (map label_of xs)
  | Object xs => Object (map (fun _ => None) xs)
  | Datetime xs => Object (map (fun _ => None) xs)
  end.

Definition count_label (l : string) (c : column) : nat :=
  match c with
  | Object xs => length (filter (fun x => x = Some l) xs)
  | _ => 0
  end.

(** [Series.value_counts().to_dict()] over the two labels. *)
Definition value_counts (c : column) : list (string * nat) :=
  filter (fun lc => snd lc <> 0)
    [("Normal", count_label "Normal" c); ("Anomaly", count_label "Anomaly" c)].

Definition Qmin_list (xs : list Q) : option Q :=
  match xs with
  | [] => None
  | x :: xs' => Some (fold_left (fun a b => if decide (b < a)%Q then b else a) xs' x)
  end.

Definition Qmax_list (xs : list Q) : option Q :=
  match xs with
  | [] => None
  | x :: xs' => Some (fold_left (fun a b => if decide (a < b)%Q then b else a) xs' x)
  end.

Definition numbers (c : column) : list (option Q) :=
  match c with
  | Float xs => xs
  | _ => []
  end.

Definition _log_anomaly_stats (df : DataFrame) : Py unit :=
  anomaly ← lift (getitem "anomaly" df);
  score ← lift (getitem "anomaly_score" df);
  logging INFO
    (AnomalyStatistics (nrows df) (value_counts anomaly)
       (mean (numbers score))
       (Qmin_list (present (numbers score)))
       (Qmax_list (present (numbers score)))).

Definition unset_model : Py unit := fun s =>
  (Returned tt,
   {| clock := clock s; np_random := np_random s; log := log s;
      scaler := scaler s; model := None |}).

Definition detect_anomalies (cfg : Config) (df : DataFrame) : Py DataFrame :=
  try_except
    (unset_model;;
     sel ← lift (select (features cfg) df);
     '(m, predictions) ← fit_predict cfg sel;
     let df := set_col "anomaly"
                 (Float (map (fun p => Some (inject_Z p)) predictions)) df in
     anomaly ← lift (getitem "anomaly" df);
     let df := set_col "anomaly" (series_map anomaly) df in
     sel ← lift (select (features cfg) df);
     scores ← score_samples m sel;
     let df := set_col "anomaly_score" (Float (map Some scores)) df in
     _log_anomaly_stats df;;
     mret df)
    (fun e => logging ERROR (ErrorInDetection e);; raise e).

(** The pipeline of [main]: load and preprocess, then detect. *)
Definition run_pipeline (cfg : Config) (csv : outcome DataFrame) : Py DataFrame :=
  df ← load_and_preprocess_data cfg csv;
  detect_anomalies cfg df.

(** ** [generate_sample_data] *)

(** [int(x)]: truncation towards zero. *)
Definition int_of (x : Q) : Z :=
  if decide (x < 0)%Q then Qceiling x else Qfloor x.

(** [int(time.time() * 1000) % 2**32]: the reading [t] is a double, and
    so is its product with 1000. *)
Definition current_seed (t : Q) : Z :=
  (int_of (float64 (t * 1000)) mod 2 ^ 32)%Z.

(** [datetime.now()], in microseconds. *)
Definition datetime_now : Py Z := fun s => (Returned (Qfloor (clock s * 1000000)), s).

Definition minute : Z := 60000000.

(** [pd.date_range(start, periods, freq='1min')] *)
Definition date_range (start : Z) (periods : Z) : outcome (list Z) :=
  if decide (periods < 0)%Z then Raised (ValueError NegativePeriods)
  else Returned (map (fun k => (start + Z.of_nat k * minute)%Z)
                   (seq 0 (Z.to_nat periods))).

(** [Series.dt.hour] *)
Definition hour (t : Z) : Z := ((t / (60 * minute)) mod 24)%Z.

(** [df.loc[mask, col] = values]: the selected rows take the values in
    order. *)
Fixpoint loc_assign {A : Type} (mask : list bool) (values col : list A) : list A :=
  match mask, col with
  | true :: mask', x :: col' =>
      match values with
      | v :: values' => v :: loc_assign mask' values' col'
      | [] => x :: loc_assign mask' [] col'
      end
  | false :: mask', x :: col' => x :: loc_assign mask' values col'
  | _, _ => col
  end.

(** [df.loc[mask, col] = value] *)
Definition loc_fill {A : Type} (mask : list bool) (value : A) (col : list A) : list A :=
  loc_assign mask (repeat value (length col)) col.

(** [df.loc[mask, col] *= factors] *)
Fixpoint loc_scale (mask : list bool) (factors col : list Q) : list Q :=
  match mask, col with
  | true :: mask', x :: col' =>
      match factors with
      | f :: factors' => (x * f)%Q :: loc_scale mask' factors' col'
      | [] => x :: loc_scale mask' [] col'
      end
  | false :: mask', x :: col' => x :: loc_scale mask' factors col'
  | _, _ => col
  end.

Definition count_true (mask : list bool) : nat := length (filter (fun b => b = true) mask).

(** The order of the rows after [df.sort_values(key)]. *)
Definition argsort (key : list Z) : list nat :=
  map snd
    (merge_sort (fun a b : Z * nat =>
                   (fst a < fst b)%Z \/ (fst a = fst b /\ snd a <= snd b))
       (zip key (seq 0 (length key)))).

Definition take_rows {A : Type} (d : A) (order : list nat) (col : list A) : list A :=
  map (fun i => nth i col d) order.

(** The table that [generate_sample_data] returns.  The columns are built
    as lists, in the order of the source, and put together at the end.
    Writing the table to [output_file] and printing its statistics act
    outside the process state kept here and are left out. *)
Definition generate_sample_data (start_date : option Z) (duration_hours : Z)
    (output_file : string) : Py DataFrame :=
  t ← time_time;
  np_random_seed (current_seed t);;
  start_date ← match start_date with
                | None => datetime_now
                | Some d => mret d
                end;
  timestamps ← lift (date_range start_date (duration_hours * 60));
  let total_records := length timestamps in
  let n_normal := Z.to_nat (int_of (inject_Z (Z.of_nat total_records) * 0.85)) in
  let n_anomalous := total_records - n_normal in
  (* base_patterns *)
  normal_traffic_mean ← draw (uniform1 400000 600000);
  normal_traffic_std ← draw (uniform1 100000 200000);
  normal_packet_mean ← draw (uniform1 800 1200);
  normal_packet_std ← draw (uniform1 200 400);
  anomaly_multiplier ← draw (uniform1 3 5);
  (* normal_data *)
  n_bytes ← draw (normal normal_traffic_mean normal_traffic_std n_normal);
  n_packets ← draw (normal normal_packet_mean normal_packet_std n_normal);
  n_duration ← draw (gamma 3 10 n_normal);
  n_source ← draw (randint 1024 65535 n_normal);
  n_dest ← draw (choice [80; 443; 22; 21; 3306; 5432; 8080; 8443; 25; 53]%Z
                    (Some [0.3; 0.25; 0.1; 0.05; 0.05; 0.05; 0.05; 0.05; 0.05; 0.05]%Q)
                    n_normal);
  n_retrans ← draw (beta 2 50 n_normal);
  (* anomaly_sizes *)
  let n_each_anomaly := n_anomalous / 3 in
  let remainder := n_anomalous mod 3 in
  let size0 := n_each_anomaly + (if decide (0 < remainder) then 1 else 0) in
  let size1 := n_each_anomaly + (if decide (1 < remainder) then 1 else 0) in
  let size2 := n_each_anomaly in
  (* ddos_pattern, data_exfil_pattern, scan_pattern *)
  ddos_bytes ← draw (normal (normal_traffic_mean * anomaly_multiplier)
                        (normal_traffic_std * 2) size0);
  ddos_packets ← draw (normal (normal_packet_mean * anomaly_multiplier)
                          (normal_packet_std * 2) size0);
  exfil_bytes ← draw (normal 100 50 size1);
  exfil_packets ← draw (normal 50 20 size1);
  scan_bytes ← draw (normal (normal_traffic_mean * 0.1)
                        (normal_traffic_std * 0.1) size2);
  scan_packets ← draw (normal (normal_packet_mean * 2) normal_packet_std size2);
  (* anomalous_data *)
  a_duration0 ← draw (uniform 0.1 1 size0);
  a_duration1 ← draw (uniform 300 600 size1);
  a_duration2 ← draw (uniform 0.1 0.5 size2);
  a_source ← draw (randint 1024 65535 n_anomalous);
  a_dest0 ← draw (choice [80; 443]%Z None size0);
  a_dest1 ← draw (choice [21; 22; 3306]%Z None size1);
  a_dest2 ← draw (randint 1 65535 size2);
  a_retrans0 ← draw (beta 5 2 size0);
  a_retrans1 ← draw (beta 1 50 size1);
  a_retrans2 ← draw (beta 2 20 size2);
  (* the normal rows, then the anomalous ones *)
  let bytes_transferred := (n_bytes ++ ddos_bytes ++ exfil_bytes ++ scan_bytes)%list in
  let packet_count := (n_packets ++ ddos_packets ++ exfil_packets ++ scan_packets)%list in
  let connection_duration := (n_duration ++ a_duration0 ++ a_duration1 ++ a_duration2)%list in
  let source_port := (n_source ++ a_source)%list in
  let destination_port := (n_dest ++ a_dest0 ++ a_dest1 ++ a_dest2)%list in
  let retransmission_rate := (n_retrans ++ a_retrans0 ++ a_retrans1 ++ a_retrans2)%list in
  let len_df := length bytes_transferred in
  (* protocols *)
  protocol ← draw (choice ["TCP"; "UDP"; "HTTP"; "HTTPS"; "SSH"; "FTP"]
                      (Some [0.3; 0.2; 0.2; 0.15; 0.1; 0.05]%Q) len_df);
  let port_is (p : Z) := map (fun d => bool_decide (d = p)) destination_port in
  on80 ← draw (choice ["HTTP"; "TCP"] None (count_true (port_is 80%Z)));
  let protocol := loc_assign (port_is 80%Z) on80 protocol in
  on443 ← draw (choice ["HTTPS"; "TCP"] None (count_true (port_is 443%Z)));
  let protocol := loc_assign (port_is 443%Z) on443 protocol in
  let protocol := loc_fill (port_is 22%Z) "SSH" protocol in
  let protocol := loc_fill (port_is 21%Z) "FTP" protocol in
  (* timestamp *)
  let head := firstn len_df timestamps in
  positions ← draw (sample_positions (length head) len_df);
  let timestamp := merge_sort Z.le (take_rows 0%Z positions head) in
  (* derived features *)
  noise1 ← draw (normal 1 0.1 len_df);
  let bytes_per_packet :=
    zip_with Qmult (zip_with Qdiv bytes_transferred packet_count) noise1 in
  noise2 ← draw (normal 1 0.1 len_df);
  let packets_per_second :=
    zip_with Qmult (zip_with Qdiv packet_count connection_duration) noise2 in
  (* time-based patterns *)
  let hour_between (a b : Z) :=
    map (fun t => bool_decide (a <= hour t)%Z && bool_decide (hour t <= b)%Z) timestamp in
  night ← draw (uniform 0.5 0.8 (count_true (hour_between 1 5)%Z));
  let bytes_transferred := loc_scale (hour_between 1 5)%Z night bytes_transferred in
  day ← draw (uniform 1.2 1.5 (count_true (hour_between 9 17)%Z));
  let bytes_transferred := loc_scale (hour_between 9 17)%Z day bytes_transferred in
  (* sort by timestamp *)
  let order := argsort timestamp in
  let floats (xs : list Q) := Float (map Some (take_rows 0%Q order xs)) in
  let ints (xs : list Z) := Float (map (fun x => Some (inject_Z x)) (take_rows 0%Z order xs)) in
  mret [ ("bytes_transferred", floats (map Qabs bytes_transferred));
         ("packet_count", floats (map Qabs packet_count));
         ("connection_duration", floats (map Qabs connection_duration));
         ("source_port", ints source_port);
         ("destination_port", ints destination_port);
         ("retransmission_rate", floats (map Qabs retransmission_rate));
         ("protocol", Object (map Some (take_rows "" order protocol)));
         ("timestamp", Datetime (take_rows 0%Z order timestamp));
         ("bytes_per_packet", floats bytes_per_packet);
         ("packets_per_second", floats packets_per_second) ].

(** ** Notions of the statements *)

(** The outcome of [m] is the same from every process state: it depends on
    no clock, no generator state, no log and no earlier fit. *)
Definition state_independent {A : Type} (m : Py A) : Prop :=
  forall s1 s2, fst (m s1) = fst (m s2).

(** The outcome of [m], and the generator state it leaves, depend on the
    process state through numpy's global generator only. *)
Definition generator_determined {A : Type} (m : Py A) : Prop :=
  forall s1 s2,
    np_random s1 = np_random s2 ->
    fst (m s1) = fst (m s2) /\ np_random (snd (m s1)) = np_random (snd (m s2)).

End Program.

(** ** A small instance of the libraries

    A linear congruential generator stands for numpy's Mersenne twister and
    a distance to the origin for the path lengths of the trees.  The
    instance serves to run the definitions above on concrete tables. *)

Module Lcg.

Definition step (r : Z) : Z := ((1103515245 * r + 12345) mod 2147483648)%Z.

Fixpoint stream (n : nat) (r : Z) : list Z * Z :=
  match n with
  | O => ([], r)
  | S n' => let '(zs, r') := stream n' (step r) in (step r :: zs, r')
  end.

(** A number of [0, 1). *)
Definition fraction (z : Z) : Q := (z mod 1000 # 1000)%Q.

Definition spread (f : Q -> Q) (n : nat) (r : Z) : list Q * Z :=
  let '(zs, r') := stream n r in (map (fun z => f (fraction z)) zs, r').

Definition pick {A : Type} (l : list A) (n : nat) (r : Z) : list A * Z :=
  match l with
  | [] => ([], r)
  | d :: _ =>
      let '(zs, r') := stream n r in
      (map (fun z => nth (Z.to_nat (z mod Z.of_nat (length l))) l d) zs, r')
  end.

(** Exact on the squares of rationals. *)
Definition root (q : Q) : Q := (Z.sqrt (Qnum q * Zpos (Qden q)) # Qden q)%Q.

#[global] Instance numpy : Numpy := {|
  RandomState := Z;
  seeded := fun n => n;
  sqrt := root;
  uniform1 := fun lo hi r => ((lo + (hi - lo) * fraction (step r))%Q, step r);
  uniform := fun lo hi => spread (fun u => lo + (hi - lo) * u)%Q;
  normal := fun mu sigma => spread (fun u => mu + sigma * (2 * u - 1))%Q;
  gamma := fun shape scale => spread (fun u => shape * scale * (u + 0.5))%Q;
  beta := fun a b => spread (fun u => u * a / (a + b))%Q;
  randint := fun lo hi n r =>
    let '(zs, r') := stream n r in
    (map (fun z => lo + z mod Z.max 1 (hi - lo))%Z zs, r');
  choice := fun A l _ => pick l;
  sample_positions := fun len n r =>
    (map (fun i => (i + Z.to_nat (step r mod 1000)) mod Nat.max 1 len) (seq 0 n),
     step r)
|}.

(** The statistics of a column in double precision, every operation
    rounded: sums from left to right, the variance in two passes with its
    correction term, and the test that takes a column for constant when
    its variance is within rounding of zero. *)
Definition float_sum (ys : list Q) : Q :=
  fold_left (fun a y => float64 (a + y)) ys 0%Q.

Definition float_mean (ys : list Q) : Q :=
  float64 (float_sum ys / inject_Z (Z.of_nat (length ys))).

Definition float_var (ys : list Q) : Q :=
  let n := inject_Z (Z.of_nat (length ys)) in
  let centred := map (fun y => float64 (y - float_mean ys)) ys in
  let correction := float_sum centred in
  let squares := float_sum (map (fun t => float64 (t * t)) centred) in
  float64 (float64 (squares - float64 (float64 (correction * correction) / n))
           / n).

Definition epsilon : Q := (2 ^ (-52))%Q.

Definition within_rounding_of_zero (ys : list Q) : bool :=
  let n := inject_Z (Z.of_nat (length ys)) in
  let spread := float64 (float64 (n * epsilon) * float_var ys) in
  let level := float64 (float64 (n * float_mean ys) * epsilon) in
  bool_decide (float_var ys <= float64 (spread + float64 (level * level)))%Q.

#[global] Instance statistics : ScalerStatistics := {|
  column_mean := float_mean;
  column_var := float_var;
  constant_column := within_rounding_of_zero
|}.

#[global] Instance trees : IsolationTrees := {|
  Forest := Q;
  grow := fun _ _ r => (fraction (step r), step r);
  raw_score := fun shift row => (- Qsum (map Qabs row) - shift)%Q
|}.

(** A process that has read, drawn and logged nothing yet. *)
Definition boot (t : Q) (r : Z) : State :=
  {| clock := t; np_random := r; log := []; scaler := None; model := None |}.

End Lcg.


(** ** Further notions of the statements *)

(** A computation that hands nothing to [logging]. *)
Definition keeps_log `{IT : IsolationTrees} {A : Type} (m : Py A) : Prop :=
  forall s, log (snd (m s)) = log s.

(** A computation that hands nothing to [logging] when it raises. *)
Definition quiet_on_failure `{IT : IsolationTrees} {A : Type} (m : Py A) : Prop :=
  forall s e s', m s = (Raised e, s') -> log s' = log s.

(** A computation that returns from every state, with a result that
    satisfies [P]. *)
Definition returns_with `{IT : IsolationTrees} {A : Type} (P : A -> Prop)
    (m : Py A) : Prop :=
  forall s, exists a s', m s = (Returned a, s') /\ P a.

(** What numpy documents of the draws that [generate_sample_data] makes: a
    draw of size [n] has [n] values, [choice] draws among the values it is
    given, and a sample without replacement of all the positions is a
    permutation of them. *)
Class NumpyLaws `{Numpy} : Prop := {
  uniform_length : forall lo hi n r, length (fst (uniform lo hi n r)) = n;
  normal_length : forall mu sigma n r, length (fst (normal mu sigma n r)) = n;
  gamma_length : forall shape scale n r, length (fst (gamma shape scale n r)) = n;
  beta_length : forall a b n r, length (fst (beta a b n r)) = n;
  randint_length : forall lo hi n r, length (fst (randint lo hi n r)) = n;
  choice_length : forall (A : Type) (l : list A) p n r,
    l <> [] -> length (fst (choice l p n r)) = n;
  choice_among : forall (A : Type) (l : list A) p n r x,
    x ∈ fst (choice l p n r) -> x ∈ l;
  sample_positions_all : forall n r, fst (sample_positions n n r) ≡ₚ seq 0 n
}.

(** ** [allowed_file] of the web front end

    A file name is the text of its characters; the letters that
    [str.lower] can turn into one of ['c'], ['s'], ['v'] are the ASCII
    capitals, so [lower] acts on those. *)

(** The character ['.'], code 46. *)
Definition dot : Ascii.ascii := Ascii.ascii_of_nat 46.

(** [c in s] for a single character. *)
Fixpoint contains (c : Ascii.ascii) (s : string) : bool :=
  match s with
  | EmptyString => false
  | String c' rest => Ascii.eqb c' c || contains c rest
  end.

(** The cut of [s] at its last [sep], when it has one. *)
Fixpoint rpartition (sep : Ascii.ascii) (s : string) : option (string * string) :=
  match s with
  | EmptyString => None
  | String c rest =>
      match rpartition sep rest with
      | Some (before, after) => Some (String c before, after)
      | None => if Ascii.eqb c sep then Some (EmptyString, rest) else None
      end
  end.

(** [s.rsplit(sep, 1)] *)
Definition rsplit (sep : Ascii.ascii) (s : string) : list string :=
  match rpartition sep s with
  | Some (before, after) => [before; after]
  | None => [s]
  end.

Definition lower_char (c : Ascii.ascii) : Ascii.ascii :=
  let n := Ascii.nat_of_ascii c in
  if Nat.leb 65 n && Nat.leb n 90 then Ascii.ascii_of_nat (n + 32) else c.

(** [s.lower()] *)
Fixpoint lower (s : string) : string :=
  match s with
  | EmptyString => EmptyString
  | String c rest => String (lower_char c) (lower rest)
  end.

(** [ALLOWED_EXTENSIONS], written [{'csv'}] in the source. *)
Definition allowed_extensions : gset string := {["csv"]}.

(** [allowed_file]; [None] is the [IndexError] of the subscript [[1]]. *)
Definition allowed_file (filename : string) : option bool :=
  if contains dot filename
  then ext ← rsplit dot filename !! 1;
       Some (bool_decide (lower ext ∈ allowed_extensions))
  else Some false.
(** ** Tables and configurations to run the definitions on *)

Definition two_features : Config :=
  {| features := ["bytes_transferred"; "packet_count"];
     contamination := 0.05; n_estimators := 100; random_state := Some 42%Z |}.

Definition flows_without_packets : DataFrame :=
  [("bytes_transferred", Float [Some 512%Q; Some 2048%Q]);
   ("protocol", Object [Some "TCP"; Some "UDP"])].

(** Five flows, two cells missing, one flow far from the others. *)
Definition flows : DataFrame :=
  [("bytes_transferred", Float [Some 500%Q; Some 520%Q; None; Some 9000%Q; Some 480%Q]);
   ("packet_count", Float [Some 10%Q; Some 11%Q; Some 12%Q; Some 90%Q; None]);
   ("protocol", Object [Some "TCP"; Some "UDP"; Some "TCP"; Some "TCP"; None])].

(** A table where no packet count was recorded. *)
Definition flows_without_counts : DataFrame :=
  [("bytes_transferred", Float [Some 500%Q; Some 520%Q]);
   ("packet_count", Float [None; None])].

Definition single_flow : DataFrame :=
  [("bytes_transferred", Float [Some 500%Q]);
   ("packet_count", Float [Some 10%Q])].

Definition no_flow : DataFrame :=
  [("bytes_transferred", Float []);
   ("packet_count", Float [])].

(** A thousand flows that are all the same. *)
Definition thousand_equal_flows : DataFrame :=
  [("bytes_transferred", Float (repeat (Some 512%Q) 1000));
   ("packet_count", Float (repeat (Some 8%Q) 1000))].

(** A table that was scored before, as an exported report is. *)
Definition scored_before : DataFrame :=
  [("bytes_transferred", Float [Some 500%Q; Some 520%Q; Some 9000%Q]);
   ("packet_count", Float [Some 10%Q; Some 11%Q; Some 90%Q]);
   ("anomaly", Object [Some "Anomaly"; Some "Normal"; Some "Normal"])].

(** The table of a returned outcome. *)
Definition table_of (o : outcome DataFrame) : DataFrame :=
  match o with
  | Returned df => df
  | Raised _ => []
  end.

(** The number of records labelled ['Anomaly'] in a table. *)
Definition anomaly_count (df : DataFrame) : option nat :=
  count_label "Anomaly" <$> get_col "anomaly" df.

(** Two processes that differ in their clock, generator, log and fits. *)
Definition fresh_process : State := Lcg.boot 0 0.

Definition busy_process : State :=
  {| clock := 1700000000.5; np_random := 77%Z;
     log := [(INFO, LoadedData); (WARNING, ConfigNotFound)];
     scaler := Some [Some (1%Q, 2%Q)];
     model := Some {| trees := 0.25%Q; offset_ := (-3)%Q |} |}.

(** The flows, preprocessed and then scored, from a fresh process. *)
Definition preprocessed_flows : outcome DataFrame * State :=
  Eval vm_compute in
    load_and_preprocess_data two_features (Returned flows) fresh_process.

Definition scored_flows : outcome DataFrame * State :=
  Eval vm_compute in
    detect_anomalies two_features (table_of (fst preprocessed_flows))
      (snd preprocessed_flows).

Definition scored_single_flow : outcome DataFrame * State :=
  Eval vm_compute in run_pipeline two_features (Returned single_flow) fresh_process.

(** The default configuration without its seed. *)
Definition unseeded : Config :=
  {| features := ["bytes_transferred"; "packet_count"];
     contamination := 0.05; n_estimators := 100; random_state := None |}.

(** Two readings of the clock, both doubles, whose milliseconds are
    [2 ^ 32] apart: 1700000000125 and 1704294967421. *)
Definition reading : Q := 1700000000.125.
Definition later_reading : Q := 1704294967 + (1767899 # 4194304).

(** The double nearest to 1700000000.123, a reading whose product with
    1000 rounds up to the next millisecond. *)
Definition rounded_reading : Q := 7130316800515899 # 4194304.


(** Seven flows that all carry the double nearest to 0.1. *)
Definition tenths : DataFrame :=
  [("bytes_transferred", Float (repeat (Some (float64 0.1)) 7));
   ("packet_count", Float (repeat (Some (float64 0.1)) 7))].

(** ** Further tables and configurations *)

(** Three flows, the first two alike. *)
Definition twin_flows : DataFrame :=
  [("bytes_transferred", Float [Some 500%Q; Some 500%Q; Some 9000%Q]);
   ("packet_count", Float [Some 10%Q; Some 10%Q; Some 90%Q])].

(** Five flows with every cell recorded. *)
Definition complete_flows : DataFrame :=
  [("bytes_transferred", Float [Some 500%Q; Some 520%Q; Some 510%Q; Some 9000%Q; Some 480%Q]);
   ("packet_count", Float [Some 10%Q; Some 11%Q; Some 12%Q; Some 90%Q; Some 9%Q]);
   ("protocol", Object [Some "TCP"; Some "UDP"; Some "TCP"; Some "TCP"; None])].

(** A contamination above one half. *)
Definition too_contaminated : Config :=
  {| features := ["bytes_transferred"; "packet_count"];
     contamination := 0.7; n_estimators := 100; random_state := Some 42%Z |}.

(** A configuration that takes the label column for a feature. *)
Definition label_as_feature : Config :=
  {| features := ["bytes_transferred"; "anomaly"];
     contamination := 0.05; n_estimators := 100; random_state := Some 42%Z |}.

(** The flows after [_handle_missing_values], from a fresh process. *)
Definition imputed_flows : outcome DataFrame * State :=
  Eval vm_compute in _handle_missing_values two_features flows fresh_process.

(** The complete flows without their protocol. *)
Definition complete_flows_bare : DataFrame :=
  [("bytes_transferred", Float [Some 500%Q; Some 520%Q; Some 510%Q; Some 9000%Q; Some 480%Q]);
   ("packet_count", Float [Some 10%Q; Some 11%Q; Some 12%Q; Some 90%Q; Some 9%Q])].
(** * Properties *)

(** ** Validation *)

Lemma elem_of_missing_features (cfg : Config) (df : DataFrame) (x : string) :
  x ∈ missing_features cfg df <-> x ∈ features cfg /\ x ∉ columns df.
Proof. unfold missing_features. set_solver. Qed.

Lemma validate_data_raises (cfg : Config) (df : DataFrame) (e : exn) :
  _validate_data cfg df = Raised e <->
  missing_features cfg df <> ∅ /\
  e = ValueError (MissingRequiredFeatures (missing_features cfg df)).
Proof.
  unfold _validate_data. cbv zeta.
  destruct (decide (missing_features cfg df = ∅)) as [Hm|Hm]; split.
  - discriminate.
  - intros [Hne _]. contradiction.
  - intros [= <-]. split; [assumption|reflexivity].
  - intros [_ ->]. reflexivity.
Qed.

(** C8. Validation fails exactly when some configured feature is not a
    column of the table, and the error then carries the set of the missing
    names, no more and no less; when one configured feature is missing the
    error carries that single name. *)
Theorem validate_data_reports_missing (cfg : Config) (df : DataFrame) :
  (_validate_data cfg df = Returned tt <-> missing_features cfg df = ∅) /\
  (forall e, _validate_data cfg df = Raised e <->
     missing_features cfg df <> ∅ /\
     e = ValueError (MissingRequiredFeatures (missing_features cfg df))) /\
  (forall x, x ∈ missing_features cfg df <-> x ∈ features cfg /\ x ∉ columns df) /\
  (forall f, f ∈ features cfg -> f ∉ columns df ->
     (forall g, g ∈ features cfg -> g <> f -> g ∈ columns df) ->
     _validate_data cfg df = Raised (ValueError (MissingRequiredFeatures {[f]}))).
Proof.
  split; [|split; [|split]].
  - unfold _validate_data. cbv zeta. case_decide; split; done.
  - intros e. apply validate_data_raises.
  - intros x. apply elem_of_missing_features.
  - intros f Hf Hnf Hothers.
    assert (Hset : missing_features cfg df = {[f]}).
    { apply set_eq. intros x. rewrite elem_of_missing_features, elem_of_singleton.
      split.
      - intros [Hx Hnx]. destruct (decide (x = f)) as [|Hne]; [done|].
        exfalso. apply Hnx, Hothers; done.
      - intros ->. done. }
    apply validate_data_raises. rewrite Hset.
    split; [apply non_empty_singleton_L|reflexivity].
Qed.

Lemma validate_data_reports_missing_witness :
  _validate_data two_features flows_without_packets
  = Raised (ValueError (MissingRequiredFeatures {["packet_count"]})).
Proof.
  apply (validate_data_reports_missing two_features flows_without_packets).
  - simpl. apply elem_of_cons. right. apply list_elem_of_singleton. reflexivity.
  - simpl. intros Hin. apply elem_of_cons in Hin as [Heq|Hin].
    + discriminate Heq.
    + apply list_elem_of_singleton in Hin. discriminate Hin.
  - simpl. intros g Hg Hne. apply elem_of_cons in Hg as [->|Hg].
    + apply elem_of_cons. left. reflexivity.
    + apply list_elem_of_singleton in Hg. contradiction.
Defined.

(** ** Columns of a table *)

Lemma get_col_set_col_eq (n : string) (c : column) (df : DataFrame) :
  get_col n (set_col n c df) = Some c.
Proof.
  induction df as [|[n0 c0] df IH]; simpl.
  - rewrite String.eqb_refl. reflexivity.
  - destruct (String.eqb n0 n) eqn:E; simpl; rewrite E; [reflexivity|exact IH].
Qed.

Lemma get_col_set_col_ne (name n : string) (c : column) (df : DataFrame) :
  n <> name -> get_col name (set_col n c df) = get_col name df.
Proof.
  intros Hne. induction df as [|[n0 c0] df IH]; simpl.
  - apply String.eqb_neq in Hne. rewrite Hne. reflexivity.
  - destruct (String.eqb n0 n) eqn:E; simpl.
    + apply String.eqb_eq in E. subst n0.
      apply String.eqb_neq in Hne. rewrite Hne. reflexivity.
    + destruct (String.eqb n0 name); [reflexivity|exact IH].
Qed.

Lemma columns_set_col (n : string) (c : column) (df : DataFrame) :
  columns (set_col n c df)
  = match get_col n df with
    | Some _ => columns df
    | None => (columns df ++ [n])%list
    end.
Proof.
  unfold columns.
  induction df as [|[n0 c0] df IH]; simpl; [reflexivity|].
  destruct (String.eqb n0 n) eqn:E; simpl; [reflexivity|].
  rewrite IH. destruct (get_col n df); reflexivity.
Qed.

Lemma get_col_Some_columns (n : string) (df : DataFrame) :
  is_Some (get_col n df) <-> n ∈ columns df.
Proof.
  induction df as [|[n0 c0] df IH]; simpl.
  - split; [intros [? [=]]|intros H; inversion H].
  - destruct (String.eqb_spec n0 n) as [->|Hne].
    + split; [intros _; apply elem_of_cons; left; reflexivity|eauto].
    + rewrite IH. rewrite elem_of_cons. split; [tauto|].
      intros [Heq|Hin]; [congruence|exact Hin].
Qed.

Lemma get_col_assign_other (name : string) (cols : list (string * column))
    (df : DataFrame) :
  name ∉ map fst cols -> get_col name (assign cols df) = get_col name df.
Proof.
  unfold assign. revert df.
  induction cols as [|[n c] cols IH]; intros df Hnot; simpl; [reflexivity|].
  simpl in Hnot. rewrite not_elem_of_cons in Hnot. destruct Hnot as [Hne Hnot].
  rewrite IH by exact Hnot. apply get_col_set_col_ne. congruence.
Qed.

Lemma columns_assign_present (cols : list (string * column)) (df : DataFrame) :
  (forall n, n ∈ map fst cols -> n ∈ columns df) ->
  columns (assign cols df) = columns df.
Proof.
  unfold assign. revert df.
  induction cols as [|[n c] cols IH]; intros df Hin; simpl; [reflexivity|].
  assert (Hn : n ∈ columns df) by (apply Hin; simpl; apply elem_of_cons; auto).
  assert (Hc : columns (set_col n c df) = columns df).
  { rewrite columns_set_col. apply get_col_Some_columns in Hn as [c' ->].
    reflexivity. }
  rewrite IH; [exact Hc|].
  intros m Hm. rewrite Hc. apply Hin. simpl. apply elem_of_cons. auto.
Qed.

(** When every value assigned under [name] is the same column [c], that is
    the column found afterwards. *)
Lemma get_col_assign_same (name : string) (c : column)
    (cols : list (string * column)) (df : DataFrame) :
  name ∈ map fst cols ->
  (forall c', (name, c') ∈ cols -> c' = c) ->
  get_col name (assign cols df) = Some c.
Proof.
  unfold assign. revert df.
  induction cols as [|[n c0] cols IH]; intros df Hin Hsame; simpl.
  - inversion Hin.
  - destruct (decide (name ∈ map fst cols)) as [Hlater|Hlast].
    + apply IH; [exact Hlater|].
      intros c' Hc'. apply Hsame. apply elem_of_cons. auto.
    + simpl in Hin. apply elem_of_cons in Hin as [->|Hin]; [|contradiction].
      fold (assign cols (set_col n c0 df)).
      rewrite get_col_assign_other by exact Hlast.
      rewrite get_col_set_col_eq. f_equal. apply Hsame.
      apply elem_of_cons. auto.
Qed.

(** ** Selections and traversals *)

Lemma select_returned (names : list string) (df : DataFrame)
    (sel : list (string * column)) :
  select names df = Returned sel ->
  map fst sel = names /\
  Forall (fun nc => get_col (fst nc) df = Some (snd nc)) sel.
Proof.
  unfold select.
  destruct (filter (fun n => get_col n df = None) names) eqn:Hf; [|discriminate].
  intros [= <-].
  assert (Hall : Forall (fun n => is_Some (get_col n df)) names).
  { apply Forall_forall. intros n Hn.
    destruct (get_col n df) eqn:E; [eauto|].
    assert (Hin : n ∈ filter (fun n => get_col n df = None) names)
      by (apply list_elem_of_filter; auto).
    rewrite Hf in Hin. inversion Hin. }
  clear Hf. induction Hall as [|n names [c Hc] Hall IH]; simpl.
  - split; [reflexivity|constructor].
  - rewrite Hc. simpl. destruct IH as [IH1 IH2]. split.
    + f_equal. exact IH1.
    + constructor; [exact Hc|exact IH2].
Qed.

Lemma select_total (names : list string) (df : DataFrame) :
  (forall n, n ∈ names -> n ∈ columns df) ->
  exists sel, select names df = Returned sel.
Proof.
  intros Hall. unfold select.
  destruct (filter (fun n => get_col n df = None) names) as [|n rest] eqn:Hf;
    [eauto|].
  assert (Hin : n ∈ filter (fun n => get_col n df = None) names)
    by (rewrite Hf; apply elem_of_cons; auto).
  apply list_elem_of_filter in Hin as [Hnone Hn].
  apply Hall, get_col_Some_columns in Hn as [c Hc]. congruence.
Qed.

Lemma traverse_returned {A B : Type} (f : A -> outcome B) (l : list A)
    (bs : list B) :
  traverse f l = Returned bs <-> Forall2 (fun a b => f a = Returned b) l bs.
Proof.
  revert bs. induction l as [|a l IH]; intros bs; simpl.
  - split; [intros [= <-]; constructor|intros H; inversion H; reflexivity].
  - split.
    + destruct (f a) eqn:Ea; [|discriminate].
      destruct (traverse f l) eqn:El; [|discriminate].
      intros [= <-]. constructor; [exact Ea|]. apply IH. reflexivity.
    + intros H. inversion H as [|? b ? bs' Hb Hrest]; subst.
      rewrite Hb. apply IH in Hrest. rewrite Hrest. reflexivity.
Qed.

Lemma fill_with_mean_name (nc nc' : string * column) :
  fill_with_mean nc = Returned nc' -> fst nc' = fst nc.
Proof.
  unfold fill_with_mean. destruct (snd nc); intros [= <-]; reflexivity.
Qed.

Lemma traverse_fill_names (sel filled : list (string * column)) :
  traverse fill_with_mean sel = Returned filled -> map fst filled = map fst sel.
Proof.
  intros H. apply traverse_returned in H.
  induction H as [|nc nc' sel filled Hnc _ IH]; simpl; [reflexivity|].
  f_equal; [eapply fill_with_mean_name; exact Hnc|exact IH].
Qed.

(** ** Running the monad *)

Section Pipeline.
Context `{IT : IsolationTrees} `{SS : ScalerStatistics}.

Lemma bind_returned {A B : Type} (m : Py A) (k : A -> Py B) (s s' : State) (b : B) :
  (m ≫= k) s = (Returned b, s') ->
  exists a s1, m s = (Returned a, s1) /\ k a s1 = (Returned b, s').
Proof.
  unfold mbind, Py_bind. destruct (m s) as [[a|e] s1]; [eauto|discriminate].
Qed.

Lemma bind_run {A B : Type} (m : Py A) (k : A -> Py B) (s s1 : State) (a : A) :
  m s = (Returned a, s1) -> (m ≫= k) s = k a s1.
Proof. unfold mbind, Py_bind. intros ->. reflexivity. Qed.

Lemma bind_raised {A B : Type} (m : Py A) (k : A -> Py B) (s s1 : State) (e : exn) :
  m s = (Raised e, s1) -> (m ≫= k) s = (Raised e, s1).
Proof. unfold mbind, Py_bind. intros ->. reflexivity. Qed.

Lemma lift_returned {A : Type} (o : outcome A) (s s' : State) (a : A) :
  lift o s = (Returned a, s') -> o = Returned a /\ s' = s.
Proof. unfold lift. intros [= -> ->]. auto. Qed.

(** A handler that logs and raises again never turns a failure into a
    result. *)
Lemma try_except_reraise {A : Type} (body : Py A) (msg : exn -> message)
    (s s' : State) (a : A) :
  try_except body (fun e => logging ERROR (msg e);; raise e) s = (Returned a, s') ->
  body s = (Returned a, s').
Proof.
  unfold try_except. destruct (body s) as [[a0|e] s1]; [auto|].
  unfold mbind, Py_bind, logging, raise. discriminate.
Qed.

Lemma try_except_raised {A : Type} (body : Py A) (msg : exn -> message)
    (s s1 : State) (e : exn) :
  body s = (Raised e, s1) ->
  try_except body (fun e => logging ERROR (msg e);; raise e) s
  = (Raised e, logged (ERROR, msg e) s1).
Proof. unfold try_except. intros ->. reflexivity. Qed.

Ltac bind_inv H :=
  let a := fresh "a" in
  let s := fresh "s" in
  let Ha := fresh "Hstep" in
  apply bind_returned in H as (a & s & Ha & H); cbv zeta in H.

(** ** Configuration *)

(** C5 (amended). When the configuration file is absent, loading does not
    raise: it returns the defaults (three placeholder features,
    contamination 0.05, 100 estimators, seed 42) and records one warning.
    When the file is there and cannot be parsed, the parser's error is
    raised. *)
Theorem load_config_absent_gives_defaults (s : State) :
  load_config Absent s
  = (Returned default_config, logged (WARNING, ConfigNotFound) s) /\
  load_config Unparseable s = (Raised JSONDecodeError, s) /\
  features default_config = ["feature1"; "feature2"; "feature3"] /\
  (contamination default_config == 5 # 100)%Q /\
  n_estimators default_config = 100%Z /\
  random_state default_config = Some 42%Z.
Proof. repeat split. Qed.

(** ** Preprocessing *)

Lemma handle_missing_values_run (cfg : Config) (df : DataFrame)
    (sel filled : list (string * column)) (s : State) :
  select (features cfg) df = Returned sel ->
  traverse fill_with_mean sel = Returned filled ->
  _handle_missing_values cfg df s
  = (Returned (assign filled df),
     if any_missing sel
     then logged (WARNING, MissingValuesDetected (missing_stats_of sel)) s
     else s).
Proof.
  intros Hsel Hfill. unfold _handle_missing_values.
  unfold mbind, Py_bind, lift. rewrite Hsel.
  destruct (any_missing sel); simpl; rewrite Hfill; reflexivity.
Qed.

Lemma handle_missing_values_returned (cfg : Config) (df df' : DataFrame)
    (s s' : State) :
  _handle_missing_values cfg df s = (Returned df', s') ->
  exists sel filled,
    select (features cfg) df = Returned sel /\
    traverse fill_with_mean sel = Returned filled /\
    df' = assign filled df /\
    s' = (if any_missing sel
          then logged (WARNING, MissingValuesDetected (missing_stats_of sel)) s
          else s).
Proof.
  intros Hrun. pose proof Hrun as Hrun'. unfold _handle_missing_values in Hrun'.
  bind_inv Hrun'. apply lift_returned in Hstep as [Hsel ->].
  bind_inv Hrun'. bind_inv Hrun'. apply lift_returned in Hstep0 as [Hfill _].
  exists a, a1. split; [exact Hsel|]. split; [exact Hfill|].
  rewrite (handle_missing_values_run _ _ _ _ _ Hsel Hfill) in Hrun.
  injection Hrun as <- <-. split; reflexivity.
Qed.

Lemma scale_features_run (cfg : Config) (df : DataFrame)
    (sel : list (string * column)) (cols : list (list (option Q))) (s : State) :
  select (features cfg) df = Returned sel ->
  check_array true sel = Returned cols ->
  exists s',
    _scale_features cfg df s = (Returned (assign (scaled_columns sel cols) df), s') /\
    log s' = log s.
Proof.
  intros Hsel Hcols. unfold _scale_features.
  unfold mbind, Py_bind, lift. rewrite Hsel, Hcols. simpl.
  eexists. split; reflexivity.
Qed.

Lemma scale_features_returned (cfg : Config) (df df' : DataFrame) (s s' : State) :
  _scale_features cfg df s = (Returned df', s') ->
  exists sel cols,
    select (features cfg) df = Returned sel /\
    check_array true sel = Returned cols /\
    df' = assign (scaled_columns sel cols) df.
Proof.
  intros Hrun. pose proof Hrun as Hrun'. unfold _scale_features in Hrun'.
  bind_inv Hrun'. apply lift_returned in Hstep as [Hsel _].
  bind_inv Hrun'. apply lift_returned in Hstep as [Hcols _].
  exists a, a0. split; [exact Hsel|]. split; [exact Hcols|].
  destruct (scale_features_run cfg df a a0 s Hsel Hcols) as (sf & Heq & _).
  rewrite Heq in Hrun. injection Hrun as <- _. reflexivity.
Qed.

Lemma selected_names_are_columns (names : list string) (df : DataFrame)
    (sel : list (string * column)) :
  select names df = Returned sel ->
  forall n, n ∈ names -> n ∈ columns df.
Proof.
  intros Hsel n Hn. apply select_returned in Hsel as [Hnames Hall].
  rewrite <- Hnames in Hn. apply list_elem_of_fmap in Hn as ([n' c] & -> & Hin).
  rewrite Forall_forall in Hall. apply get_col_Some_columns.
  rewrite (Hall _ Hin). eauto.
Qed.

Lemma handle_missing_values_frame (cfg : Config) (df df' : DataFrame) (s s' : State) :
  _handle_missing_values cfg df s = (Returned df', s') ->
  columns df' = columns df /\
  forall name, name ∉ features cfg -> get_col name df' = get_col name df.
Proof.
  intros Hrun.
  apply handle_missing_values_returned in Hrun
    as (sel & filled & Hsel & Hfill & -> & _).
  pose proof (traverse_fill_names _ _ Hfill) as Hnames.
  pose proof (select_returned _ _ _ Hsel) as [Hsn _].
  split.
  - apply columns_assign_present. intros n Hn.
    rewrite Hnames, Hsn in Hn. eapply selected_names_are_columns; eauto.
  - intros name Hname. apply get_col_assign_other.
    rewrite Hnames, Hsn. exact Hname.
Qed.

Lemma scaled_columns_names (sel : list (string * column))
    (cols : list (list (option Q))) (n : string) :
  n ∈ map fst (scaled_columns sel cols) -> n ∈ map fst sel.
Proof.
  unfold scaled_columns. intros Hn.
  apply list_elem_of_fmap in Hn as ([n' c] & -> & Hin).
  apply elem_of_zip_l in Hin. exact Hin.
Qed.

Lemma scale_features_frame (cfg : Config) (df df' : DataFrame) (s s' : State) :
  _scale_features cfg df s = (Returned df', s') ->
  columns df' = columns df /\
  forall name, name ∉ features cfg -> get_col name df' = get_col name df.
Proof.
  intros Hrun.
  apply scale_features_returned in Hrun as (sel & cols & Hsel & Hcols & ->).
  pose proof (select_returned _ _ _ Hsel) as [Hsn _].
  split.
  - apply columns_assign_present. intros n Hn.
    apply scaled_columns_names in Hn. rewrite Hsn in Hn.
    eapply selected_names_are_columns; eauto.
  - intros name Hname. apply get_col_assign_other.
    intros Hin. apply scaled_columns_names in Hin. rewrite Hsn in Hin.
    contradiction.
Qed.

Lemma load_and_preprocess_returned (cfg : Config) (df df' : DataFrame)
    (s s' : State) :
  load_and_preprocess_data cfg (Returned df) s = (Returned df', s') ->
  exists df1 s0 s1,
    _validate_data cfg df = Returned tt /\
    _handle_missing_values cfg df s0 = (Returned df1, s1) /\
    _scale_features cfg df1 s1 = (Returned df', s').
Proof.
  intros Hrun. unfold load_and_preprocess_data in Hrun.
  apply try_except_reraise in Hrun.
  bind_inv Hrun. apply lift_returned in Hstep as [[= <-] ->].
  bind_inv Hrun. bind_inv Hrun. apply lift_returned in Hstep0 as [Hval ->].
  bind_inv Hrun. bind_inv Hrun.
  unfold mret, Py_ret in Hrun. injection Hrun as <- <-.
  destruct a0. exists a1, s0, s1. auto.
Qed.

(** C9. Missing-value handling and feature scaling, alone or one after the
    other as [load_and_preprocess_data] runs them, change no column that is
    not a configured feature: the table keeps its columns in their order,
    and every column outside [config.features] keeps its values. *)
Theorem preprocessing_keeps_other_columns (cfg : Config) (df df' : DataFrame)
    (s s' : State) :
  (_handle_missing_values cfg df s = (Returned df', s') \/
   _scale_features cfg df s = (Returned df', s') \/
   load_and_preprocess_data cfg (Returned df) s = (Returned df', s')) ->
  columns df' = columns df /\
  forall name, name ∉ features cfg -> get_col name df' = get_col name df.
Proof.
  intros [Hrun|[Hrun|Hrun]].
  - eapply handle_missing_values_frame; eauto.
  - eapply scale_features_frame; eauto.
  - apply load_and_preprocess_returned in Hrun
      as (df1 & s0 & s1 & _ & Hfill & Hscale).
    apply handle_missing_values_frame in Hfill as [Hc1 Hf1].
    apply scale_features_frame in Hscale as [Hc2 Hf2].
    split; [congruence|].
    intros name Hname. rewrite Hf2, Hf1; auto.
Qed.

(** ** Missing values *)

Lemma fillna_lookup (m : option Q) (xs : list (option Q)) (i : nat) :
  fillna m xs !! i
  = match xs !! i with
    | Some (Some v) => Some (Some v)
    | Some None => Some m
    | None => None
    end.
Proof.
  unfold fillna. destruct m as [v0|].
  - rewrite list_lookup_fmap. destruct (xs !! i) as [[v|]|]; reflexivity.
  - destruct (xs !! i) as [[v|]|]; reflexivity.
Qed.

Lemma fillna_length (m : option Q) (xs : list (option Q)) :
  length (fillna m xs) = length xs.
Proof. unfold fillna. destruct m; [apply length_map|reflexivity]. Qed.

Lemma mean_is_arithmetic (xs : list (option Q)) (m : Q) :
  mean xs = Some m ->
  present xs <> [] /\
  (m * inject_Z (Z.of_nat (length (present xs))) == Qsum (present xs))%Q.
Proof.
  unfold mean. destruct (present xs) as [|y ys] eqn:E; [discriminate|].
  intros [= <-]. split; [discriminate|].
  rewrite Qmult_comm. apply Qmult_div_r.
  change 0%Q with (inject_Z 0). rewrite inject_Z_injective.
  simpl. lia.
Qed.

Lemma mean_none (xs : list (option Q)) :
  mean xs = None <-> Forall (fun x => x = None) xs.
Proof.
  unfold mean, present. split.
  - destruct (omap id xs) as [|y ys] eqn:E; [|discriminate]. intros _.
    induction xs as [|[v|] xs IH]; [constructor|discriminate|].
    constructor; [reflexivity|]. apply IH. exact E.
  - intros Hall. induction Hall as [|x xs -> Hall IH]; [reflexivity|].
    simpl. exact IH.
Qed.

Lemma filled_entry (df : DataFrame) (sel filled : list (string * column))
    (names : list string) (f : string) (c' : column) (xs : list (option Q)) :
  select names df = Returned sel ->
  traverse fill_with_mean sel = Returned filled ->
  get_col f df = Some (Float xs) ->
  (f, c') ∈ filled ->
  c' = Float (fillna (mean xs) xs).
Proof.
  intros Hsel Hfill Hf Hin.
  apply select_returned in Hsel as [_ Hall].
  apply traverse_returned in Hfill.
  apply list_elem_of_lookup in Hin as [i Hi].
  destruct (Forall2_lookup_r _ _ _ _ _ Hfill Hi) as ([n c0] & Hsi & Hfm).
  rewrite Forall_forall in Hall.
  assert (Hc0 : get_col n df = Some c0).
  { apply (Hall (n, c0)). eapply list_elem_of_lookup_2; eauto. }
  pose proof (fill_with_mean_name _ _ Hfm) as Hname. simpl in Hname. subst n.
  rewrite Hf in Hc0. injection Hc0 as <-.
  unfold fill_with_mean in Hfm. simpl in Hfm. congruence.
Qed.

Lemma fill_total (df : DataFrame) (sel : list (string * column))
    (names : list string) :
  select names df = Returned sel ->
  (forall f, f ∈ names -> exists xs, get_col f df = Some (Float xs)) ->
  exists filled, traverse fill_with_mean sel = Returned filled.
Proof.
  intros Hsel Hfloat.
  apply select_returned in Hsel as [Hnames Hall]. subst names.
  induction Hall as [|[n c] sel Hc Hall IH]; simpl; [eauto|].
  destruct (Hfloat n) as [xs Hxs]; [simpl; apply elem_of_cons; auto|].
  simpl in Hc. rewrite Hc in Hxs. injection Hxs as ->.
  unfold fill_with_mean at 1. simpl.
  destruct IH as [filled ->]; [|eauto].
  intros f Hf. apply Hfloat. simpl. apply elem_of_cons. auto.
Qed.

Lemma any_missing_true (df : DataFrame) (sel : list (string * column))
    (names : list string) (f : string) (xs : list (option Q)) :
  select names df = Returned sel ->
  f ∈ names -> get_col f df = Some (Float xs) -> None ∈ xs ->
  any_missing sel = true.
Proof.
  intros Hsel Hf Hxs Hnone.
  apply select_returned in Hsel as [Hnames Hall]. subst names.
  apply list_elem_of_fmap in Hf as ([n c] & -> & Hin).
  rewrite Forall_forall in Hall. pose proof (Hall _ Hin) as Hc.
  simpl in Hc, Hxs. rewrite Hxs in Hc. injection Hc as <-.
  unfold any_missing, missing_stats_of. apply existsb_exists.
  exists (n, count_null (Float xs)). split.
  - apply in_map_iff. exists (n, Float xs). split; [reflexivity|].
    apply list_elem_of_In. exact Hin.
  - simpl. apply negb_true_iff, Nat.eqb_neq.
    assert (Hin' : None ∈ filter (fun x : option Q => x = None) xs)
      by (apply list_elem_of_filter; auto).
    destruct (filter (fun x : option Q => x = None) xs); [inversion Hin'|].
    simpl. lia.
Qed.

(** C4 (amended). On a table whose configured features are numeric columns,
    missing-value handling does not halt.  A value that is present is kept;
    a missing value becomes the arithmetic mean of the values present in
    its column; in a column that is missing throughout there is no mean and
    every value stays missing.  Whenever a configured feature has a missing
    value, one warning is recorded. *)
Theorem missing_values_become_the_mean (cfg : Config) (df : DataFrame) (s : State) :
  (forall f, f ∈ features cfg -> exists xs, get_col f df = Some (Float xs)) ->
  exists df' s',
    _handle_missing_values cfg df s = (Returned df', s') /\
    (forall f xs, f ∈ features cfg -> get_col f df = Some (Float xs) ->
       exists ys,
         get_col f df' = Some (Float ys) /\
         length ys = length xs /\
         (forall i,
            ys !! i = match xs !! i with
                      | Some (Some v) => Some (Some v)
                      | Some None => Some (mean xs)
                      | None => None
                      end) /\
         (forall m, mean xs = Some m ->
            (m * inject_Z (Z.of_nat (length (present xs)))
             == Qsum (present xs))%Q) /\
         (mean xs = None <-> Forall (fun x => x = None) xs) /\
         (None ∈ xs ->
          exists stats,
            log s' = (log s ++ [(WARNING, MissingValuesDetected stats)])%list)).
Proof.
  intros Hfloat.
  destruct (select_total (features cfg) df) as [sel Hsel].
  { intros n Hn. destruct (Hfloat n Hn) as [xs Hxs].
    apply get_col_Some_columns. rewrite Hxs. eauto. }
  destruct (fill_total df sel _ Hsel Hfloat) as [filled Hfill].
  eexists _, _. split; [apply handle_missing_values_run; eauto|].
  intros f xs Hf Hxs. exists (fillna (mean xs) xs).
  split; [|split; [|split; [|split; [|split]]]].
  - apply get_col_assign_same.
    + rewrite (traverse_fill_names _ _ Hfill).
      apply select_returned in Hsel as [-> _]. exact Hf.
    + intros c' Hc'. eapply filled_entry; eauto.
  - apply fillna_length.
  - apply fillna_lookup.
  - intros m Hm. apply mean_is_arithmetic. exact Hm.
  - apply mean_none.
  - intros Hnone. rewrite (any_missing_true df sel _ f xs Hsel Hf Hxs Hnone).
    eexists. reflexivity.
Qed.

(** ** Scaling *)

Lemma handle_zeros_nonzero (var scale : Q) : ~ (handle_zeros var scale == 0)%Q.
Proof.
  unfold handle_zeros. repeat case_decide; [discriminate|discriminate|assumption].
Qed.

Lemma column_scale_nonzero (ys : list Q) : ~ (column_scale ys == 0)%Q.
Proof.
  unfold column_scale. destruct (constant_column ys);
    [discriminate|apply handle_zeros_nonzero].
Qed.


Lemma standardise_Some (mu scale x : Q) :
  ~ (scale == 0)%Q ->
  standardise mu scale x = Some (float64 (float64 (x - mu) / scale)).
Proof.
  intros Hscale. unfold standardise. rewrite decide_False by exact Hscale.
  reflexivity.
Qed.

Lemma fit_transform_col_length (xs : list (option Q)) :
  length (snd (fit_transform_col xs)) = length xs.
Proof.
  unfold fit_transform_col. destruct (present xs); simpl;
    [reflexivity|apply length_map].
Qed.

Lemma fit_transform_col_missing (xs : list (option Q)) :
  present xs = [] -> snd (fit_transform_col xs) = xs.
Proof. intros Hnone. unfold fit_transform_col. rewrite Hnone. reflexivity. Qed.

Lemma fit_transform_col_present (xs : list (option Q)) :
  present xs <> [] ->
  snd (fit_transform_col xs)
  = map (fun x => x ≫= standardise (column_mean (present xs))
                         (column_scale (present xs))) xs.
Proof.
  intros Hsome. unfold fit_transform_col.
  destruct (present xs) eqn:Hys; [contradiction|]. reflexivity.
Qed.









Lemma traverse_as_numbers_floats (sel : list (string * column)) :
  Forall (fun nc => exists xs, snd nc = Float xs) sel ->
  traverse as_numbers sel = Returned (map (fun nc => numbers (snd nc)) sel).
Proof.
  induction 1 as [|[n c] sel [xs Hxs] Hall IH]; simpl; [reflexivity|].
  simpl in Hxs. subst c. unfold as_numbers at 1. simpl. rewrite IH. reflexivity.
Qed.

Lemma check_array_floats (allow_nan : bool) (sel : list (string * column)) :
  sel <> [] ->
  Forall (fun nc => exists xs, snd nc = Float xs /\ xs <> []) sel ->
  (allow_nan = false ->
   existsb has_nan (map (fun nc => numbers (snd nc)) sel) = false) ->
  check_array allow_nan sel = Returned (map (fun nc => numbers (snd nc)) sel).
Proof.
  intros Hne Hall Hnan. unfold check_array.
  destruct sel as [|first rest]; [contradiction|].
  rewrite traverse_as_numbers_floats.
  2:{ eapply Forall_impl; [exact Hall|]. intros nc (xs & Hxs & _). eauto. }
  destruct allow_nan; simpl negb; cbv beta iota.
  - rewrite andb_false_l.
    inversion Hall as [|? ? (xs & Hxs & Hxne) _]; subst. rewrite Hxs. simpl.
    destruct xs; [contradiction|reflexivity].
  - rewrite andb_true_l, Hnan by reflexivity.
    inversion Hall as [|? ? (xs & Hxs & Hxne) _]; subst. rewrite Hxs. simpl.
    destruct xs; [contradiction|reflexivity].
Qed.

Lemma selected_floats (names : list string) (df : DataFrame)
    (sel : list (string * column)) :
  select names df = Returned sel ->
  (forall f, f ∈ names -> exists xs, xs <> [] /\ get_col f df = Some (Float xs)) ->
  Forall (fun nc => exists xs, snd nc = Float xs /\ xs <> []) sel.
Proof.
  intros Hsel Hfloat. apply select_returned in Hsel as [Hnames Hall]. subst names.
  apply Forall_forall. intros [n c] Hin.
  rewrite Forall_forall in Hall. pose proof (Hall _ Hin) as Hc. simpl in Hc.
  destruct (Hfloat n) as (xs & Hne & Hxs).
  { apply list_elem_of_fmap. exists (n, c). auto. }
  rewrite Hxs in Hc. injection Hc as <-. simpl. eauto.
Qed.

Lemma scaled_entry (names : list string) (df : DataFrame)
    (sel : list (string * column)) (f : string) (c' : column)
    (xs : list (option Q)) :
  select names df = Returned sel ->
  get_col f df = Some (Float xs) ->
  (f, c') ∈ scaled_columns sel (map (fun nc => numbers (snd nc)) sel) ->
  c' = Float (snd (fit_transform_col xs)).
Proof.
  intros Hsel Hf Hin. apply select_returned in Hsel as [_ Hall].
  unfold scaled_columns in Hin.
  apply list_elem_of_lookup in Hin as [i Hi].
  apply lookup_zip_Some in Hi as [Hn Hc].
  rewrite !list_lookup_fmap in Hc. rewrite list_lookup_fmap in Hn.
  destruct (sel !! i) as [[n c]|] eqn:Hsi; [|discriminate].
  simpl in Hn, Hc. injection Hn as ->. injection Hc as <-.
  rewrite Forall_forall in Hall.
  assert (Hget : get_col f df = Some c).
  { apply (Hall (f, c)). eapply list_elem_of_lookup_2; eauto. }
  rewrite Hf in Hget. injection Hget as <-. reflexivity.
Qed.


(** ** Detection *)

Lemma set_col_set_col (n : string) (c1 c2 : column) (df : DataFrame) :
  set_col n c2 (set_col n c1 df) = set_col n c2 df.
Proof.
  induction df as [|[n0 c0] df IH]; simpl.
  - rewrite String.eqb_refl. reflexivity.
  - destruct (String.eqb n0 n) eqn:E; simpl; rewrite E; [reflexivity|].
    f_equal. exact IH.
Qed.

Lemma select_ext (names : list string) (df1 df2 : DataFrame) :
  (forall n, n ∈ names -> get_col n df1 = get_col n df2) ->
  select names df1 = select names df2.
Proof.
  intros Hext. unfold select.
  assert (Hf : filter (fun n => get_col n df1 = None) names
               = filter (fun n => get_col n df2 = None) names).
  { induction names as [|n names IH]; [reflexivity|].
    rewrite !filter_cons. rewrite IH.
    - rewrite (Hext n) by (apply elem_of_cons; auto).
      repeat case_decide; congruence.
    - intros m Hm. apply Hext. apply elem_of_cons. auto. }
  assert (Ho : omap (fun n => pair n <$> get_col n df1) names
               = omap (fun n => pair n <$> get_col n df2) names).
  { apply list_omap_ext. apply Forall2_same_length_lookup_2; [reflexivity|].
    intros i n n' Hn Hn'. rewrite Hn in Hn'. injection Hn' as <-.
    rewrite (Hext n); [reflexivity|]. eapply list_elem_of_lookup_2; eauto. }
  rewrite Hf, Ho. reflexivity.
Qed.

Lemma select_set_col_other (names : list string) (name : string) (c : column)
    (df : DataFrame) :
  name ∉ names -> select names (set_col name c df) = select names df.
Proof.
  intros Hnot. apply select_ext. intros n Hn.
  apply get_col_set_col_ne. intros ->. contradiction.
Qed.

Lemma select_entry (names : list string) (df : DataFrame)
    (sel : list (string * column)) (n : string) (c : column) :
  select names df = Returned sel -> n ∈ names -> get_col n df = Some c ->
  (n, c) ∈ sel.
Proof.
  intros Hsel Hn Hc. apply select_returned in Hsel as [Hnames Hall].
  rewrite <- Hnames in Hn. apply list_elem_of_fmap in Hn as ([n' c'] & -> & Hin).
  rewrite Forall_forall in Hall. pose proof (Hall _ Hin) as Hc'. simpl in Hc', Hc.
  rewrite Hc in Hc'. injection Hc' as ->. exact Hin.
Qed.

Lemma traverse_as_numbers_text (sel : list (string * column)) (n : string)
    (x : option string) (xs : list (option string)) :
  (n, Object (x :: xs)) ∈ sel ->
  exists e, traverse as_numbers sel = Raised e.
Proof.
  induction sel as [|nc sel IH]; intros Hin; [inversion Hin|].
  apply elem_of_cons in Hin as [<-|Hin]; simpl.
  - eauto.
  - destruct (as_numbers nc); [|eauto].
    destruct (IH Hin) as [e ->]. eauto.
Qed.

Lemma check_array_text (allow_nan : bool) (sel : list (string * column))
    (n : string) (x : option string) (xs : list (option string)) :
  (n, Object (x :: xs)) ∈ sel ->
  exists e, check_array allow_nan sel = Raised e.
Proof.
  intros Hin. unfold check_array. destruct sel as [|first rest]; [eauto|].
  destruct (traverse_as_numbers_text _ _ _ _ Hin) as [e ->]. eauto.
Qed.

Lemma rows_of_length (cols : list (list (option Q))) :
  length (rows_of cols) = match cols with [] => 0 | c :: _ => length c end.
Proof.
  unfold rows_of. destruct cols; [reflexivity|].
  rewrite length_map, length_seq. reflexivity.
Qed.

Lemma check_array_has_rows (allow_nan : bool) (sel : list (string * column))
    (cols : list (list (option Q))) :
  check_array allow_nan sel = Returned cols -> rows_of cols <> [].
Proof.
  unfold check_array. destruct sel as [|[n c] rest]; [discriminate|].
  simpl traverse. destruct (as_numbers (n, c)) as [xs|] eqn:En; [|discriminate].
  destruct (traverse as_numbers rest) as [cs|]; [|discriminate].
  destruct (negb allow_nan && existsb has_nan (xs :: cs)); [discriminate|].
  simpl snd. destruct (Nat.eqb (col_length c) 0) eqn:El; [discriminate|].
  intros [= <-]. apply Nat.eqb_neq in El.
  intros Hnil. apply (f_equal length) in Hnil. rewrite rows_of_length in Hnil.
  simpl in Hnil. unfold as_numbers in En. simpl in En.
  destruct c as [ys|[|y ys]|[|y ys]]; simplify_eq; simpl in *; lia.
Qed.

Lemma fit_returned (cfg : Config) (sel : list (string * column)) (m : Model)
    (s s' : State) :
  fit cfg sel s = (Returned m, s') ->
  validate_params cfg = Returned tt /\
  exists cols,
    check_array false sel = Returned cols /\
    offset_ m = percentile (map (raw_score (trees m)) (rows_of cols))
                  (100 * contamination cfg).
Proof.
  intros Hrun. unfold fit in Hrun.
  bind_inv Hrun. apply lift_returned in Hstep as [Hval _]. destruct a.
  bind_inv Hrun. apply lift_returned in Hstep as [Hcols _].
  bind_inv Hrun. bind_inv Hrun.
  unfold mret, Py_ret in Hrun. injection Hrun as <- <-.
  split; [exact Hval|]. exists a. split; [exact Hcols|]. reflexivity.
Qed.

(** The labels that [detect_anomalies] writes for the rows [X]. *)
Lemma detect_anomalies_returned (cfg : Config) (df df' : DataFrame) (s s' : State) :
  detect_anomalies cfg df s = (Returned df', s') ->
  exists sel cols m,
    select (features cfg) df = Returned sel /\
    validate_params cfg = Returned tt /\
    check_array false sel = Returned cols /\
    offset_ m = percentile (map (raw_score (trees m)) (rows_of cols))
                  (100 * contamination cfg) /\
    ("anomaly" ∉ features cfg) /\
    df' = set_col "anomaly_score"
            (Float (map Some (map (raw_score (trees m)) (rows_of cols))))
            (set_col "anomaly"
               (Object (map label_of
                          (map (fun p => Some (inject_Z p))
                             (map (predict_row m) (rows_of cols)))))
               df).
Proof.
  intros Hrun. unfold detect_anomalies in Hrun.
  apply try_except_reraise in Hrun.
  bind_inv Hrun. bind_inv Hrun. apply lift_returned in Hstep0 as [Hsel _].
  bind_inv Hrun. destruct a1 as [m predictions].
  unfold fit_predict in Hstep0.
  bind_inv Hstep0. apply fit_returned in Hstep1 as (Hval & cols & Hcols & Hoff).
  bind_inv Hstep0. unfold predict in Hstep1.
  bind_inv Hstep1. apply lift_returned in Hstep2 as [Hcols' _].
  rewrite Hcols in Hcols'. injection Hcols' as <-.
  unfold mret, Py_ret in Hstep1. injection Hstep1 as <- <-.
  unfold mret, Py_ret in Hstep0. injection Hstep0 as <- <- <-.
  bind_inv Hrun. apply lift_returned in Hstep0 as [Hget _].
  unfold getitem in Hget. rewrite get_col_set_col_eq in Hget.
  injection Hget as <-. simpl series_map in Hrun.
  rewrite set_col_set_col in Hrun.
  bind_inv Hrun. apply lift_returned in Hstep0 as [Hsel2 _].
  bind_inv Hrun. unfold score_samples in Hstep0.
  bind_inv Hstep0. apply lift_returned in Hstep1 as [Hcols2 _].
  unfold mret, Py_ret in Hstep0. injection Hstep0 as <- <-.
  bind_inv Hrun. unfold mret, Py_ret in Hrun. injection Hrun as <- <-.
  assert (Hnot : "anomaly" ∉ features cfg).
  { intros Hin.
    pose proof (check_array_has_rows _ _ _ Hcols) as Hrows.
    destruct (rows_of cols) as [|r rs] eqn:Er; [contradiction|].
    eapply select_entry in Hin; [|exact Hsel2|apply get_col_set_col_eq].
    simpl in Hin.
    destruct (check_array_text false _ _ _ _ Hin) as [e He]. congruence. }
  rewrite select_set_col_other in Hsel2 by exact Hnot.
  rewrite Hsel in Hsel2. injection Hsel2 as <-.
  rewrite Hcols in Hcols2. injection Hcols2 as <-.
  exists a0, cols, a1. auto 10.
Qed.

Lemma label_of_prediction (m : Model) (row : list Q) :
  label_of (Some (inject_Z (predict_row m row)))
  = Some (if decide (raw_score (trees m) row - offset_ m < 0)%Q
          then "Anomaly" else "Normal").
Proof. unfold predict_row. case_decide; reflexivity. Qed.

Lemma labels_are_normal_or_anomaly (m : Model) (X : list (list Q)) :
  Forall (fun l => l = Some "Normal" \/ l = Some "Anomaly")
    (map label_of (map (fun p => Some (inject_Z p)) (map (predict_row m) X))).
Proof.
  rewrite !Forall_fmap. apply Forall_forall. intros row _.
  unfold compose. rewrite label_of_prediction. case_decide; auto.
Qed.

Lemma get_col_None_columns (n : string) (df : DataFrame) :
  get_col n df = None <-> n ∉ columns df.
Proof.
  rewrite <- get_col_Some_columns. destruct (get_col n df); split.
  - discriminate.
  - intros Hn. exfalso. apply Hn. eauto.
  - intros _ [c Hc]. discriminate.
  - reflexivity.
Qed.

Lemma columns_after_two_assignments (c1 c2 : column) (df : DataFrame) :
  columns (set_col "anomaly_score" c2 (set_col "anomaly" c1 df))
  = (columns df
     ++ filter (fun n => n ∉ columns df) ["anomaly"; "anomaly_score"])%list.
Proof.
  rewrite columns_set_col, get_col_set_col_ne by discriminate.
  rewrite columns_set_col.
  rewrite !filter_cons, filter_nil.
  destruct (get_col "anomaly" df) as [ca|] eqn:Ea;
    destruct (get_col "anomaly_score" df) as [cs|] eqn:Es.
  - rewrite decide_False, decide_False, app_nil_r; [reflexivity| |].
    + rewrite <- get_col_None_columns. congruence.
    + rewrite <- get_col_None_columns. congruence.
  - rewrite decide_False, decide_True; [reflexivity| |].
    + apply get_col_None_columns. exact Es.
    + rewrite <- get_col_None_columns. congruence.
  - rewrite decide_True, decide_False; [reflexivity| |].
    + rewrite <- get_col_None_columns. congruence.
    + apply get_col_None_columns. exact Ea.
  - rewrite decide_True, decide_True, <- app_assoc; [reflexivity| |].
    + apply get_col_None_columns. exact Es.
    + apply get_col_None_columns. exact Ea.
Qed.

(** C10 (amended). When anomaly detection succeeds, the table has the
    columns it had, in their order, followed by those of ['anomaly'] and
    ['anomaly_score'] that it did not have yet: two columns are appended to
    a table that had neither, and a column that already bore one of the two
    names is overwritten where it stands.  No column is removed, and every
    value of ['anomaly'] is ['Normal'] or ['Anomaly']. *)
Theorem detection_adds_label_and_score (cfg : Config) (df df' : DataFrame)
    (s s' : State) :
  detect_anomalies cfg df s = (Returned df', s') ->
  columns df'
  = (columns df
     ++ filter (fun n => n ∉ columns df) ["anomaly"; "anomaly_score"])%list /\
  ("anomaly" ∉ columns df -> "anomaly_score" ∉ columns df ->
   columns df' = (columns df ++ ["anomaly"; "anomaly_score"])%list) /\
  (forall n, n ∈ columns df -> n ∈ columns df') /\
  (exists labels scores,
     get_col "anomaly" df' = Some (Object labels) /\
     get_col "anomaly_score" df' = Some (Float scores) /\
     length labels = length scores /\
     Forall (fun l => l = Some "Normal" \/ l = Some "Anomaly") labels).
Proof.
  intros Hrun.
  apply detect_anomalies_returned in Hrun
    as (sel & cols & m & _ & _ & _ & _ & _ & ->).
  pose proof (columns_after_two_assignments
    (Object (map label_of (map (fun p => Some (inject_Z p))
                             (map (predict_row m) (rows_of cols)))))
    (Float (map Some (map (raw_score (trees m)) (rows_of cols)))) df) as Hcols.
  split; [exact Hcols|]. split; [|split].
  - intros Ha Hs. rewrite Hcols, !filter_cons, filter_nil.
    repeat case_decide; try contradiction. reflexivity.
  - intros n Hn. rewrite Hcols. apply elem_of_app. auto.
  - eexists _, _. split; [|split; [|split]].
    + rewrite get_col_set_col_ne by discriminate. apply get_col_set_col_eq.
    + apply get_col_set_col_eq.
    + rewrite !length_map. reflexivity.
    + apply labels_are_normal_or_anomaly.
Qed.

(** ** Order statistics *)

Lemma sorted_lookup_le (l : list Q) (i j : nat) (x y : Q) :
  StronglySorted Qle l -> i <= j -> l !! i = Some x -> l !! j = Some y ->
  (x <= y)%Q.
Proof.
  intros Hs. revert i j. induction Hs as [|z l Hs IH Hall]; intros i j Hij Hi Hj.
  - rewrite lookup_nil in Hi. discriminate.
  - destruct i as [|i]; destruct j as [|j]; simpl in *.
    + simplify_eq. apply Qle_refl.
    + simplify_eq. rewrite Forall_forall in Hall. apply Hall.
      eapply list_elem_of_lookup_2; eauto.
    + lia.
    + eapply IH; [|eassumption..]. lia.
Qed.

Lemma distinct_lookup_neq (l : list Q) (i j : nat) (x y : Q) :
  NoDup (map Qred l) -> i <> j -> l !! i = Some x -> l !! j = Some y ->
  ~ (x == y)%Q.
Proof.
  intros Hnd Hij Hi Hj Heq. apply Hij.
  eapply (NoDup_lookup _ i j (Qred x) Hnd).
  - rewrite list_lookup_fmap, Hi. reflexivity.
  - rewrite list_lookup_fmap, Hj. simpl. f_equal. symmetry.
    apply Qred_complete. exact Heq.
Qed.

Lemma sorted_lookup_lt (l : list Q) (i j : nat) (x y : Q) :
  StronglySorted Qle l -> NoDup (map Qred l) ->
  i < j -> l !! i = Some x -> l !! j = Some y -> (x < y)%Q.
Proof.
  intros Hs Hnd Hij Hi Hj.
  assert (Hle : (x <= y)%Q) by (eapply (sorted_lookup_le l i j); eauto; lia).
  apply Qle_lteq in Hle as [Hlt|Heq]; [exact Hlt|].
  exfalso. eapply (distinct_lookup_neq l i j); eauto. lia.
Qed.

Lemma filter_none (P : Q -> Prop) `{!forall x, Decision (P x)} (l : list Q) :
  Forall (fun x => ~ P x) l -> filter P l = [].
Proof.
  induction 1 as [|x l Hx Hall IH]; [reflexivity|].
  rewrite filter_cons_False by exact Hx. exact IH.
Qed.

Lemma filter_all (P : Q -> Prop) `{!forall x, Decision (P x)} (l : list Q) :
  Forall P l -> filter P l = l.
Proof.
  induction 1 as [|x l Hx Hall IH]; [reflexivity|].
  rewrite filter_cons_True by exact Hx. f_equal. exact IH.
Qed.

(** In a list where nothing from position [k] on satisfies [P], at most
    [k] elements do; exactly [k] when all the earlier ones do. *)
Lemma count_prefix_le (P : Q -> Prop) `{!forall x, Decision (P x)}
    (l : list Q) (k : nat) :
  (forall i x, k <= i -> l !! i = Some x -> ~ P x) ->
  length (filter P l) <= k.
Proof.
  intros Hrest. rewrite <- (take_drop k l), filter_app, length_app.
  rewrite (filter_none P (drop k l)).
  - simpl. pose proof (length_filter P (take k l)) as Hf.
    rewrite length_take in Hf. lia.
  - apply Forall_forall. intros x Hx. apply list_elem_of_lookup in Hx as [i Hi].
    rewrite lookup_drop in Hi. eapply Hrest; [|exact Hi]. lia.
Qed.

Lemma count_prefix_eq (P : Q -> Prop) `{!forall x, Decision (P x)}
    (l : list Q) (k : nat) :
  k <= length l ->
  (forall i x, i < k -> l !! i = Some x -> P x) ->
  (forall i x, k <= i -> l !! i = Some x -> ~ P x) ->
  length (filter P l) = k.
Proof.
  intros Hk Hfirst Hrest. rewrite <- (take_drop k l), filter_app, length_app.
  rewrite (filter_none P (drop k l)), (filter_all P (take k l)).
  - simpl. rewrite length_take. lia.
  - apply Forall_forall. intros x Hx. apply list_elem_of_lookup in Hx as [i Hi].
    apply lookup_take_Some in Hi as [Hi Hlt]. eapply Hfirst; eauto.
  - apply Forall_forall. intros x Hx. apply list_elem_of_lookup in Hx as [i Hi].
    rewrite lookup_drop in Hi. eapply Hrest; [|exact Hi]. lia.
Qed.

(** *** Floor and ceiling *)

Lemma Qceiling_of_whole (x : Q) :
  (x == inject_Z (Qfloor x))%Q -> Qceiling x = Qfloor x.
Proof. intros Hx. rewrite Hx at 1. apply Qceiling_Z. Qed.

Lemma Qceiling_of_fraction (x : Q) :
  ~ (x == inject_Z (Qfloor x))%Q -> Qceiling x = (Qfloor x + 1)%Z.
Proof.
  intros Hx.
  pose proof (Qfloor_le x) as Hf. pose proof (Qlt_floor x) as Hf'.
  pose proof (Qle_ceiling x) as Hc. pose proof (Qceiling_lt x) as Hc'.
  assert (Hlt : (inject_Z (Qfloor x) < x)%Q).
  { apply Qle_lteq in Hf as [Hf|Hf]; [exact Hf|]. exfalso. apply Hx.
    symmetry. exact Hf. }
  assert (H1 : (Qfloor x < Qceiling x)%Z).
  { rewrite Zlt_Qlt. eapply Qlt_le_trans; eauto. }
  assert (H2 : (Qceiling x - 1 < Qfloor x + 1)%Z).
  { rewrite Zlt_Qlt. eapply Qlt_trans; eauto. }
  lia.
Qed.

(** *** The threshold of [fit] *)

Lemma lerp_between (a b f : Q) :
  (a <= b)%Q -> (0 <= f)%Q -> (f <= 1)%Q ->
  (a <= a + f * (b - a))%Q /\ (a + f * (b - a) <= b)%Q.
Proof. intros Hab Hf0 Hf1. split; nra. Qed.

Lemma lerp_above (a b f : Q) :
  (a < b)%Q -> (0 < f)%Q -> (a < a + f * (b - a))%Q.
Proof. intros Hab Hf. nra. Qed.

Lemma below_Permutation (t : Q) (l1 l2 : list Q) :
  l1 ≡ₚ l2 -> below t l1 = below t l2.
Proof. intros Hp. unfold below. rewrite Hp. reflexivity. Qed.

Lemma below_percentile (xs : list Q) (c : Q) :
  xs <> [] -> (0 < c)%Q -> (c <= 1 # 2)%Q ->
  below (percentile xs (100 * c)) xs <= expected_anomalies c (length xs) /\
  (NoDup (map Qred xs) ->
   below (percentile xs (100 * c)) xs = expected_anomalies c (length xs)).
Proof.
  intros Hne Hc0 Hc1.
  pose proof (merge_sort_Permutation Qle xs) as Hperm.
  pose proof (StronglySorted_merge_sort Qle xs) as Hsorted.
  rewrite <- !(below_Permutation _ _ _ Hperm).
  assert (Hlen : length (merge_sort Qle xs) = length xs)
    by (apply Permutation_length; exact Hperm).
  assert (Hdistinct : NoDup (map Qred xs) -> NoDup (map Qred (merge_sort Qle xs))).
  { intros Hnd. eapply NoDup_Permutation_proper; [|exact Hnd].
    apply fmap_Permutation. exact Hperm. }
  unfold percentile, expected_anomalies.
  set (l := merge_sort Qle xs) in *.
  set (n := length xs) in *.
  assert (Hn : 1 <= n) by (unfold n; destruct xs; [contradiction|simpl; lia]).
  set (m := inject_Z (Z.of_nat (n - 1))).
  assert (Hm0 : (0 <= m)%Q).
  { unfold m. change 0%Q with (inject_Z 0). rewrite <- Zle_Qle. lia. }
  set (pos := (100 * c / 100 * m)%Q).
  assert (Hpos : (pos == c * m)%Q) by (unfold pos; field).
  rewrite <- (Qceiling_comp _ _ Hpos).
  pose proof (Qfloor_le pos) as Hfl. pose proof (Qlt_floor pos) as Hfl'.
  set (f := Qfloor pos) in *.
  assert (Hpos0 : (0 <= pos)%Q) by (rewrite Hpos; nra).
  assert (Hposm : (pos <= m)%Q) by (rewrite Hpos; nra).
  assert (Hf0 : (0 <= f)%Z).
  { unfold f. change 0%Z with (Qfloor (inject_Z 0)).
    apply Qfloor_resp_le. exact Hpos0. }
  assert (Hfm : (f <= Z.of_nat (n - 1))%Z).
  { rewrite Zle_Qle. eapply Qle_trans; [exact Hfl|exact Hposm]. }
  set (lo := Z.to_nat f).
  assert (Hlo : lo <= n - 1) by (unfold lo; lia).
  destruct (lookup_lt_is_Some_2 l lo) as [la Hla]; [lia|].
  rewrite (nth_lookup l lo), Hla. simpl default.
  set (frac := (pos - inject_Z f)%Q).
  rewrite inject_Z_plus in Hfl'. change (inject_Z 1) with 1%Q in Hfl'.
  assert (Hfrac0 : (0 <= frac)%Q) by (unfold frac; lra).
  assert (Hfrac1 : (frac < 1)%Q) by (unfold frac; lra).
  destruct (decide (frac == 0)%Q) as [Hz|Hnz].
  - (* the position is a whole number *)
    assert (Hceil : Qceiling pos = f).
    { apply Qceiling_of_whole. fold f. unfold frac in Hz. lra. }
    rewrite Hceil. fold lo.
    set (t := (la + frac * (_ - la))%Q).
    assert (Ht : (t == la)%Q) by (unfold t; rewrite Hz; ring).
    split.
    + apply count_prefix_le. intros i x Hi Hx.
      pose proof (sorted_lookup_le l lo i la x Hsorted Hi Hla Hx). lra.
    + intros Hnd. apply count_prefix_eq; [lia| |].
      * intros i x Hi Hx.
        pose proof (sorted_lookup_lt l i lo x la Hsorted (Hdistinct Hnd) Hi Hx Hla).
        lra.
      * intros i x Hi Hx.
        pose proof (sorted_lookup_le l lo i la x Hsorted Hi Hla Hx). lra.
  - (* the position falls between two ranks *)
    assert (Hceil : Qceiling pos = (f + 1)%Z).
    { apply Qceiling_of_fraction. fold f. unfold frac in Hnz. lra. }
    rewrite Hceil.
    assert (Hfpos : (0 < frac)%Q).
    { apply Qle_lteq in Hfrac0 as [Hlt|Heq]; [exact Hlt|].
      exfalso. apply Hnz. symmetry. exact Heq. }
    assert (Hm1 : (1 <= m)%Q).
    { destruct (decide (n - 1 = 0)) as [Hn0|Hn0].
      - exfalso. apply Hnz. unfold frac.
        assert (Hmz : (m == 0)%Q) by (unfold m; rewrite Hn0; reflexivity).
        assert (Hpz : (pos == 0)%Q) by (rewrite Hpos, Hmz; ring).
        unfold f. rewrite (Qfloor_comp _ _ Hpz). rewrite Hpz. reflexivity.
      - unfold m. change 1%Q with (inject_Z 1). rewrite <- Zle_Qle. lia. }
    assert (Hlo1 : lo + 1 <= n - 1).
    { assert (Hlt : (f < Z.of_nat (n - 1))%Z).
      { rewrite Zlt_Qlt. fold m. unfold frac in Hfpos.
        assert (Hpm : (pos < m)%Q) by (rewrite Hpos; nra). lra. }
      unfold lo. lia. }
    replace (Z.to_nat (f + 1)) with (lo + 1) by (unfold lo; lia).
    rewrite Nat.min_l by exact Hlo1.
    destruct (lookup_lt_is_Some_2 l (lo + 1)) as [lb Hlb]; [lia|].
    rewrite (nth_lookup l (lo + 1)), Hlb. simpl default.
    assert (Hab : (la <= lb)%Q)
      by (eapply (sorted_lookup_le l lo (lo + 1)); eauto; lia).
    destruct (lerp_between la lb frac Hab Hfrac0 (Qlt_le_weak _ _ Hfrac1))
      as [Hta Htb].
    set (t := (la + frac * (lb - la))%Q) in *.
    split.
    + apply count_prefix_le. intros i x Hi Hx.
      pose proof (sorted_lookup_le l (lo + 1) i lb x Hsorted Hi Hlb Hx). lra.
    + intros Hnd. apply count_prefix_eq; [lia| |].
      * intros i x Hi Hx.
        assert (Hxa : (x <= la)%Q)
          by (eapply (sorted_lookup_le l i lo); eauto; lia).
        assert (Hlt : (la < lb)%Q).
        { eapply (sorted_lookup_lt l lo (lo + 1)); eauto. lia. }
        pose proof (lerp_above la lb frac Hlt Hfpos) as Habove.
        fold t in Habove. lra.
      * intros i x Hi Hx.
        pose proof (sorted_lookup_le l (lo + 1) i lb x Hsorted Hi Hlb Hx). lra.
Qed.

Lemma expected_anomalies_within_rounding (c : Q) (n : nat) :
  1 <= n -> (0 < c)%Q -> (c <= 1 # 2)%Q ->
  (Qfloor (c * inject_Z (Z.of_nat n)) <= Z.of_nat (expected_anomalies c n))%Z /\
  (Z.of_nat (expected_anomalies c n) <= Qceiling (c * inject_Z (Z.of_nat n)))%Z.
Proof.
  intros Hn Hc0 Hc1. unfold expected_anomalies.
  set (m := inject_Z (Z.of_nat (n - 1))).
  assert (Hm0 : (0 <= m)%Q).
  { unfold m. change 0%Q with (inject_Z 0). rewrite <- Zle_Qle. lia. }
  assert (Hnm : (inject_Z (Z.of_nat n) == m + 1)%Q).
  { unfold m. change 1%Q with (inject_Z 1). rewrite <- inject_Z_plus.
    apply inject_Z_injective. lia. }
  assert (Hc : (0 <= Qceiling (c * m))%Z).
  { change 0%Z with (Qceiling (inject_Z 0)). apply Qceiling_resp_le.
    change (inject_Z 0) with 0%Q. nra. }
  rewrite Z2Nat.id by exact Hc.
  rewrite (Qfloor_comp _ (c * m + c)), (Qceiling_comp (c * inject_Z (Z.of_nat n)) (c * m + c))
    by (rewrite Hnm; ring).
  split.
  - pose proof (Qfloor_le (c * m + c)) as H1.
    pose proof (Qle_ceiling (c * m)) as H2.
    assert (Hlt : (Qfloor (c * m + c) < Qceiling (c * m) + 1)%Z).
    { rewrite Zlt_Qlt, inject_Z_plus. change (inject_Z 1) with 1%Q. lra. }
    lia.
  - apply Qceiling_resp_le. lra.
Qed.

Lemma validate_params_returned (cfg : Config) :
  validate_params cfg = Returned tt ->
  (1 <= n_estimators cfg)%Z /\
  (0 < contamination cfg)%Q /\ (contamination cfg <= 1 # 2)%Q.
Proof.
  unfold validate_params. case_decide as Hn; [discriminate|].
  destruct (bool_decide (0 < contamination cfg)%Q) eqn:E0; [|discriminate].
  destruct (bool_decide (contamination cfg <= 0.5)%Q) eqn:E1; [|discriminate].
  intros _. apply bool_decide_eq_true in E0, E1.
  split; [lia|]. split; [exact E0|]. lra.
Qed.

Lemma count_anomaly_labels (m : Model) (X : list (list Q)) :
  count_label "Anomaly"
    (Object (map label_of
               (map (fun p => Some (inject_Z p)) (map (predict_row m) X))))
  = below (offset_ m) (map (raw_score (trees m)) X).
Proof.
  unfold count_label, below. induction X as [|row X IH]; [reflexivity|].
  cbn [map]. rewrite label_of_prediction, !filter_cons.
  destruct (decide (raw_score (trees m) row - offset_ m < 0)%Q) as [Hlt|Hge].
  - rewrite decide_True by reflexivity. simpl. f_equal. exact IH.
  - rewrite decide_False by discriminate. exact IH.
Qed.

(** C1 (amended). When detection succeeds on [N] records, at most
    [ceil (contamination * (N - 1))] of them are labelled ['Anomaly'], and
    exactly that many when no two records have the same score.  That number
    is the fraction [contamination] of [N] within rounding: it lies between
    the floor and the ceiling of [contamination * N]; for 1000 records and
    a contamination of 0.05 it is 50. *)
Theorem anomaly_count_follows_contamination (cfg : Config) (df df' : DataFrame)
    (s s' : State) :
  detect_anomalies cfg df s = (Returned df', s') ->
  exists labels scores,
    get_col "anomaly" df' = Some (Object labels) /\
    get_col "anomaly_score" df' = Some (Float (map Some scores)) /\
    length labels = length scores /\
    count_label "Anomaly" (Object labels)
      <= expected_anomalies (contamination cfg) (length scores) /\
    (NoDup (map Qred scores) ->
     count_label "Anomaly" (Object labels)
       = expected_anomalies (contamination cfg) (length scores)) /\
    (Qfloor (contamination cfg * inject_Z (Z.of_nat (length scores)))
       <= Z.of_nat (expected_anomalies (contamination cfg) (length scores)))%Z /\
    (Z.of_nat (expected_anomalies (contamination cfg) (length scores))
       <= Qceiling (contamination cfg * inject_Z (Z.of_nat (length scores))))%Z /\
    (length scores = 1000 -> (contamination cfg == 0.05)%Q ->
     expected_anomalies (contamination cfg) (length scores) = 50).
Proof.
  intros Hrun.
  apply detect_anomalies_returned in Hrun
    as (sel & cols & m & _ & Hval & Hcols & Hoff & _ & ->).
  apply validate_params_returned in Hval as (_ & Hc0 & Hc1).
  pose proof (check_array_has_rows _ _ _ Hcols) as Hrows.
  set (X := rows_of cols) in *.
  set (scores := map (raw_score (trees m)) X) in *.
  assert (Hsne : scores <> []).
  { unfold scores. destruct X; [contradiction|discriminate]. }
  exists (map label_of (map (fun p => Some (inject_Z p)) (map (predict_row m) X))),
    scores.
  destruct (below_percentile scores (contamination cfg) Hsne Hc0 Hc1)
    as [Hle Heq].
  rewrite <- Hoff in Hle, Heq.
  assert (Hn : 1 <= length scores) by (destruct scores; [contradiction|simpl; lia]).
  destruct (expected_anomalies_within_rounding (contamination cfg)
              (length scores) Hn Hc0 Hc1) as [Hlow Hhigh].
  split; [|split; [|split; [|split; [|split; [|split; [|split]]]]]].
  - rewrite get_col_set_col_ne by discriminate. apply get_col_set_col_eq.
  - apply get_col_set_col_eq.
  - unfold scores. rewrite !length_map. reflexivity.
  - rewrite count_anomaly_labels. exact Hle.
  - rewrite count_anomaly_labels. exact Heq.
  - exact Hlow.
  - exact Hhigh.
  - intros Hlen Hc. rewrite Hlen. unfold expected_anomalies.
    rewrite (Qceiling_comp _ (0.05 * inject_Z (Z.of_nat (1000 - 1)))).
    + reflexivity.
    + rewrite Hc. reflexivity.
Qed.

(** *** Scores that are all equal *)

Lemma percentile_of_equal_scores (xs : list Q) (x c : Q) :
  xs <> [] -> Forall (fun y => y == x)%Q xs ->
  (0 < c)%Q -> (c <= 1 # 2)%Q ->
  (percentile xs (100 * c) == x)%Q.
Proof.
  intros Hne Hall Hc0 Hc1.
  pose proof (merge_sort_Permutation Qle xs) as Hperm.
  assert (Hall' : Forall (fun y => y == x)%Q (merge_sort Qle xs)).
  { rewrite Forall_forall in *. intros y Hy. apply Hall. rewrite <- Hperm.
    exact Hy. }
  assert (Hlen : length (merge_sort Qle xs) = length xs)
    by (apply Permutation_length; exact Hperm).
  unfold percentile.
  set (l := merge_sort Qle xs) in *. set (n := length xs) in *.
  assert (Hn : 1 <= n) by (unfold n; destruct xs; [contradiction|simpl; lia]).
  set (m := inject_Z (Z.of_nat (n - 1))).
  assert (Hm0 : (0 <= m)%Q).
  { unfold m. change 0%Q with (inject_Z 0). rewrite <- Zle_Qle. lia. }
  set (pos := (100 * c / 100 * m)%Q).
  assert (Hpos : (pos == c * m)%Q) by (unfold pos; field).
  pose proof (Qfloor_le pos) as Hfl.
  set (f := Qfloor pos) in *.
  assert (Hf0 : (0 <= f)%Z).
  { unfold f. change 0%Z with (Qfloor (inject_Z 0)).
    apply Qfloor_resp_le. change (inject_Z 0) with 0%Q. rewrite Hpos. nra. }
  assert (Hfm : (f <= Z.of_nat (n - 1))%Z).
  { rewrite Zle_Qle. eapply Qle_trans; [exact Hfl|]. fold m. rewrite Hpos. nra. }
  assert (Hnth : forall i, i < n -> (nth i l 0 == x)%Q).
  { intros i Hi. destruct (lookup_lt_is_Some_2 l i) as [y Hy]; [lia|].
    rewrite (nth_lookup l i), Hy. simpl. rewrite Forall_forall in Hall'.
    apply Hall'. eapply list_elem_of_lookup_2. exact Hy. }
  rewrite !Hnth by lia. ring.
Qed.

Lemma below_own_value (xs : list Q) (x t : Q) :
  Forall (fun y => y == x)%Q xs -> (t == x)%Q -> below t xs = 0.
Proof.
  intros Hall Ht. unfold below. rewrite filter_none; [reflexivity|].
  eapply Forall_impl; [exact Hall|]. intros y Hy. simpl in *. lra.
Qed.

(** Records whose scores are all equal are all labelled ['Normal'],
    whatever the contamination asked for. *)
Lemma equal_scores_flag_nothing (cfg : Config) (df df' : DataFrame)
    (s s' : State) (labels : list (option string)) (scores : list Q) (x : Q) :
  detect_anomalies cfg df s = (Returned df', s') ->
  get_col "anomaly" df' = Some (Object labels) ->
  get_col "anomaly_score" df' = Some (Float (map Some scores)) ->
  Forall (fun y => y == x)%Q scores ->
  count_label "Anomaly" (Object labels) = 0.
Proof.
  intros Hrun Hlabels Hscores Hall.
  apply detect_anomalies_returned in Hrun
    as (sel & cols & m & _ & Hval & Hcols & Hoff & _ & ->).
  apply validate_params_returned in Hval as (_ & Hc0 & Hc1).
  rewrite get_col_set_col_ne, get_col_set_col_eq in Hlabels by discriminate.
  rewrite get_col_set_col_eq in Hscores.
  injection Hlabels as <-. injection Hscores as Hscores.
  apply (inj (fmap Some)) in Hscores. subst scores.
  rewrite count_anomaly_labels.
  apply (below_own_value _ x); [exact Hall|].
  rewrite Hoff. apply percentile_of_equal_scores; try assumption.
  pose proof (check_array_has_rows _ _ _ Hcols) as Hrows.
  destruct (rows_of cols); [contradiction|discriminate].
Qed.

(** *** Running detection forwards *)

Lemma fit_run (cfg : Config) (sel : list (string * column))
    (cols : list (list (option Q))) (s : State) :
  validate_params cfg = Returned tt ->
  check_array false sel = Returned cols ->
  exists m s',
    fit cfg sel s = (Returned m, s') /\
    offset_ m = percentile (map (raw_score (trees m)) (rows_of cols))
                  (100 * contamination cfg).
Proof.
  intros Hval Hcols. unfold fit, mbind, Py_bind, lift. rewrite Hval, Hcols.
  unfold with_generator. destruct (random_state cfg) as [seed|].
  - unfold mret, Py_ret, set_model. eexists _, _. split; reflexivity.
  - unfold draw. destruct (grow (n_estimators cfg) (rows_of cols) (np_random s))
      as [forest r].
    unfold mret, Py_ret, set_model. eexists _, _. split; reflexivity.
Qed.

Lemma fit_raises (cfg : Config) (sel : list (string * column)) (e : exn)
    (s : State) :
  validate_params cfg = Returned tt ->
  check_array false sel = Raised e ->
  fit cfg sel s = (Raised e, s).
Proof.
  intros Hval Hcols. unfold fit, mbind, Py_bind, lift. rewrite Hval, Hcols.
  reflexivity.
Qed.

Lemma detect_anomalies_run (cfg : Config) (df : DataFrame)
    (sel : list (string * column)) (cols : list (list (option Q))) (s : State) :
  select (features cfg) df = Returned sel ->
  validate_params cfg = Returned tt ->
  check_array false sel = Returned cols ->
  "anomaly" ∉ features cfg ->
  exists m s',
    offset_ m = percentile (map (raw_score (trees m)) (rows_of cols))
                  (100 * contamination cfg) /\
    detect_anomalies cfg df s
    = (Returned
         (set_col "anomaly_score"
            (Float (map Some (map (raw_score (trees m)) (rows_of cols))))
            (set_col "anomaly"
               (Object (map label_of
                          (map (fun p => Some (inject_Z p))
                             (map (predict_row m) (rows_of cols)))))
               df)),
       s').
Proof.
  intros Hsel Hval Hcols Hnot.
  destruct (fit_run cfg sel cols
              {| clock := clock s; np_random := np_random s; log := log s;
                 scaler := scaler s; model := None |} Hval Hcols)
    as (m & s1 & Hfit & Hoff).
  exists m. eexists. split; [exact Hoff|].
  unfold detect_anomalies, try_except.
  unfold mbind at 1. unfold Py_bind at 1. unfold unset_model at 1.
  unfold mbind at 1. unfold Py_bind at 1. unfold lift at 1. rewrite Hsel.
  unfold mbind at 1. unfold Py_bind at 1.
  unfold fit_predict at 1. unfold mbind at 1. unfold Py_bind at 1.
  rewrite Hfit.
  unfold mbind at 1. unfold Py_bind at 1.
  unfold predict at 1. unfold mbind at 1. unfold Py_bind at 1.
  unfold lift at 1. rewrite Hcols. unfold mret at 1 2. unfold Py_ret at 1 2.
  unfold mbind at 1. unfold Py_bind at 1. unfold lift at 1.
  unfold getitem at 1. rewrite get_col_set_col_eq.
  simpl series_map. rewrite set_col_set_col.
  unfold mbind at 1. unfold Py_bind at 1. unfold lift at 1.
  rewrite select_set_col_other by exact Hnot. rewrite Hsel.
  unfold mbind at 1. unfold Py_bind at 1.
  unfold score_samples at 1. unfold mbind at 1. unfold Py_bind at 1.
  unfold lift at 1. rewrite Hcols. unfold mret at 1. unfold Py_ret at 1.
  unfold mbind at 1. unfold Py_bind at 1.
  unfold _log_anomaly_stats at 1.
  unfold mbind at 1 2. unfold Py_bind at 1 2. unfold lift at 1 2.
  unfold getitem.
  rewrite get_col_set_col_ne by discriminate. rewrite get_col_set_col_eq.
  rewrite get_col_set_col_eq. unfold logging. reflexivity.
Qed.

Lemma detect_anomalies_refused (cfg : Config) (df : DataFrame)
    (sel : list (string * column)) (e : exn) (s : State) :
  select (features cfg) df = Returned sel ->
  validate_params cfg = Returned tt ->
  check_array false sel = Raised e ->
  exists s',
    detect_anomalies cfg df s = (Raised e, s') /\
    log s' = (log s ++ [(ERROR, ErrorInDetection e)])%list.
Proof.
  intros Hsel Hval Hcols.
  unfold detect_anomalies, try_except.
  unfold mbind at 1. unfold Py_bind at 1. unfold unset_model at 1.
  unfold mbind at 1. unfold Py_bind at 1. unfold lift at 1. rewrite Hsel.
  unfold mbind at 1. unfold Py_bind at 1.
  unfold fit_predict at 1. unfold mbind at 1. unfold Py_bind at 1.
  rewrite (fit_raises cfg sel e _ Hval Hcols).
  eexists. split; reflexivity.
Qed.

Lemma selected_columns_satisfy (P : column -> Prop) (names : list string)
    (df : DataFrame) (sel : list (string * column)) :
  select names df = Returned sel ->
  (forall f c, f ∈ names -> get_col f df = Some c -> P c) ->
  Forall (fun nc => P (snd nc)) sel.
Proof.
  intros Hsel HP. apply select_returned in Hsel as [Hnames Hall]. subst names.
  apply Forall_forall. intros [n c] Hin.
  rewrite Forall_forall in Hall. pose proof (Hall _ Hin) as Hc. simpl in Hc.
  simpl. eapply HP; [|exact Hc].
  apply list_elem_of_fmap. exists (n, c). auto.
Qed.

Lemma check_array_no_rows (sel : list (string * column)) :
  sel <> [] -> Forall (fun nc => snd nc = Float []) sel ->
  check_array false sel = Raised (ValueError NoSamples).
Proof.
  intros Hne Hall. unfold check_array. destruct sel as [|first rest]; [contradiction|].
  rewrite traverse_as_numbers_floats.
  2:{ eapply Forall_impl; [exact Hall|]. intros nc Hnc. exists []. exact Hnc. }
  assert (Hnan : existsb has_nan (map (fun nc => numbers (snd nc)) (first :: rest))
                 = false).
  { clear Hne. induction Hall as [|nc l Hnc Hall IH]; [reflexivity|].
    simpl. rewrite Hnc. simpl. exact IH. }
  rewrite Hnan. inversion Hall as [|? ? Hfirst _]; subst. rewrite Hfirst.
  reflexivity.
Qed.

(** C6 (amended). [detect_anomalies] has no check of its own on the number
    of records and raises no error of insufficient data.  Under a valid
    configuration, a table with exactly one record is scored and its record
    is labelled ['Normal']; a table with no record is refused by the
    estimator, whose [ValueError] is logged and raised again. *)
Theorem small_tables_reach_the_estimator (cfg : Config) (df : DataFrame) (s : State) :
  validate_params cfg = Returned tt ->
  features cfg <> [] ->
  "anomaly" ∉ features cfg ->
  ((forall f, f ∈ features cfg -> exists v, get_col f df = Some (Float [Some v])) ->
   exists df' s' score,
     detect_anomalies cfg df s = (Returned df', s') /\
     get_col "anomaly" df' = Some (Object [Some "Normal"]) /\
     get_col "anomaly_score" df' = Some (Float [Some score])) /\
  ((forall f, f ∈ features cfg -> get_col f df = Some (Float [])) ->
   exists s',
     detect_anomalies cfg df s = (Raised (ValueError NoSamples), s') /\
     log s' = (log s ++ [(ERROR, ErrorInDetection (ValueError NoSamples))])%list).
Proof.
  intros Hval Hne Hnot. split.
  - intros Hone.
    destruct (select_total (features cfg) df) as [sel Hsel].
    { intros n Hn. destruct (Hone n Hn) as [v Hv].
      apply get_col_Some_columns. rewrite Hv. eauto. }
    assert (Hsne : sel <> []).
    { apply select_returned in Hsel as [Hnames _]. intros ->. simpl in Hnames.
      congruence. }
    assert (Hall : Forall (fun nc => exists v, snd nc = Float [Some v]) sel).
    { apply (selected_columns_satisfy
               (fun c => exists v, c = Float [Some v]) _ _ _ Hsel).
      intros f c Hf Hc. destruct (Hone f Hf) as [v Hv]. exists v. congruence. }
    assert (Hcols : check_array false sel
                    = Returned (map (fun nc => numbers (snd nc)) sel)).
    { apply check_array_floats; [exact Hsne| |].
      - eapply Forall_impl; [exact Hall|]. intros nc [v Hv].
        exists [Some v]. split; [exact Hv|discriminate].
      - intros _. clear -Hall. induction Hall as [|nc l [v Hv] Hall IH];
          [reflexivity|]. simpl. rewrite Hv. simpl. exact IH. }
    destruct (detect_anomalies_run cfg df sel _ s Hsel Hval Hcols Hnot)
      as (m & s' & Hoff & Hrun).
    assert (Hrows : exists row,
               rows_of (map (fun nc => numbers (snd nc)) sel) = [row]).
    { destruct sel as [|[n c] rest]; [contradiction|].
      inversion Hall as [|? ? [v Hv] _]; subst. simpl in Hv. subst c.
      eexists. reflexivity. }
    destruct Hrows as [row Hrow]. rewrite Hrow in Hrun, Hoff.
    apply validate_params_returned in Hval as (_ & Hc0 & Hc1).
    assert (Hperc : (offset_ m == raw_score (trees m) row)%Q).
    { rewrite Hoff. apply percentile_of_equal_scores;
        [discriminate| |exact Hc0|exact Hc1].
      constructor; [reflexivity|constructor]. }
    eexists _, s', _. split; [exact Hrun|]. split.
    + rewrite get_col_set_col_ne by discriminate. rewrite get_col_set_col_eq.
      cbn [map]. rewrite label_of_prediction.
      rewrite decide_False by lra. reflexivity.
    + rewrite get_col_set_col_eq. reflexivity.
  - intros Hzero.
    destruct (select_total (features cfg) df) as [sel Hsel].
    { intros n Hn. apply get_col_Some_columns. rewrite (Hzero n Hn). eauto. }
    assert (Hsne : sel <> []).
    { apply select_returned in Hsel as [Hnames _]. intros ->. simpl in Hnames.
      congruence. }
    assert (Hall : Forall (fun nc => snd nc = Float []) sel).
    { apply (selected_columns_satisfy (fun c => c = Float []) _ _ _ Hsel).
      intros f c Hf Hc. rewrite (Hzero f Hf) in Hc. congruence. }
    apply (detect_anomalies_refused cfg df sel _ s Hsel Hval).
    apply check_array_no_rows; assumption.
Qed.

(** ** Reproducibility *)

Lemma state_independent_ret {A : Type} (a : A) : state_independent (mret a).
Proof. intros s1 s2. reflexivity. Qed.

Lemma state_independent_raise {A : Type} (e : exn) :
  state_independent (raise (A := A) e).
Proof. intros s1 s2. reflexivity. Qed.

Lemma state_independent_lift {A : Type} (o : outcome A) :
  state_independent (lift o).
Proof. intros s1 s2. reflexivity. Qed.

Lemma state_independent_logging (lvl : level) (msg : message) :
  state_independent (logging lvl msg).
Proof. intros s1 s2. reflexivity. Qed.

Lemma state_independent_bind {A B : Type} (m : Py A) (k : A -> Py B) :
  state_independent m -> (forall a, state_independent (k a)) ->
  state_independent (m ≫= k).
Proof.
  intros Hm Hk s1 s2. unfold mbind, Py_bind.
  specialize (Hm s1 s2).
  destruct (m s1) as [[a1|e1] t1]; destruct (m s2) as [[a2|e2] t2];
    simpl in Hm; try discriminate.
  - injection Hm as <-. apply Hk.
  - injection Hm as <-. reflexivity.
Qed.

Lemma state_independent_try_except {A : Type} (body : Py A) (handler : exn -> Py A) :
  state_independent body -> (forall e, state_independent (handler e)) ->
  state_independent (try_except body handler).
Proof.
  intros Hb Hh s1 s2. unfold try_except.
  specialize (Hb s1 s2).
  destruct (body s1) as [[a1|e1] t1]; destruct (body s2) as [[a2|e2] t2];
    simpl in Hb; try discriminate.
  - exact Hb.
  - injection Hb as <-. apply Hh.
Qed.

Lemma state_independent_with_seed {A : Type} (seed : Z)
    (d : RandomState -> A * RandomState) :
  state_independent (with_generator (Some seed) d).
Proof. intros s1 s2. reflexivity. Qed.

Ltac independent :=
  repeat first
    [ apply state_independent_ret
    | apply state_independent_raise
    | apply state_independent_lift
    | apply state_independent_logging
    | apply state_independent_with_seed
    | apply state_independent_try_except; [|intros ?]
    | apply state_independent_bind; [|intros ?]
    | match goal with
      | |- state_independent (if ?b then _ else _) => destruct b
      | |- state_independent (let '(_, _) := ?p in _) => destruct p
      | |- state_independent (set_scaler _) => intros ? ?; reflexivity
      | |- state_independent (set_model _) => intros ? ?; reflexivity
      | |- state_independent unset_model => intros ? ?; reflexivity
      end ].

Lemma handle_missing_values_independent (cfg : Config) (df : DataFrame) :
  state_independent (_handle_missing_values cfg df).
Proof. unfold _handle_missing_values. independent. Qed.

Lemma scale_features_independent (cfg : Config) (df : DataFrame) :
  state_independent (_scale_features cfg df).
Proof. unfold _scale_features. independent. Qed.

Lemma load_and_preprocess_independent (cfg : Config) (csv : outcome DataFrame) :
  state_independent (load_and_preprocess_data cfg csv).
Proof.
  unfold load_and_preprocess_data. independent.
Qed.

Lemma detect_anomalies_independent (cfg : Config) (df : DataFrame) (seed : Z) :
  random_state cfg = Some seed ->
  state_independent (detect_anomalies cfg df).
Proof.
  intros Hseed.
  unfold detect_anomalies, fit_predict, fit, predict, score_samples,
    _log_anomaly_stats.
  rewrite Hseed. independent.
Qed.

(** C2. With an integer [random_state], the outcome of detection, and of
    the whole pipeline of loading, preprocessing and detecting, is the same
    from any two process states: the same table with the same scores and
    the same labels, or the same exception.  The clock, numpy's global
    generator, the log and anything fitted before play no part. *)
Theorem seeded_runs_are_identical (cfg : Config) (seed : Z) (df : DataFrame)
    (csv : outcome DataFrame) (s1 s2 : State) :
  random_state cfg = Some seed ->
  fst (detect_anomalies cfg df s1) = fst (detect_anomalies cfg df s2) /\
  fst (run_pipeline cfg csv s1) = fst (run_pipeline cfg csv s2).
Proof.
  intros Hseed. split.
  - apply (detect_anomalies_independent cfg df seed Hseed).
  - unfold run_pipeline. apply state_independent_bind.
    + apply load_and_preprocess_independent.
    + intros df0. apply (detect_anomalies_independent cfg df0 seed Hseed).
Qed.

(** ** The sample generator *)

Lemma generator_determined_ret {A : Type} (a : A) : generator_determined (mret a).
Proof. intros s1 s2 Hr. split; [reflexivity|exact Hr]. Qed.

Lemma generator_determined_lift {A : Type} (o : outcome A) :
  generator_determined (lift o).
Proof. intros s1 s2 Hr. split; [reflexivity|exact Hr]. Qed.

Lemma generator_determined_draw {A : Type} (d : RandomState -> A * RandomState) :
  generator_determined (draw d).
Proof.
  intros s1 s2 Hr. unfold draw. rewrite Hr.
  destruct (d (np_random s2)) as [a r]. split; reflexivity.
Qed.

Lemma generator_determined_bind {A B : Type} (m : Py A) (k : A -> Py B) :
  generator_determined m -> (forall a, generator_determined (k a)) ->
  generator_determined (m ≫= k).
Proof.
  intros Hm Hk s1 s2 Hr. unfold mbind, Py_bind.
  destruct (Hm s1 s2 Hr) as [Hout Hgen].
  destruct (m s1) as [[a1|e1] t1]; destruct (m s2) as [[a2|e2] t2];
    simpl in Hout, Hgen; try discriminate.
  - injection Hout as <-. apply Hk. exact Hgen.
  - injection Hout as <-. split; [reflexivity|exact Hgen].
Qed.

(** Once the generator is seeded, what follows no longer depends on the
    state the process was in. *)
Lemma seeded_then_determined {A : Type} (n : Z) (k : Py A) (s1 s2 : State) :
  generator_determined k ->
  fst ((np_random_seed n ≫= fun _ => k) s1)
  = fst ((np_random_seed n ≫= fun _ => k) s2).
Proof.
  intros Hk. unfold mbind, Py_bind, np_random_seed. apply Hk. reflexivity.
Qed.

Ltac determined :=
  repeat first
    [ apply generator_determined_ret
    | apply generator_determined_lift
    | apply generator_determined_draw
    | apply generator_determined_bind; [|intros ?] ].

(** C3 (amended). The generator takes no seed: it seeds numpy from the
    clock, [int(time.time() * 1000) % 2**32], the product being the one of
    double precision.  Two invocations with the same start date and
    duration produce identical tables whenever their clock readings give
    the same seed, whatever else differs between the two process states.
    The readings are taken under [2 ^ 1000] seconds, far from where the
    product would leave the doubles. *)
Theorem same_clock_seed_same_table (start_date duration_hours : Z)
    (file1 file2 : string) (s1 s2 : State) :
  (Qabs (clock s1) < 2 ^ 1000)%Q -> (Qabs (clock s2) < 2 ^ 1000)%Q ->
  current_seed (clock s1) = current_seed (clock s2) ->
  fst (generate_sample_data (Some start_date) duration_hours file1 s1)
  = fst (generate_sample_data (Some start_date) duration_hours file2 s2).
Proof.
  intros _ _ Hseed. unfold generate_sample_data.
  unfold mbind at 1. unfold Py_bind at 1. unfold time_time at 1.
  symmetry.
  unfold mbind at 1. unfold Py_bind at 1. unfold time_time at 1.
  symmetry. rewrite Hseed.
  apply seeded_then_determined. determined.
Qed.

(** A run that returns [a] is the pair of [a] and the state it leaves. *)
Lemma run_returns {A : Type} (m : Py A) (s : State) (a : A) :
  fst (m s) = Returned a -> m s = (Returned a, snd (m s)).
Proof. destruct (m s) as [o s']. simpl. intros ->. reflexivity. Qed.

End Pipeline.

(** * The properties on concrete tables *)

Ltac each_feature Hf :=
  repeat (apply elem_of_cons in Hf as [->|Hf]);
  [..|apply elem_of_nil in Hf; contradiction].

Ltac not_listed Hin :=
  repeat (apply elem_of_cons in Hin as [Hin|Hin]; [discriminate Hin|]);
  apply elem_of_nil in Hin; contradiction.

Example scored_flows_labels :
  anomaly_count (table_of (fst scored_flows)) = Some 1 /\
  get_col "anomaly" (table_of (fst scored_flows))
  = Some (Object [Some "Normal"; Some "Normal"; Some "Normal";
                  Some "Anomaly"; Some "Normal"]).
Proof. split; reflexivity. Qed.


(** ** Contamination and the number of anomalies *)

Lemma anomaly_count_follows_contamination_witness :
  exists (labels : list (option string)) (scores : list Q),
    get_col "anomaly" (table_of (fst scored_flows)) = Some (Object labels) /\
    length labels = length scores /\
    count_label "Anomaly" (Object labels)
      <= expected_anomalies (contamination two_features) (length scores).
Proof.
  destruct (anomaly_count_follows_contamination two_features
              (table_of (fst preprocessed_flows)) (table_of (fst scored_flows))
              (snd preprocessed_flows)
              (snd (detect_anomalies two_features
                      (table_of (fst preprocessed_flows))
                      (snd preprocessed_flows))))
    as (labels & scores & Hlabels & _ & Hlen & Hle & _).
  - apply run_returns. vm_compute. reflexivity.
  - exists labels, scores. split; [exact Hlabels|]. split; [exact Hlen|exact Hle].
Defined.

(** A thousand records that are all the same get the same score, the
    threshold is that score, and no record is under it: with a
    contamination of 0.05 the count of anomalies is 0, not 50. *)
Lemma thousand_equal_flows_none_flagged :
  nrows thousand_equal_flows = 1000 /\
  (contamination two_features == 0.05)%Q /\
  validate_params two_features = Returned tt /\
  exists n,
    anomaly_count
      (table_of (fst (detect_anomalies two_features thousand_equal_flows
                        fresh_process)))
    = Some n /\ n = 0 /\ n <> 50.
Proof.
  split; [reflexivity|]. split; [reflexivity|]. split; [reflexivity|].
  exists 0. split; [vm_compute; reflexivity|]. split; [reflexivity|discriminate].
Qed.

(** ** Reproducibility *)

Lemma seeded_runs_are_identical_witness :
  fst (detect_anomalies two_features (table_of (fst preprocessed_flows))
         fresh_process)
  = fst (detect_anomalies two_features (table_of (fst preprocessed_flows))
           busy_process) /\
  fst (run_pipeline two_features (Returned flows) fresh_process)
  = fst (run_pipeline two_features (Returned flows) busy_process).
Proof.
  apply (seeded_runs_are_identical two_features 42
           (table_of (fst preprocessed_flows)) (Returned flows)
           fresh_process busy_process).
  reflexivity.
Defined.

(** Without a seed the trees draw from numpy's global generator, and two
    processes whose generators differ score the same table differently. *)
Example unseeded_runs_differ :
  fst (detect_anomalies unseeded single_flow fresh_process)
  <> fst (detect_anomalies unseeded single_flow busy_process).
Proof. intros Heq. vm_compute in Heq. discriminate Heq. Qed.

(** ** The sample generator *)

Lemma same_clock_seed_same_table_witness :
  fst (generate_sample_data (Some 0%Z) 1 "monday.csv" (Lcg.boot reading 0))
  = fst (generate_sample_data (Some 0%Z) 1 "tuesday.csv"
           {| clock := later_reading; np_random := 77%Z;
              log := [(INFO, LoadedData)]; scaler := None; model := None |}).
Proof.
  apply (same_clock_seed_same_table 0 1 "monday.csv" "tuesday.csv").
  - vm_compute. reflexivity.
  - vm_compute. reflexivity.
  - vm_compute. reflexivity.
Defined.

(** The two readings are doubles, and their seeds are the milliseconds
    modulo [2 ^ 32]. *)
Example readings_are_doubles :
  (float64 reading == reading)%Q /\
  (float64 later_reading == later_reading)%Q /\
  (current_seed reading = 3487918205%Z) /\
  (current_seed later_reading = 3487918205%Z).
Proof. repeat split; vm_compute; reflexivity. Qed.

(** The seed follows the product of double precision, not the exact one:
    at the double nearest to 1700000000.123 the product rounds up to
    1700000000123 milliseconds, where the exact product is still in the
    millisecond before. *)
Example seed_follows_the_double_product :
  (float64 rounded_reading == rounded_reading)%Q /\
  (current_seed rounded_reading = 3487918203%Z) /\
  ((Qfloor (rounded_reading * 1000)%Q mod 2 ^ 32)%Z = 3487918202%Z).
Proof. repeat split; vm_compute; reflexivity. Qed.

(** The generator has no seed among its arguments.  Called twice with the
    same start date, duration and file, from two processes that differ in
    their clock only, it seeds numpy with two different numbers and returns
    two different tables. *)
Lemma generator_is_seeded_by_the_clock :
  current_seed (clock (Lcg.boot 1 0)) <> current_seed (clock (Lcg.boot 2 0)) /\
  fst (generate_sample_data (Some 0%Z) 1 "traffic.csv" (Lcg.boot 1 0))
  <> fst (generate_sample_data (Some 0%Z) 1 "traffic.csv" (Lcg.boot 2 0)).
Proof.
  split.
  - vm_compute. discriminate.
  - intros Heq.
    apply (f_equal (fun o => get_col "source_port" (table_of o))) in Heq.
    vm_compute in Heq. discriminate Heq.
Qed.

(** ** Missing values *)

Lemma missing_values_become_the_mean_witness :
  exists df' s',
    _handle_missing_values two_features flows fresh_process = (Returned df', s') /\
    exists ys,
      get_col "bytes_transferred" df' = Some (Float ys) /\
      ys !! 2 = Some (mean [Some 500; Some 520; None; Some 9000; Some 480]%Q) /\
      ys !! 3 = Some (Some 9000%Q).
Proof.
  destruct (missing_values_become_the_mean two_features flows fresh_process)
    as (df' & s' & Hrun & Hcols).
  - intros f Hf. simpl in Hf. each_feature Hf; eexists; reflexivity.
  - exists df', s'. split; [exact Hrun|].
    destruct (Hcols "bytes_transferred"
                [Some 500; Some 520; None; Some 9000; Some 480]%Q)
      as (ys & Hys & _ & Hcells & _).
    + simpl. apply elem_of_cons. left. reflexivity.
    + reflexivity.
    + exists ys. split; [exact Hys|]. split.
      * exact (Hcells 2).
      * exact (Hcells 3).
Defined.

(** A feature that is missing in every record has no mean; its column is
    left as it is, missing throughout, and is not filled with 0. *)
Lemma all_missing_column_stays_missing :
  get_col "packet_count"
    (table_of (fst (_handle_missing_values two_features flows_without_counts
                      fresh_process)))
  = Some (Float [None; None]) /\
  log (snd (_handle_missing_values two_features flows_without_counts
              fresh_process))
  = [(WARNING,
      MissingValuesDetected [("bytes_transferred", 0); ("packet_count", 2)])] /\
  get_col "packet_count"
    (table_of (fst (_handle_missing_values two_features flows_without_counts
                      fresh_process)))
  <> Some (Float [Some 0%Q; Some 0%Q]).
Proof. split; [reflexivity|]. split; [reflexivity|discriminate]. Qed.

(** ** Configuration *)

(** A configuration file that is there and is not JSON makes [load_config]
    raise; no default is returned and no warning recorded. *)
Lemma unparseable_config_raises :
  load_config Unparseable fresh_process
  = (Raised JSONDecodeError, fresh_process) /\
  fst (load_config Unparseable fresh_process) <> Returned default_config.
Proof. split; [reflexivity|discriminate]. Qed.

(** ** Small tables *)

Lemma small_tables_reach_the_estimator_witness :
  exists df' s' score,
    detect_anomalies two_features single_flow fresh_process = (Returned df', s') /\
    get_col "anomaly" df' = Some (Object [Some "Normal"]) /\
    get_col "anomaly_score" df' = Some (Float [Some score]).
Proof.
  apply (small_tables_reach_the_estimator two_features single_flow fresh_process).
  - reflexivity.
  - discriminate.
  - simpl. intros Hin. not_listed Hin.
  - intros f Hf. simpl in Hf. each_feature Hf; eexists; reflexivity.
Defined.

(** A table with one record goes through validation, preprocessing and
    detection without any error, and its record is labelled ['Normal']. *)
Lemma single_record_is_scored :
  nrows single_flow = 1 /\
  fst (run_pipeline two_features (Returned single_flow) fresh_process)
  = fst scored_single_flow /\
  (exists df', fst scored_single_flow = Returned df') /\
  get_col "anomaly" (table_of (fst scored_single_flow))
  = Some (Object [Some "Normal"]).
Proof.
  split; [reflexivity|]. split; [vm_compute; reflexivity|].
  split; [eexists; reflexivity|reflexivity].
Qed.

(** ** Scaling *)


(** In double precision a column whose values are all equal need not come
    out as zeros.  The mean fitted on seven values 0.1 is the double under
    0.1; the scaler takes the column for constant, leaves the scale at 1,
    and every value comes out as [2 ^ -56]. *)
Example constant_column_is_centred_not_zeroed :
  column_mean (repeat (float64 0.1) 7) <> float64 0.1 /\
  column_scale (repeat (float64 0.1) 7) = 1%Q /\
  map (fmap Qred)
    (numbers
       (default (Float [])
          (get_col "bytes_transferred"
             (table_of (fst (_scale_features two_features tenths
                               fresh_process))))))
  = repeat (Some (1 # 72057594037927936)%Q) 7.
Proof.
  split; [|split].
  - vm_compute. discriminate.
  - vm_compute. reflexivity.
  - vm_compute. reflexivity.
Qed.


(** ** Columns outside the features *)

Lemma preprocessing_keeps_other_columns_witness :
  columns (table_of (fst preprocessed_flows)) = columns flows /\
  get_col "protocol" (table_of (fst preprocessed_flows))
  = get_col "protocol" flows.
Proof.
  destruct (preprocessing_keeps_other_columns two_features flows
              (table_of (fst preprocessed_flows)) fresh_process
              (snd (load_and_preprocess_data two_features (Returned flows)
                      fresh_process)))
    as [Hcolumns Hframe].
  - right. right. apply run_returns. vm_compute. reflexivity.
  - split; [exact Hcolumns|]. apply Hframe.
    simpl. intros Hin. not_listed Hin.
Defined.

(** ** The columns added by detection *)

Lemma detection_adds_label_and_score_witness :
  columns (table_of (fst scored_flows))
  = (columns (table_of (fst preprocessed_flows))
     ++ ["anomaly"; "anomaly_score"])%list.
Proof.
  destruct (detection_adds_label_and_score two_features
              (table_of (fst preprocessed_flows)) (table_of (fst scored_flows))
              (snd preprocessed_flows)
              (snd (detect_anomalies two_features
                      (table_of (fst preprocessed_flows))
                      (snd preprocessed_flows))))
    as (_ & Htwo & _).
  - apply run_returns. vm_compute. reflexivity.
  - apply Htwo; simpl; intros Hin; not_listed Hin.
Defined.

(** On a table that already has a column ['anomaly'], detection overwrites
    that column and appends one column only. *)
Lemma existing_anomaly_column_is_overwritten :
  columns scored_before = ["bytes_transferred"; "packet_count"; "anomaly"] /\
  length (columns (table_of (fst (detect_anomalies two_features scored_before
                                    fresh_process))))
  = length (columns scored_before) + 1 /\
  columns (table_of (fst (detect_anomalies two_features scored_before
                            fresh_process)))
  = ["bytes_transferred"; "packet_count"; "anomaly"; "anomaly_score"] /\
  get_col "anomaly" scored_before
  = Some (Object [Some "Anomaly"; Some "Normal"; Some "Normal"]) /\
  get_col "anomaly"
    (table_of (fst (detect_anomalies two_features scored_before fresh_process)))
  = Some (Object [Some "Normal"; Some "Normal"; Some "Anomaly"]).
Proof. repeat split; vm_compute; reflexivity. Qed.

(** * Further properties of the detector *)

Section More.
Context `{IT : IsolationTrees} `{SS : ScalerStatistics}.

Ltac step_inv H :=
  let a := fresh "a" in
  let s := fresh "s" in
  let Ha := fresh "Hstep" in
  apply bind_returned in H as (a & s & Ha & H); cbv zeta in H.

(** ** What detection leaves in the table and in the detector *)

Lemma fit_stores_the_model (cfg : Config) (sel : list (string * column))
    (m : Model) (s s' : State) :
  fit cfg sel s = (Returned m, s') -> model s' = Some m /\ log s' = log s.
Proof.
  intros Hrun. unfold fit in Hrun.
  step_inv Hrun. apply lift_returned in Hstep as [_ ->]. destruct a.
  step_inv Hrun. apply lift_returned in Hstep as [_ ->].
  step_inv Hrun. step_inv Hrun.
  unfold mret, Py_ret in Hrun. injection Hrun as <- <-.
  unfold set_model in Hstep0. injection Hstep0 as _ <-. simpl.
  split; [reflexivity|].
  unfold with_generator in Hstep. destruct (random_state cfg).
  - unfold mret, Py_ret in Hstep. injection Hstep as _ <-. reflexivity.
  - unfold draw in Hstep.
    destruct (grow _ _ _).
    injection Hstep as _ <-. reflexivity.
Qed.

(** The record that [_log_anomaly_stats] writes for a scored table. *)
Lemma detect_anomalies_run_state (cfg : Config) (df : DataFrame)
    (sel : list (string * column)) (cols : list (list (option Q))) (s : State) :
  select (features cfg) df = Returned sel ->
  validate_params cfg = Returned tt ->
  check_array false sel = Returned cols ->
  "anomaly" ∉ features cfg ->
  exists m s' df',
    detect_anomalies cfg df s = (Returned df', s') /\
    df' = set_col "anomaly_score"
            (Float (map Some (map (raw_score (trees m)) (rows_of cols))))
            (set_col "anomaly"
               (Object (map label_of
                          (map (fun p => Some (inject_Z p))
                             (map (predict_row m) (rows_of cols)))))
               df) /\
    offset_ m = percentile (map (raw_score (trees m)) (rows_of cols))
                  (100 * contamination cfg) /\
    model s' = Some m /\
    log s'
    = (log s
       ++ [(INFO,
            AnomalyStatistics (nrows df')
              (value_counts
                 (Object (map label_of
                            (map (fun p => Some (inject_Z p))
                               (map (predict_row m) (rows_of cols))))))
              (mean (map Some (map (raw_score (trees m)) (rows_of cols))))
              (Qmin_list
                 (present (map Some (map (raw_score (trees m)) (rows_of cols)))))
              (Qmax_list
                 (present (map Some (map (raw_score (trees m)) (rows_of cols))))))])%list.
Proof.
  intros Hsel Hval Hcols Hnot.
  destruct (fit_run cfg sel cols
              {| clock := clock s; np_random := np_random s; log := log s;
                 scaler := scaler s; model := None |} Hval Hcols)
    as (m & s1 & Hfit & Hoff).
  destruct (fit_stores_the_model _ _ _ _ _ Hfit) as [Hmodel Hlog].
  simpl in Hlog.
  exists m. eexists. eexists.
  split; [|split; [reflexivity|split; [exact Hoff|]]].
  - unfold detect_anomalies, try_except.
    unfold mbind at 1. unfold Py_bind at 1. unfold unset_model at 1.
    unfold mbind at 1. unfold Py_bind at 1. unfold lift at 1. rewrite Hsel.
    unfold mbind at 1. unfold Py_bind at 1.
    unfold fit_predict at 1. unfold mbind at 1. unfold Py_bind at 1.
    rewrite Hfit.
    unfold mbind at 1. unfold Py_bind at 1.
    unfold predict at 1. unfold mbind at 1. unfold Py_bind at 1.
    unfold lift at 1. rewrite Hcols. unfold mret at 1 2. unfold Py_ret at 1 2.
    unfold mbind at 1. unfold Py_bind at 1. unfold lift at 1.
    unfold getitem at 1. rewrite get_col_set_col_eq.
    simpl series_map. rewrite set_col_set_col.
    unfold mbind at 1. unfold Py_bind at 1. unfold lift at 1.
    rewrite select_set_col_other by exact Hnot. rewrite Hsel.
    unfold mbind at 1. unfold Py_bind at 1.
    unfold score_samples at 1. unfold mbind at 1. unfold Py_bind at 1.
    unfold lift at 1. rewrite Hcols. unfold mret at 1. unfold Py_ret at 1.
    unfold mbind at 1. unfold Py_bind at 1.
    unfold _log_anomaly_stats at 1.
    unfold mbind at 1 2. unfold Py_bind at 1 2. unfold lift at 1 2.
    unfold getitem.
    rewrite get_col_set_col_ne by discriminate. rewrite get_col_set_col_eq.
    rewrite get_col_set_col_eq. unfold logging. reflexivity.
  - simpl. split; [exact Hmodel|]. rewrite Hlog. reflexivity.
Qed.

Lemma detect_anomalies_outcome (cfg : Config) (df df' : DataFrame)
    (s s' : State) :
  detect_anomalies cfg df s = (Returned df', s') ->
  exists sel cols m,
    select (features cfg) df = Returned sel /\
    validate_params cfg = Returned tt /\
    check_array false sel = Returned cols /\
    ("anomaly" ∉ features cfg) /\
    df' = set_col "anomaly_score"
            (Float (map Some (map (raw_score (trees m)) (rows_of cols))))
            (set_col "anomaly"
               (Object (map label_of
                          (map (fun p => Some (inject_Z p))
                             (map (predict_row m) (rows_of cols)))))
               df) /\
    offset_ m = percentile (map (raw_score (trees m)) (rows_of cols))
                  (100 * contamination cfg) /\
    model s' = Some m /\
    log s'
    = (log s
       ++ [(INFO,
            AnomalyStatistics (nrows df')
              (value_counts
                 (Object (map label_of
                            (map (fun p => Some (inject_Z p))
                               (map (predict_row m) (rows_of cols))))))
              (mean (map Some (map (raw_score (trees m)) (rows_of cols))))
              (Qmin_list
                 (present (map Some (map (raw_score (trees m)) (rows_of cols)))))
              (Qmax_list
                 (present (map Some (map (raw_score (trees m)) (rows_of cols))))))])%list.
Proof.
  intros Hrun.
  destruct (detect_anomalies_returned cfg df df' s s' Hrun)
    as (sel & cols & _ & Hsel & Hval & Hcols & _ & Hnot & _).
  destruct (detect_anomalies_run_state cfg df sel cols s Hsel Hval Hcols Hnot)
    as (m & s2 & df2 & Hrun2 & Hdf & Hoff & Hmodel & Hlog).
  rewrite Hrun in Hrun2. injection Hrun2 as <- <-.
  exists sel, cols, m. auto 10.
Qed.

(** X1. Detection writes ['anomaly'] and ['anomaly_score'] and nothing
    else: every other column of the table, the configured features among
    them, has the values it had. *)
Theorem detection_changes_only_its_two_columns (cfg : Config) (df df' : DataFrame)
    (s s' : State) (name : string) :
  detect_anomalies cfg df s = (Returned df', s') ->
  name <> "anomaly" -> name <> "anomaly_score" ->
  get_col name df' = get_col name df.
Proof.
  intros Hrun Ha Hs.
  apply detect_anomalies_outcome in Hrun
    as (sel & cols & m & _ & _ & _ & _ & -> & _).
  rewrite !get_col_set_col_ne by congruence. reflexivity.
Qed.

Lemma scored_rows_lookup (m : Model) (X : list (list Q)) (i : nat) (x : Q) :
  map (raw_score (trees m)) X !! i = Some x ->
  map label_of (map (fun p => Some (inject_Z p)) (map (predict_row m) X)) !! i
  = Some (Some (if decide (x - offset_ m < 0)%Q then "Anomaly" else "Normal")).
Proof.
  rewrite !list_lookup_fmap. destruct (X !! i) as [row|]; [|discriminate].
  intros Hx. injection Hx as <-.
  unfold fmap, option_fmap, option_map. f_equal. apply label_of_prediction.
Qed.

(** X2. The labels are a threshold on the scores, and the threshold is the
    one kept in the fitted model: a record is ['Anomaly'] exactly when its
    score is strictly under [offset_].  So every record labelled
    ['Anomaly'] has a strictly lower score than every record labelled
    ['Normal']. *)
Theorem labels_follow_the_stored_threshold (cfg : Config) (df df' : DataFrame)
    (s s' : State) :
  detect_anomalies cfg df s = (Returned df', s') ->
  exists m labels scores,
    model s' = Some m /\
    get_col "anomaly" df' = Some (Object labels) /\
    get_col "anomaly_score" df' = Some (Float (map Some scores)) /\
    (forall i x, scores !! i = Some x ->
       labels !! i
       = Some (Some (if decide (x - offset_ m < 0)%Q
                     then "Anomaly" else "Normal"))) /\
    (forall i j x y,
       labels !! i = Some (Some "Anomaly") ->
       labels !! j = Some (Some "Normal") ->
       scores !! i = Some x -> scores !! j = Some y -> (x < y)%Q).
Proof.
  intros Hrun.
  apply detect_anomalies_outcome in Hrun
    as (sel & cols & m & _ & _ & _ & _ & -> & _ & Hmodel & _).
  eexists m, _, _. split; [exact Hmodel|]. split; [|split; [|split]].
  - rewrite get_col_set_col_ne by discriminate. apply get_col_set_col_eq.
  - apply get_col_set_col_eq.
  - intros i x Hx. apply scored_rows_lookup. exact Hx.
  - intros i j x y Hi Hj Hx Hy.
    rewrite (scored_rows_lookup m _ i x Hx) in Hi.
    rewrite (scored_rows_lookup m _ j y Hy) in Hj.
    destruct (decide (x - offset_ m < 0)%Q) as [Hlow|]; [|discriminate].
    destruct (decide (y - offset_ m < 0)%Q) as [|Hhigh]; [discriminate|].
    lra.
Qed.

Lemma expected_anomalies_below_size (c : Q) (n : nat) :
  1 <= n -> (0 < c)%Q -> (c <= 1 # 2)%Q -> expected_anomalies c n < n.
Proof.
  intros Hn Hc0 Hc1. unfold expected_anomalies.
  set (m := inject_Z (Z.of_nat (n - 1))).
  assert (Hm0 : (0 <= m)%Q).
  { unfold m. change 0%Q with (inject_Z 0). rewrite <- Zle_Qle. lia. }
  assert (Hle : (Qceiling (c * m) <= Z.of_nat (n - 1))%Z).
  { rewrite <- (Qceiling_Z (Z.of_nat (n - 1))). apply Qceiling_resp_le.
    fold m. nra. }
  lia.
Qed.

Lemma some_label_is_normal (labels : list (option string)) :
  Forall (fun l => l = Some "Normal" \/ l = Some "Anomaly") labels ->
  count_label "Anomaly" (Object labels) < length labels ->
  exists i, labels !! i = Some (Some "Normal").
Proof.
  unfold count_label. induction 1 as [|l labels Hl Hall IH]; simpl; [lia|].
  rewrite filter_cons. destruct Hl as [->| ->].
  - intros _. exists 0. reflexivity.
  - rewrite decide_True by reflexivity. simpl. intros Hlt.
    destruct IH as [i Hi]; [lia|]. exists (S i). exact Hi.
Qed.

(** X3. Detection never labels every record an anomaly: whatever the
    contamination, fewer records are ['Anomaly'] than there are records,
    and at least one record is ['Normal']. *)
Theorem some_record_is_always_normal (cfg : Config) (df df' : DataFrame)
    (s s' : State) :
  detect_anomalies cfg df s = (Returned df', s') ->
  exists labels,
    get_col "anomaly" df' = Some (Object labels) /\
    count_label "Anomaly" (Object labels) < length labels /\
    exists i, labels !! i = Some (Some "Normal").
Proof.
  intros Hrun.
  apply detect_anomalies_outcome in Hrun
    as (sel & cols & m & _ & Hval & Hcols & _ & -> & Hoff & _).
  apply validate_params_returned in Hval as (_ & Hc0 & Hc1).
  pose proof (check_array_has_rows _ _ _ Hcols) as Hrows.
  assert (Hsne : map (raw_score (trees m)) (rows_of cols) <> []).
  { destruct (rows_of cols); [contradiction|discriminate]. }
  assert (Hn : 1 <= length (rows_of cols))
    by (destruct (rows_of cols); [contradiction|simpl; lia]).
  destruct (below_percentile _ (contamination cfg) Hsne Hc0 Hc1) as [Hle _].
  rewrite <- Hoff, length_map in Hle.
  pose proof (expected_anomalies_below_size _ _ Hn Hc0 Hc1) as Hlt.
  assert (Hcount :
    count_label "Anomaly"
      (Object (map label_of
                 (map (fun p => Some (inject_Z p))
                    (map (predict_row m) (rows_of cols)))))
    < length (map label_of
                (map (fun p => Some (inject_Z p))
                   (map (predict_row m) (rows_of cols))))).
  { rewrite count_anomaly_labels, !length_map. lia. }
  eexists. split; [|split].
  - rewrite get_col_set_col_ne by discriminate. apply get_col_set_col_eq.
  - exact Hcount.
  - apply some_label_is_normal; [apply labels_are_normal_or_anomaly|exact Hcount].
Qed.

(** ** Records with the same features *)

Lemma check_array_returned (allow_nan : bool) (sel : list (string * column))
    (cols : list (list (option Q))) :
  check_array allow_nan sel = Returned cols ->
  traverse as_numbers sel = Returned cols /\
  (exists first rest, sel = first :: rest /\ col_length (snd first) <> 0) /\
  (allow_nan = false -> existsb has_nan cols = false).
Proof.
  unfold check_array. destruct sel as [|first rest]; [discriminate|].
  destruct (traverse as_numbers (first :: rest)) as [cs|]; [|discriminate].
  destruct (negb allow_nan && existsb has_nan cs) eqn:Hnan; [discriminate|].
  destruct (Nat.eqb (col_length (snd first)) 0) eqn:Hlen; [discriminate|].
  intros [= <-]. split; [reflexivity|]. split.
  - exists first, rest. split; [reflexivity|]. apply Nat.eqb_neq. exact Hlen.
  - intros ->. exact Hnan.
Qed.

Lemma as_numbers_returned (nc : string * column) (c : list (option Q)) :
  as_numbers nc = Returned c -> snd nc = Float c \/ (c = [] /\ col_length (snd nc) = 0).
Proof.
  unfold as_numbers. destruct (snd nc) as [xs|[|x xs]|[|x xs]]; intros Heq;
    simplify_eq; auto.
Qed.

Lemma rows_of_lookup (cols : list (list (option Q))) (c0 : list (option Q))
    (rest : list (list (option Q))) (i : nat) :
  cols = c0 :: rest ->
  rows_of cols !! i = if decide (i < length c0) then Some (row_at i cols) else None.
Proof.
  intros ->. unfold rows_of. rewrite list_lookup_fmap.
  case_decide as Hi.
  - rewrite lookup_seq_lt by exact Hi. reflexivity.
  - rewrite lookup_seq_ge by lia. reflexivity.
Qed.

Lemma row_at_ext (cols : list (list (option Q))) (i j : nat) :
  Forall (fun c => c !! i = c !! j) cols -> row_at i cols = row_at j cols.
Proof.
  intros Hall. unfold row_at. apply map_ext_Forall.
  eapply Forall_impl; [exact Hall|]. intros c Hc. simpl.
  rewrite !nth_lookup, Hc. reflexivity.
Qed.

Lemma selected_rows_agree (names : list string) (df : DataFrame)
    (sel : list (string * column)) (cols : list (list (option Q))) (i j : nat) :
  select names df = Returned sel ->
  traverse as_numbers sel = Returned cols ->
  (forall f xs, f ∈ names -> get_col f df = Some (Float xs) -> xs !! i = xs !! j) ->
  Forall (fun c => c !! i = c !! j) cols.
Proof.
  intros Hsel Hcols Hagree.
  apply select_returned in Hsel as [Hnames Hall]. subst names.
  apply traverse_returned in Hcols.
  apply Forall_forall. intros c Hc.
  apply list_elem_of_lookup in Hc as [k Hk].
  destruct (Forall2_lookup_r _ _ _ _ _ Hcols Hk) as ([n col] & Hsk & Hnum).
  apply as_numbers_returned in Hnum as [Hfloat|[-> _]]; [|reflexivity].
  simpl in Hfloat. subst col.
  rewrite Forall_forall in Hall.
  assert (Hin : (n, Float c) ∈ sel) by (eapply list_elem_of_lookup_2; eauto).
  apply (Hagree n).
  - apply list_elem_of_fmap. exists (n, Float c). auto.
  - apply (Hall _ Hin).
Qed.

(** X4. Two records that agree on every configured feature get the same
    score and the same label. *)
Theorem equal_records_get_equal_verdicts (cfg : Config) (df df' : DataFrame)
    (s s' : State) (i j : nat) :
  detect_anomalies cfg df s = (Returned df', s') ->
  (forall f xs, f ∈ features cfg -> get_col f df = Some (Float xs) ->
     xs !! i = xs !! j) ->
  exists labels scores,
    get_col "anomaly" df' = Some (Object labels) /\
    get_col "anomaly_score" df' = Some (Float scores) /\
    labels !! i = labels !! j /\
    scores !! i = scores !! j.
Proof.
  intros Hrun Hagree.
  apply detect_anomalies_outcome in Hrun
    as (sel & cols & m & Hsel & _ & Hcols & _ & -> & _).
  apply check_array_returned in Hcols
    as (Htrav & (first & rest & -> & Hlen) & _).
  pose proof (selected_rows_agree _ _ _ _ i j Hsel Htrav Hagree) as Hall.
  assert (Hrows : rows_of cols !! i = rows_of cols !! j).
  { pose proof Htrav as Htrav'. apply traverse_returned in Htrav'.
    inversion Htrav' as [|? c0 ? cs Hfirst _]; subst.
    rewrite !(rows_of_lookup (c0 :: cs) c0 cs) by reflexivity.
    inversion Hall as [|? ? Hc0 _]; subst.
    rewrite (row_at_ext _ i j Hall).
    repeat case_decide; try reflexivity.
    - exfalso. apply lookup_lt_is_Some in H0. rewrite Hc0 in H0.
      apply lookup_lt_is_Some in H0. lia.
    - exfalso. apply lookup_lt_is_Some in H1. rewrite <- Hc0 in H1.
      apply lookup_lt_is_Some in H1. lia. }
  eexists _, _. split; [|split; [|split]].
  - rewrite get_col_set_col_ne by discriminate. apply get_col_set_col_eq.
  - apply get_col_set_col_eq.
  - rewrite !list_lookup_fmap, Hrows. reflexivity.
  - rewrite !list_lookup_fmap, Hrows. reflexivity.
Qed.

(** ** The log of a detection *)

Lemma keeps_log_ret {A : Type} (a : A) : keeps_log (mret a).
Proof. intros s. reflexivity. Qed.

Lemma keeps_log_lift {A : Type} (o : outcome A) : keeps_log (lift o).
Proof. intros s. reflexivity. Qed.

Lemma keeps_log_bind {A B : Type} (m : Py A) (k : A -> Py B) :
  keeps_log m -> (forall a, keeps_log (k a)) -> keeps_log (m ≫= k).
Proof.
  intros Hm Hk s. unfold mbind, Py_bind. specialize (Hm s).
  destruct (m s) as [[a|e] s1]; simpl in *; [|exact Hm].
  rewrite Hk. exact Hm.
Qed.

Lemma keeps_log_with_generator {A : Type} (rs : option Z)
    (d : RandomState -> A * RandomState) :
  keeps_log (with_generator rs d).
Proof.
  intros s. unfold with_generator. destruct rs; [reflexivity|].
  unfold draw. destruct (d (np_random s)). reflexivity.
Qed.

Ltac silent :=
  repeat first
    [ apply keeps_log_ret
    | apply keeps_log_lift
    | apply keeps_log_with_generator
    | apply keeps_log_bind; [|intros ?]
    | match goal with
      | |- keeps_log (set_model _) => intros ?; reflexivity
      | |- keeps_log unset_model => intros ?; reflexivity
      | |- keeps_log (let '(_, _) := ?p in _) => destruct p
      end ].

Lemma keeps_log_fit_predict (cfg : Config) (sel : list (string * column)) :
  keeps_log (fit_predict cfg sel).
Proof. unfold fit_predict, fit, predict. silent. Qed.

Lemma keeps_log_score_samples (m : Model) (sel : list (string * column)) :
  keeps_log (score_samples m sel).
Proof. unfold score_samples. silent. Qed.

Lemma quiet_after_silent {A B : Type} (m : Py A) (k : A -> Py B) :
  keeps_log m -> (forall a, quiet_on_failure (k a)) -> quiet_on_failure (m ≫= k).
Proof.
  intros Hm Hk s e s'. unfold mbind, Py_bind. specialize (Hm s).
  destruct (m s) as [[a|e1] s1]; simpl in *.
  - intros Hrun. rewrite (Hk a _ _ _ Hrun). exact Hm.
  - intros [= <- <-]. exact Hm.
Qed.

Lemma quiet_log_anomaly_stats (df : DataFrame) :
  quiet_on_failure (_log_anomaly_stats df ≫= fun _ => mret df).
Proof.
  intros s e s'. unfold _log_anomaly_stats, mbind, Py_bind, lift, logging.
  destruct (getitem "anomaly" df); [|intros [= <- <-]; reflexivity].
  destruct (getitem "anomaly_score" df); [|intros [= <- <-]; reflexivity].
  discriminate.
Qed.

Lemma detect_anomalies_raised (cfg : Config) (df : DataFrame) (e : exn)
    (s s' : State) :
  detect_anomalies cfg df s = (Raised e, s') ->
  log s' = (log s ++ [(ERROR, ErrorInDetection e)])%list.
Proof.
  unfold detect_anomalies, try_except.
  match goal with
  | |- context [match ?body s with _ => _ end] =>
      assert (Hquiet : quiet_on_failure body); [|destruct (body s) as [[a|e1] s1] eqn:Hb]
  end.
  - apply quiet_after_silent; [silent|intros ?].
    apply quiet_after_silent; [silent|intros sel].
    apply quiet_after_silent; [apply keeps_log_fit_predict|intros [m predictions]].
    apply quiet_after_silent; [silent|intros anomaly].
    apply quiet_after_silent; [silent|intros sel2].
    apply quiet_after_silent; [apply keeps_log_score_samples|intros scores].
    apply quiet_log_anomaly_stats.
  - discriminate.
  - unfold mbind, Py_bind, logging, raise. intros [= <- <-].
    simpl. rewrite (Hquiet _ _ _ Hb). reflexivity.
Qed.

Lemma label_counts_add_up (labels : list (option string)) :
  Forall (fun l => l = Some "Normal" \/ l = Some "Anomaly") labels ->
  sum_list (map snd (value_counts (Object labels))) = length labels.
Proof.
  intros Hall.
  assert (Hsum : count_label "Normal" (Object labels)
                 + count_label "Anomaly" (Object labels) = length labels).
  { unfold count_label. induction Hall as [|l labels Hl Hall IH]; [reflexivity|].
    rewrite !filter_cons. destruct Hl as [->| ->].
    - rewrite decide_True, decide_False by congruence. simpl. lia.
    - rewrite decide_False, decide_True by congruence. simpl. lia. }
  unfold value_counts. rewrite !filter_cons, filter_nil.
  repeat case_decide; simpl in *; lia.
Qed.

(** X5. Every call of [detect_anomalies] hands exactly one record to the
    log.  When it returns, the record is the statistics of the scored
    table: its number of records and the counts per label, which add up to
    the number of labels.  When it raises, the record is the error, and the
    exception raised is the one logged. *)
Theorem detection_logs_its_outcome (cfg : Config) (df : DataFrame) (s : State) :
  match detect_anomalies cfg df s with
  | (Returned df', s') =>
      exists labels counts score_mean score_min score_max,
        get_col "anomaly" df' = Some (Object labels) /\
        log s'
        = (log s
           ++ [(INFO, AnomalyStatistics (nrows df') counts
                        score_mean score_min score_max)])%list /\
        sum_list (map snd counts) = length labels
  | (Raised e, s') =>
      log s' = (log s ++ [(ERROR, ErrorInDetection e)])%list
  end.
Proof.
  destruct (detect_anomalies cfg df s) as [[df'|e] s'] eqn:Hrun.
  - apply detect_anomalies_outcome in Hrun
      as (sel & cols & m & _ & _ & _ & _ & Hdf & _ & _ & Hlog).
    eexists _, _, _, _, _. split; [|split; [exact Hlog|]].
    + rewrite Hdf. rewrite get_col_set_col_ne by discriminate.
      apply get_col_set_col_eq.
    + apply label_counts_add_up. apply labels_are_normal_or_anomaly.
  - exact (detect_anomalies_raised _ _ _ _ _ Hrun).
Qed.

(** ** Detections that cannot succeed *)

Lemma validate_params_refuses (cfg : Config) :
  (n_estimators cfg < 1)%Z \/ ~ (0 < contamination cfg)%Q
  \/ ~ (contamination cfg <= 0.5)%Q ->
  exists p, validate_params cfg = Raised (ValueError (InvalidParameter p)).
Proof.
  intros Hbad. unfold validate_params.
  case_decide as Hn; [eauto|].
  destruct (bool_decide (0 < contamination cfg)%Q) eqn:Hlo;
    [|simpl; eauto].
  destruct (bool_decide (contamination cfg <= 0.5)%Q) eqn:Hhi;
    [|simpl; eauto].
  apply bool_decide_eq_true in Hlo, Hhi.
  destruct Hbad as [Hbad|[Hbad|Hbad]]; contradiction.
Qed.

Lemma detect_anomalies_fails_early (cfg : Config) (df : DataFrame)
    (sel : list (string * column)) (e : exn) (s : State) :
  select (features cfg) df = Returned sel ->
  fit cfg sel = lift (Raised e) ->
  exists s',
    detect_anomalies cfg df s = (Raised e, s') /\ model s' = None.
Proof.
  intros Hsel Hfit. unfold detect_anomalies, try_except.
  unfold mbind at 1. unfold Py_bind at 1. unfold unset_model at 1.
  unfold mbind at 1. unfold Py_bind at 1. unfold lift at 1. rewrite Hsel.
  unfold mbind at 1. unfold Py_bind at 1. unfold fit_predict at 1.
  unfold mbind at 1. unfold Py_bind at 1. rewrite Hfit. unfold lift at 1.
  unfold mbind, Py_bind, logging, raise. simpl. eauto.
Qed.

(** X6. With [n_estimators] below one, or [contamination] outside of
    ]0, 0.5], a detection over a table that has the configured features
    raises the [ValueError] of the estimator's parameter check, whatever
    the records are, and leaves the detector without a fitted model. *)
Theorem invalid_parameters_stop_detection (cfg : Config) (df : DataFrame)
    (s : State) :
  (n_estimators cfg < 1)%Z \/ ~ (0 < contamination cfg)%Q
  \/ ~ (contamination cfg <= 0.5)%Q ->
  (forall f, f ∈ features cfg -> f ∈ columns df) ->
  exists p s',
    detect_anomalies cfg df s = (Raised (ValueError (InvalidParameter p)), s') /\
    model s' = None.
Proof.
  intros Hbad Hcols.
  destruct (validate_params_refuses cfg Hbad) as [p Hp].
  destruct (select_total _ _ Hcols) as [sel Hsel].
  exists p. eapply detect_anomalies_fails_early; [exact Hsel|].
  unfold fit. rewrite Hp. reflexivity.
Qed.

(** X7. When some configured feature is not a column of the table, the
    detection raises a [KeyError] that lists exactly the configured
    features the table lacks, in the order of the configuration, before
    anything is fitted. *)
Theorem absent_feature_is_a_key_error (cfg : Config) (df : DataFrame)
    (s : State) (f : string) :
  f ∈ features cfg -> f ∉ columns df ->
  exists s',
    detect_anomalies cfg df s
    = (Raised (KeyError (filter (fun n => n ∉ columns df) (features cfg))), s') /\
    model s' = None.
Proof.
  intros Hf Habsent.
  assert (Hfilter : filter (fun n => get_col n df = None) (features cfg)
                    = filter (fun n => n ∉ columns df) (features cfg)).
  { apply list_filter_iff. intros n. split.
    - intros Hnone Hin. apply get_col_Some_columns in Hin as [c Hc]. congruence.
    - apply get_col_None_columns. }
  assert (Hsel : select (features cfg) df
                 = Raised (KeyError (filter (fun n => n ∉ columns df) (features cfg)))).
  { unfold select. rewrite Hfilter.
    destruct (filter (fun n => n ∉ columns df) (features cfg)) as [|n l] eqn:Hl;
      [|reflexivity].
    assert (Hin : f ∈ filter (fun n => n ∉ columns df) (features cfg))
      by (apply list_elem_of_filter; auto).
    rewrite Hl in Hin. apply elem_of_nil in Hin. contradiction. }
  unfold detect_anomalies, try_except.
  unfold mbind at 1. unfold Py_bind at 1. unfold unset_model at 1.
  unfold mbind at 1. unfold Py_bind at 1. unfold lift at 1. rewrite Hsel.
  unfold mbind, Py_bind, logging, raise. simpl. eauto.
Qed.

(** X8. A configuration that lists the label column ["anomaly"] among its
    features never gets a result: whatever the table, the detection
    raises. *)
Theorem label_column_as_feature_always_fails (cfg : Config) (df : DataFrame)
    (s : State) :
  "anomaly" ∈ features cfg ->
  exists e s', detect_anomalies cfg df s = (Raised e, s').
Proof.
  intros Hin.
  destruct (detect_anomalies cfg df s) as [[df'|e] s'] eqn:Hrun; [|eauto].
  apply detect_anomalies_outcome in Hrun
    as (sel & cols & m & _ & _ & _ & Hnot & _).
  contradiction.
Qed.

(** ** Preprocessing, step by step *)

Lemma floats_are_columns (names : list string) (df : DataFrame) :
  (forall f, f ∈ names -> exists xs, get_col f df = Some (Float xs)) ->
  forall n, n ∈ names -> n ∈ columns df.
Proof.
  intros Hfloat n Hn. destruct (Hfloat n Hn) as [xs Hxs].
  apply get_col_Some_columns. rewrite Hxs. eauto.
Qed.

Lemma handle_missing_values_columns (cfg : Config) (df : DataFrame) (s : State) :
  (forall f, f ∈ features cfg -> exists xs, get_col f df = Some (Float xs)) ->
  exists df1 s1,
    _handle_missing_values cfg df s = (Returned df1, s1) /\
    (forall f xs, f ∈ features cfg -> get_col f df = Some (Float xs) ->
       get_col f df1 = Some (Float (fillna (mean xs) xs))) /\
    scaler s1 = scaler s.
Proof.
  intros Hfloat.
  destruct (select_total (features cfg) df (floats_are_columns _ _ Hfloat))
    as [sel Hsel].
  destruct (fill_total df sel _ Hsel Hfloat) as [filled Hfill].
  eexists _, _. split; [apply handle_missing_values_run; eauto|]. split.
  - intros f xs Hf Hxs. apply get_col_assign_same.
    + rewrite (traverse_fill_names _ _ Hfill).
      apply select_returned in Hsel as [-> _]. exact Hf.
    + intros c' Hc'. eapply filled_entry; eauto.
  - destruct (any_missing sel); reflexivity.
Qed.

Lemma scale_features_columns (cfg : Config) (df : DataFrame) (s : State) :
  features cfg <> [] ->
  (forall f, f ∈ features cfg ->
     exists xs, xs <> [] /\ get_col f df = Some (Float xs)) ->
  exists df' s',
    _scale_features cfg df s = (Returned df', s') /\
    (forall f xs, f ∈ features cfg -> get_col f df = Some (Float xs) ->
       get_col f df' = Some (Float (snd (fit_transform_col xs)))).
Proof.
  intros Hne Hfloat.
  destruct (select_total (features cfg) df) as [sel Hsel].
  { apply floats_are_columns. intros f Hf.
    destruct (Hfloat f Hf) as (xs & _ & Hxs). eauto. }
  pose proof (selected_floats _ _ _ Hsel Hfloat) as Hall.
  assert (Hsne : sel <> []).
  { apply select_returned in Hsel as [Hnames _]. intros ->. simpl in Hnames.
    congruence. }
  pose proof (check_array_floats true sel Hsne Hall ltac:(discriminate)) as Hcols.
  destruct (scale_features_run cfg df sel _ s Hsel Hcols) as (s' & Hrun & _).
  eexists _, s'. split; [exact Hrun|].
  intros f xs Hf Hxs. apply get_col_assign_same.
  - unfold scaled_columns. rewrite fst_zip.
    + apply select_returned in Hsel as [-> _]. exact Hf.
    + rewrite !length_map. reflexivity.
  - intros c' Hc'. eapply scaled_entry; eauto.
Qed.

Lemma validate_data_passes (cfg : Config) (df : DataFrame) :
  (forall f, f ∈ features cfg -> f ∈ columns df) ->
  _validate_data cfg df = Returned tt.
Proof.
  intros Hcols. destruct (_validate_data cfg df) as [[]|e] eqn:Hv; [reflexivity|].
  apply validate_data_raises in Hv as [Hne _]. exfalso. apply Hne.
  apply set_eq. intros x. rewrite elem_of_missing_features.
  split; [intros [Hx Hnx]; elim Hnx; auto|intros Hx; apply elem_of_empty in Hx as []].
Qed.

Lemma fillna_nonempty (m : option Q) (xs : list (option Q)) :
  xs <> [] -> fillna m xs <> [].
Proof.
  intros Hne Hnil. apply (f_equal length) in Hnil. rewrite fillna_length in Hnil.
  destruct xs; [contradiction|discriminate].
Qed.

(** The run of [load_and_preprocess_data] over a table whose configured
    features are numeric columns with at least one row. *)
Lemma load_and_preprocess_run (cfg : Config) (df : DataFrame) (s : State) :
  features cfg <> [] ->
  (forall f, f ∈ features cfg ->
     exists xs, xs <> [] /\ get_col f df = Some (Float xs)) ->
  exists df' s',
    load_and_preprocess_data cfg (Returned df) s = (Returned df', s') /\
    (forall f xs, f ∈ features cfg -> get_col f df = Some (Float xs) ->
       get_col f df'
       = Some (Float (snd (fit_transform_col (fillna (mean xs) xs))))).
Proof.
  intros Hne Hfloat.
  assert (Hfloat' : forall f, f ∈ features cfg ->
                      exists xs, get_col f df = Some (Float xs)).
  { intros f Hf. destruct (Hfloat f Hf) as (xs & _ & Hxs). eauto. }
  destruct (handle_missing_values_columns cfg df
              (logged (INFO, LoadedData) s) Hfloat')
    as (df1 & s1 & Hfill & Hfilled & _).
  destruct (scale_features_columns cfg df1 s1 Hne) as (df' & s' & Hscale & Hscaled).
  { intros f Hf. destruct (Hfloat f Hf) as (xs & Hxs & Hcol).
    exists (fillna (mean xs) xs). split; [apply fillna_nonempty; exact Hxs|].
    apply Hfilled; assumption. }
  exists df', s'. split.
  - unfold load_and_preprocess_data, try_except.
    unfold mbind at 1. unfold Py_bind at 1. unfold lift at 1.
    unfold mbind at 1. unfold Py_bind at 1. unfold logging at 1.
    unfold mbind at 1. unfold Py_bind at 1. unfold lift at 1.
    rewrite (validate_data_passes cfg df (floats_are_columns _ _ Hfloat')).
    unfold mbind at 1. unfold Py_bind at 1. rewrite Hfill.
    unfold mbind at 1. unfold Py_bind at 1. rewrite Hscale.
    reflexivity.
  - intros f xs Hf Hxs. apply Hscaled; [exact Hf|]. apply Hfilled; assumption.
Qed.

Lemma fillna_complete (m : Q) (xs : list (option Q)) : None ∉ fillna (Some m) xs.
Proof.
  unfold fillna. intros Hin. apply list_elem_of_fmap in Hin as (x & Hx & _).
  discriminate.
Qed.

Lemma fit_transform_col_complete (xs : list (option Q)) :
  None ∉ xs -> None ∉ snd (fit_transform_col xs).
Proof.
  intros Hxs. destruct (decide (present xs = [])) as [Hnone|Hsome].
  - rewrite fit_transform_col_missing by exact Hnone. exact Hxs.
  - rewrite (fit_transform_col_present xs Hsome).
    intros Hin. apply list_elem_of_fmap in Hin as ([x|] & Hx & Hin).
    + simpl in Hx.
      rewrite standardise_Some in Hx by apply column_scale_nonzero.
      discriminate.
    + contradiction.
Qed.

Lemma mean_of_some (xs : list (option Q)) (v : Q) :
  Some v ∈ xs -> exists m, mean xs = Some m.
Proof.
  intros Hin. destruct (mean xs) as [m|] eqn:Hm; [eauto|].
  apply mean_none in Hm. rewrite Forall_forall in Hm.
  specialize (Hm _ Hin). discriminate.
Qed.

Lemma elem_of_nonempty {A : Type} (x : A) (l : list A) : x ∈ l -> l <> [].
Proof. intros Hin ->. apply elem_of_nil in Hin. contradiction. Qed.

(** X9. Over a table in which every configured feature is a numeric column
    with at least one value present, loading and preprocessing succeed,
    and no configured feature has a missing value left in the result; the
    columns keep their lengths. *)
Theorem preprocessed_features_are_complete (cfg : Config) (df : DataFrame)
    (s : State) :
  features cfg <> [] ->
  (forall f, f ∈ features cfg ->
     exists xs v, get_col f df = Some (Float xs) /\ Some v ∈ xs) ->
  exists df' s',
    load_and_preprocess_data cfg (Returned df) s = (Returned df', s') /\
    forall f xs, f ∈ features cfg -> get_col f df = Some (Float xs) ->
      exists ys,
        get_col f df' = Some (Float ys) /\ length ys = length xs /\ None ∉ ys.
Proof.
  intros Hne Hsome.
  destruct (load_and_preprocess_run cfg df s Hne) as (df' & s' & Hrun & Hcols).
  { intros f Hf. destruct (Hsome f Hf) as (xs & v & Hxs & Hv).
    exists xs. split; [eapply elem_of_nonempty; exact Hv|exact Hxs]. }
  exists df', s'. split; [exact Hrun|].
  intros f xs Hf Hxs. eexists. split; [exact (Hcols f xs Hf Hxs)|]. split.
  - rewrite fit_transform_col_length. apply fillna_length.
  - apply fit_transform_col_complete.
    destruct (Hsome f Hf) as (xs' & v & Hxs' & Hv).
    rewrite Hxs in Hxs'. injection Hxs' as <-.
    destruct (mean_of_some xs v Hv) as [m ->]. apply fillna_complete.
Qed.

(** ** The pipeline over a well-formed table *)

Lemma validate_params_accepts (cfg : Config) :
  (1 <= n_estimators cfg)%Z ->
  (0 < contamination cfg)%Q -> (contamination cfg <= 0.5)%Q ->
  validate_params cfg = Returned tt.
Proof.
  intros Hn Hlo Hhi. unfold validate_params.
  rewrite decide_False by lia.
  rewrite !bool_decide_eq_true_2 by assumption. reflexivity.
Qed.

Lemma no_nan_among (sel : list (string * column)) :
  Forall (fun nc => exists xs, snd nc = Float xs /\ None ∉ xs) sel ->
  existsb has_nan (map (fun nc => numbers (snd nc)) sel) = false.
Proof.
  induction 1 as [|nc sel (xs & Hxs & Hnone) _ IH]; [reflexivity|].
  simpl. rewrite IH, Hxs. simpl. rewrite orb_false_r.
  unfold has_nan. clear Hxs. induction xs as [|[x|] xs IHxs]; [reflexivity| |].
  - simpl. apply IHxs. intros Hin. apply Hnone. apply elem_of_cons. auto.
  - elim Hnone. apply elem_of_cons. auto.
Qed.

Lemma preprocessed_column_complete (xs : list (option Q)) (v : Q) :
  Some v ∈ xs ->
  length (snd (fit_transform_col (fillna (mean xs) xs))) = length xs /\
  None ∉ snd (fit_transform_col (fillna (mean xs) xs)).
Proof.
  intros Hv. split.
  - rewrite fit_transform_col_length. apply fillna_length.
  - apply fit_transform_col_complete.
    destruct (mean_of_some xs v Hv) as [m ->]. apply fillna_complete.
Qed.

(** X10. The whole pipeline over a well-formed table.  With valid
    estimator parameters and a feature list that is not empty and does not
    name the label column, a table in which every configured feature is a
    numeric column as long as the table, with at least one value present,
    goes through loading, preprocessing and detection: every record gets
    one of the two labels and a score. *)
Theorem well_formed_table_is_labelled (cfg : Config) (df : DataFrame) (s : State) :
  features cfg <> [] -> "anomaly" ∉ features cfg ->
  (1 <= n_estimators cfg)%Z ->
  (0 < contamination cfg)%Q -> (contamination cfg <= 0.5)%Q ->
  (forall f, f ∈ features cfg ->
     exists xs v,
       get_col f df = Some (Float xs) /\ length xs = nrows df /\ Some v ∈ xs) ->
  exists df' s' labels scores,
    run_pipeline cfg (Returned df) s = (Returned df', s') /\
    get_col "anomaly" df' = Some (Object labels) /\
    get_col "anomaly_score" df' = Some (Float scores) /\
    length labels = nrows df /\ length scores = nrows df /\
    Forall (fun l => l = Some "Normal" \/ l = Some "Anomaly") labels /\
    None ∉ scores.
Proof.
  intros Hne Hnot Hn Hlo Hhi Hsome.
  destruct (load_and_preprocess_run cfg df s Hne) as (df1 & s1 & Hpre & Hcols).
  { intros f Hf. destruct (Hsome f Hf) as (xs & v & Hxs & _ & Hv).
    exists xs. split; [eapply elem_of_nonempty; exact Hv|exact Hxs]. }
  assert (Hready : forall f, f ∈ features cfg ->
            exists ys, get_col f df1 = Some (Float ys) /\
                       length ys = nrows df /\ None ∉ ys).
  { intros f Hf. destruct (Hsome f Hf) as (xs & v & Hxs & Hlen & Hv).
    destruct (preprocessed_column_complete xs v Hv) as [Hl Hc].
    eexists. split; [exact (Hcols f xs Hf Hxs)|]. split; [lia|exact Hc]. }
  assert (Hrows : nrows df <> 0).
  { destruct (features cfg) as [|f0 fs] eqn:Hfs; [contradiction|].
    destruct (Hsome f0) as (xs & v & _ & Hlen & Hv);
      [apply elem_of_cons; auto|].
    rewrite <- Hlen. destruct xs; [apply elem_of_nil in Hv as []|discriminate]. }
  destruct (select_total (features cfg) df1) as [sel Hsel].
  { apply floats_are_columns. intros f Hf.
    destruct (Hready f Hf) as (ys & Hys & _). eauto. }
  assert (Hall : Forall (fun nc => exists ys, snd nc = Float ys /\
                           length ys = nrows df /\ None ∉ ys) sel).
  { apply (selected_columns_satisfy
             (fun c => exists ys, c = Float ys /\ length ys = nrows df /\ None ∉ ys)
             _ _ _ Hsel).
    intros f c Hf Hc. destruct (Hready f Hf) as (ys & Hys & Hlen & Hnone).
    rewrite Hys in Hc. injection Hc as <-. eauto. }
  assert (Hsne : sel <> []).
  { apply select_returned in Hsel as [Hnames _]. intros ->. simpl in Hnames.
    congruence. }
  assert (Hcheck : check_array false sel
                   = Returned (map (fun nc => numbers (snd nc)) sel)).
  { apply check_array_floats; [exact Hsne| |intros _; apply no_nan_among].
    - eapply Forall_impl; [exact Hall|]. intros nc (ys & Hys & Hlen & _).
      exists ys. split; [exact Hys|]. intros ->. simpl in Hlen. lia.
    - eapply Forall_impl; [exact Hall|]. intros nc (ys & Hys & _ & Hnone). eauto. }
  destruct (detect_anomalies_run_state cfg df1 sel _ s1 Hsel
              (validate_params_accepts cfg Hn Hlo Hhi) Hcheck Hnot)
    as (m & s' & df' & Hrun & Hdf & _).
  assert (Hlen : length (rows_of (map (fun nc => numbers (snd nc)) sel)) = nrows df).
  { rewrite rows_of_length. destruct sel as [|nc sel']; [contradiction|].
    apply Forall_cons in Hall as [(ys & Hys & Hl & _) _].
    simpl. rewrite Hys. exact Hl. }
  eexists df', s', _, _. split; [|split; [|split; [|split; [|split; [|split]]]]].
  - unfold run_pipeline. rewrite (bind_run _ _ _ _ _ Hpre). exact Hrun.
  - rewrite Hdf. rewrite get_col_set_col_ne by discriminate.
    apply get_col_set_col_eq.
  - rewrite Hdf. apply get_col_set_col_eq.
  - rewrite !length_map. exact Hlen.
  - rewrite !length_map. exact Hlen.
  - apply labels_are_normal_or_anomaly.
  - intros Hin. apply list_elem_of_fmap in Hin as (x & Hx & _). discriminate.
Qed.

(** ** Preprocessing that stops at validation *)

(** X11. When a configured feature is not a column of the table read,
    [load_and_preprocess_data] raises the [ValueError] of the validation
    with the set of the missing features.  The log gets the record of the
    load and then the record of the error, and nothing is imputed or
    scaled: no warning about missing values is recorded and the scaler of
    the detector is not touched. *)
Theorem missing_feature_stops_preprocessing (cfg : Config) (df : DataFrame)
    (s : State) (f : string) :
  f ∈ features cfg -> f ∉ columns df ->
  let e := ValueError (MissingRequiredFeatures (missing_features cfg df)) in
  exists s',
    load_and_preprocess_data cfg (Returned df) s = (Raised e, s') /\
    log s' = (log s ++ [(INFO, LoadedData); (ERROR, ErrorLoadingData e)])%list /\
    scaler s' = scaler s /\ model s' = model s.
Proof.
  intros Hf Habsent e.
  assert (Hv : _validate_data cfg df = Raised e).
  { apply validate_data_raises. split; [|reflexivity].
    intros Hempty.
    assert (Hin : f ∈ missing_features cfg df)
      by (apply elem_of_missing_features; auto).
    rewrite Hempty in Hin. apply elem_of_empty in Hin as []. }
  eexists. split; [|split; [|split]].
  - unfold load_and_preprocess_data. apply try_except_raised.
    unfold mbind at 1. unfold Py_bind at 1. unfold lift at 1.
    unfold mbind at 1. unfold Py_bind at 1. unfold logging at 1.
    unfold mbind at 1. unfold Py_bind at 1. unfold lift at 1.
    rewrite Hv. reflexivity.
  - simpl. rewrite <- app_assoc. reflexivity.
  - reflexivity.
  - reflexivity.
Qed.

(** ** Imputing twice *)

Lemma set_col_same (n : string) (c : column) (df : DataFrame) :
  get_col n df = Some c -> set_col n c df = df.
Proof.
  induction df as [|[n0 c0] df IH]; simpl; [discriminate|].
  destruct (String.eqb n0 n); [intros [= ->]; reflexivity|].
  intros Hc. rewrite IH by exact Hc. reflexivity.
Qed.

Lemma assign_selected (sel : list (string * column)) (df : DataFrame) :
  Forall (fun nc => get_col (fst nc) df = Some (snd nc)) sel ->
  assign sel df = df.
Proof.
  unfold assign. induction 1 as [|nc sel Hnc _ IH]; simpl; [reflexivity|].
  rewrite set_col_same by exact Hnc. exact IH.
Qed.

Lemma fillna_of_complete (m : option Q) (ys : list (option Q)) :
  None ∉ ys -> fillna m ys = ys.
Proof.
  intros Hnone. destruct m as [m|]; [|reflexivity]. simpl.
  induction ys as [|[y|] ys IH]; simpl; [reflexivity| |].
  - f_equal. apply IH. intros Hin. apply Hnone. apply elem_of_cons. auto.
  - elim Hnone. apply elem_of_cons. auto.
Qed.

Lemma fillna_mean_idempotent (xs : list (option Q)) :
  fillna (mean (fillna (mean xs) xs)) (fillna (mean xs) xs) = fillna (mean xs) xs.
Proof.
  destruct (mean xs) as [m|] eqn:Hm.
  - apply fillna_of_complete. apply fillna_complete.
  - simpl. rewrite Hm. reflexivity.
Qed.

Lemma fill_with_mean_floats (sel filled : list (string * column)) :
  traverse fill_with_mean sel = Returned filled ->
  Forall (fun nc => exists xs, snd nc = Float xs) sel.
Proof.
  intros Hfill. apply traverse_returned in Hfill.
  induction Hfill as [|nc nc' sel filled Hnc _ IH]; constructor; [|exact IH].
  unfold fill_with_mean in Hnc. destruct (snd nc); [eauto|discriminate..].
Qed.

Lemma fill_with_mean_fixed (sel : list (string * column)) :
  Forall (fun nc => exists ys, snd nc = Float ys /\ fillna (mean ys) ys = ys) sel ->
  traverse fill_with_mean sel = Returned sel.
Proof.
  induction 1 as [|[n c] sel (ys & Hys & Hfix) _ IH]; simpl; [reflexivity|].
  simpl in Hys. subst c. unfold fill_with_mean at 1. simpl.
  rewrite Hfix, IH. reflexivity.
Qed.

Lemma any_missing_false (sel : list (string * column)) :
  Forall (fun nc => exists ys, snd nc = Float ys /\ None ∉ ys) sel ->
  any_missing sel = false.
Proof.
  unfold any_missing, missing_stats_of.
  induction 1 as [|nc sel (ys & Hys & Hnone) _ IH]; [reflexivity|].
  simpl. rewrite IH, Hys. simpl. rewrite orb_false_r.
  replace (filter (fun x => x = None) ys) with (@nil (option Q)); [reflexivity|].
  symmetry. clear Hys. induction ys as [|y ys IHys]; [reflexivity|].
  rewrite filter_cons. rewrite decide_False.
  - apply IHys. intros Hin. apply Hnone. apply elem_of_cons. auto.
  - intros ->. apply Hnone. apply elem_of_cons. auto.
Qed.

(** X12. Imputation is idempotent.  Running [_handle_missing_values] on a
    table it has returned succeeds and returns that very table; and when
    every configured feature had a value present, the second run finds
    nothing missing and records no warning. *)
Theorem imputation_is_idempotent (cfg : Config) (df df1 : DataFrame)
    (s s1 s2 : State) :
  _handle_missing_values cfg df s = (Returned df1, s1) ->
  exists s3,
    _handle_missing_values cfg df1 s2 = (Returned df1, s3) /\
    ((forall f xs, f ∈ features cfg -> get_col f df = Some (Float xs) ->
        exists v, Some v ∈ xs) ->
     s3 = s2).
Proof.
  intros Hrun.
  destruct (handle_missing_values_returned _ _ _ _ _ Hrun)
    as (sel & filled & Hsel & Hfill & _ & _).
  assert (Hfloat : forall f, f ∈ features cfg ->
                     exists xs, get_col f df = Some (Float xs)).
  { intros f Hf.
    pose proof (selected_names_are_columns _ _ _ Hsel f Hf) as Hcol.
    apply get_col_Some_columns in Hcol as [c Hc].
    pose proof (select_entry _ _ _ _ _ Hsel Hf Hc) as Hin.
    pose proof (fill_with_mean_floats _ _ Hfill) as Hall.
    rewrite Forall_forall in Hall. destruct (Hall _ Hin) as [xs Hxs].
    simpl in Hxs. subst c. eauto. }
  destruct (handle_missing_values_columns cfg df s Hfloat)
    as (df1' & s1' & Hrun' & Hcols & _).
  rewrite Hrun in Hrun'. injection Hrun' as <- <-.
  destruct (select_total (features cfg) df1) as [sel1 Hsel1].
  { apply floats_are_columns. intros f Hf. destruct (Hfloat f Hf) as [xs Hxs].
    rewrite (Hcols f xs Hf Hxs). eauto. }
  assert (Hfixed : traverse fill_with_mean sel1 = Returned sel1).
  { apply fill_with_mean_fixed.
    apply (selected_columns_satisfy
             (fun c => exists ys, c = Float ys /\ fillna (mean ys) ys = ys)
             _ _ _ Hsel1).
    intros f c Hf Hc. destruct (Hfloat f Hf) as [xs Hxs].
    rewrite (Hcols f xs Hf Hxs) in Hc. injection Hc as <-.
    eexists. split; [reflexivity|apply fillna_mean_idempotent]. }
  eexists. split.
  - rewrite (handle_missing_values_run cfg df1 sel1 sel1 s2 Hsel1 Hfixed).
    rewrite assign_selected; [reflexivity|].
    apply select_returned in Hsel1 as [_ Hall]. exact Hall.
  - intros Hsome. rewrite any_missing_false; [reflexivity|].
    apply (selected_columns_satisfy
             (fun c => exists ys, c = Float ys /\ None ∉ ys) _ _ _ Hsel1).
    intros f c Hf Hc. destruct (Hfloat f Hf) as [xs Hxs].
    rewrite (Hcols f xs Hf Hxs) in Hc. injection Hc as <-.
    destruct (Hsome f xs Hf Hxs) as [v Hv].
    destruct (mean_of_some xs v Hv) as [m ->].
    eexists. split; [reflexivity|apply fillna_complete].
Qed.

(** ** The generator of sample traffic: its list operations *)

Lemma loc_assign_length {A : Type} (mask : list bool) (values col : list A) :
  length (loc_assign mask values col) = length col.
Proof.
  revert values col. induction mask as [|[] mask IH]; intros values [|x col];
    simpl; try reflexivity.
  - destruct values; simpl; rewrite IH; reflexivity.
  - rewrite IH. reflexivity.
Qed.

Lemma loc_scale_length (mask : list bool) (factors col : list Q) :
  length (loc_scale mask factors col) = length col.
Proof.
  revert factors col. induction mask as [|[] mask IH]; intros factors [|x col];
    simpl; try reflexivity.
  - destruct factors; simpl; rewrite IH; reflexivity.
  - rewrite IH. reflexivity.
Qed.

Lemma loc_assign_lookup_false {A : Type} (mask : list bool) (values col : list A)
    (i : nat) :
  mask !! i = Some false -> loc_assign mask values col !! i = col !! i.
Proof.
  revert values col i. induction mask as [|b mask IH]; intros values col i Hi;
    [discriminate|].
  destruct col as [|x col]; [destruct b; reflexivity|].
  destruct i as [|i]; simpl in Hi.
  - injection Hi as ->. reflexivity.
  - destruct b; [destruct values|]; simpl; apply IH; exact Hi.
Qed.

Lemma count_true_cons (b : bool) (mask : list bool) :
  count_true (b :: mask) = (if b then 1 else 0) + count_true mask.
Proof.
  unfold count_true. rewrite filter_cons. destruct b.
  - rewrite decide_True by reflexivity. reflexivity.
  - rewrite decide_False by discriminate. reflexivity.
Qed.

Lemma count_true_le (mask : list bool) : count_true mask <= length mask.
Proof. unfold count_true. apply length_filter. Qed.

Lemma loc_assign_lookup_true {A : Type} (mask : list bool) (values col : list A)
    (i : nat) :
  count_true mask <= length values ->
  mask !! i = Some true -> i < length col ->
  exists v, v ∈ values /\ loc_assign mask values col !! i = Some v.
Proof.
  revert values col i. induction mask as [|b mask IH]; intros values col i Hn Hi Hlt;
    [discriminate|].
  destruct col as [|x col]; [simpl in Hlt; lia|].
  rewrite count_true_cons in Hn.
  destruct i as [|i]; simpl in Hi.
  - injection Hi as ->. destruct values as [|v values]; [simpl in Hn; lia|].
    exists v. split; [apply elem_of_cons; auto|reflexivity].
  - simpl in Hlt. destruct b.
    + destruct values as [|v values]; [simpl in Hn; lia|].
      destruct (IH values col i) as (w & Hw & Hlook);
        [simpl in Hn; lia|exact Hi|lia|].
      exists w. split; [apply elem_of_cons; auto|exact Hlook].
    + destruct (IH values col i) as (w & Hw & Hlook); [lia|exact Hi|lia|].
      exists w. split; [exact Hw|exact Hlook].
Qed.

Lemma loc_fill_lookup_true {A : Type} (mask : list bool) (value : A) (col : list A)
    (i : nat) :
  length mask = length col -> mask !! i = Some true ->
  loc_fill mask value col !! i = Some value.
Proof.
  intros Hlen Hi. unfold loc_fill.
  destruct (loc_assign_lookup_true mask (repeat value (length col)) col i)
    as (v & Hv & Hlook).
  - rewrite repeat_length, <- Hlen. apply count_true_le.
  - exact Hi.
  - rewrite <- Hlen. eapply lookup_lt_Some. exact Hi.
  - apply list_elem_of_In, repeat_spec in Hv. subst v. exact Hlook.
Qed.

Lemma loc_fill_lookup_false {A : Type} (mask : list bool) (value : A) (col : list A)
    (i : nat) :
  mask !! i = Some false -> loc_fill mask value col !! i = col !! i.
Proof. apply loc_assign_lookup_false. Qed.

Lemma loc_fill_length {A : Type} (mask : list bool) (value : A) (col : list A) :
  length (loc_fill mask value col) = length col.
Proof. apply loc_assign_length. Qed.

Lemma port_mask_lookup (p : Z) (ports : list Z) (i : nat) (d : Z) :
  ports !! i = Some d ->
  map (fun d => bool_decide (d = p)) ports !! i = Some (bool_decide (d = p)).
Proof. intros Hd. rewrite list_lookup_fmap, Hd. reflexivity. Qed.

Lemma date_range_every_minute (start periods : Z) :
  (0 <= periods)%Z ->
  date_range start periods
  = Returned (map (fun k => (start + Z.of_nat k * minute)%Z)
                (seq 0 (Z.to_nat periods))).
Proof. intros Hp. unfold date_range. rewrite decide_False by lia. reflexivity. Qed.

Lemma minutes_are_sorted (start : Z) (n : nat) :
  StronglySorted Z.le (map (fun k => (start + Z.of_nat k * minute)%Z) (seq 0 n)).
Proof.
  generalize 0 as j. induction n as [|n IH]; intros j; simpl; constructor;
    [apply IH|].
  apply Forall_forall. intros t Ht.
  apply list_elem_of_fmap in Ht as (k & -> & Hk).
  apply elem_of_seq in Hk. unfold minute. lia.
Qed.

Lemma take_rows_seq {A : Type} (d : A) (col : list A) :
  take_rows d (seq 0 (length col)) col = col.
Proof.
  unfold take_rows. apply list_eq. intros i. rewrite list_lookup_fmap.
  destruct (decide (i < length col)) as [Hlt|Hge].
  - rewrite lookup_seq_lt by exact Hlt. simpl.
    destruct (lookup_lt_is_Some_2 col i Hlt) as [x Hx].
    rewrite Hx. f_equal. apply nth_lookup_Some. exact Hx.
  - rewrite lookup_seq_ge by lia. simpl. symmetry. apply lookup_ge_None. lia.
Qed.

Lemma take_rows_all {A : Type} (d : A) (n : nat) (col : list A) :
  length col = n -> take_rows d (seq 0 n) col = col.
Proof. intros <-. apply take_rows_seq. Qed.

Lemma take_rows_length {A : Type} (d : A) (order : list nat) (col : list A) :
  length (take_rows d order col) = length order.
Proof. unfold take_rows. apply length_map. Qed.

Lemma merge_sort_of_sorted (l l' : list Z) :
  StronglySorted Z.le l -> l' ≡ₚ l -> merge_sort Z.le l' = l.
Proof.
  intros Hs Hp. apply (StronglySorted_unique Z.le).
  - apply StronglySorted_merge_sort; apply _.
  - exact Hs.
  - rewrite merge_sort_Permutation. exact Hp.
Qed.

Lemma shuffled_and_sorted (ts : list Z) (positions : list nat) :
  StronglySorted Z.le ts -> positions ≡ₚ seq 0 (length ts) ->
  merge_sort Z.le (take_rows 0%Z positions ts) = ts.
Proof.
  intros Hs Hp. apply merge_sort_of_sorted; [exact Hs|].
  rewrite <- (take_rows_seq 0%Z ts) at 2. unfold take_rows.
  apply Permutation_map. exact Hp.
Qed.

Lemma argsort_of_sorted (ts : list Z) :
  StronglySorted Z.le ts -> argsort ts = seq 0 (length ts).
Proof.
  intros Hs. unfold argsort.
  set (R := fun a b : Z * nat =>
              (fst a < fst b)%Z \/ (fst a = fst b /\ snd a <= snd b)).
  assert (Htrans : Transitive R).
  { intros [a i] [b j] [c k]. unfold R. simpl. lia. }
  assert (Htotal : Total R).
  { intros [a i] [b j]. unfold R. simpl. lia. }
  assert (Hanti : AntiSymm eq R).
  { intros [a i] [b j]. unfold R. simpl. intros H1 H2. f_equal; lia. }
  assert (Hpairs : forall j, StronglySorted R (zip ts (seq j (length ts)))).
  { induction Hs as [|t ts Hs IH Hall]; intros j; simpl; constructor; [apply IH|].
    apply Forall_forall. intros [u k] Hin.
    pose proof (elem_of_zip_l _ _ _ _ Hin) as Hu.
    pose proof (elem_of_zip_r _ _ _ _ Hin) as Hk.
    apply elem_of_seq in Hk. rewrite Forall_forall in Hall.
    specialize (Hall u Hu). unfold R. simpl. lia. }
  rewrite (StronglySorted_unique R _ (zip ts (seq 0 (length ts)))).
  - apply snd_zip. rewrite length_seq. lia.
  - apply StronglySorted_merge_sort; assumption.
  - apply Hpairs.
  - apply merge_sort_Permutation.
Qed.

Lemma int_of_share (n : nat) :
  Z.to_nat (int_of (inject_Z (Z.of_nat n) * 0.85)) <= n.
Proof.
  unfold int_of. case_decide as Hneg.
  - exfalso. assert (0 <= inject_Z (Z.of_nat n))%Q
      by (rewrite <- (Zle_Qle 0); lia). lra.
  - assert (Hle : (Qfloor (inject_Z (Z.of_nat n) * 0.85) <= Z.of_nat n)%Z).
    { rewrite <- (Qfloor_Z (Z.of_nat n)) at 2. apply Qfloor_resp_le.
      assert (0 <= inject_Z (Z.of_nat n))%Q by (rewrite <- (Zle_Qle 0); lia).
      lra. }
    lia.
Qed.

Lemma anomaly_sizes_add_up (n : nat) :
  (n / 3 + (if decide (0 < n mod 3) then 1 else 0))
  + (n / 3 + (if decide (1 < n mod 3) then 1 else 0)) + n / 3 = n.
Proof.
  pose proof (Nat.div_mod_eq n 3) as Hdm.
  pose proof (Nat.mod_upper_bound n 3 ltac:(lia)) as Hlt.
  repeat case_decide; lia.
Qed.

Lemma protocol_follows_port (ports : list Z) (protocol on80 on443 : list string)
    (i : nat) (p : Z) (proto : string) :
  length protocol = length ports ->
  length on80 = count_true (map (fun d => bool_decide (d = 80%Z)) ports) ->
  length on443 = count_true (map (fun d => bool_decide (d = 443%Z)) ports) ->
  (forall x, x ∈ on80 -> x ∈ ["HTTP"; "TCP"]) ->
  (forall x, x ∈ on443 -> x ∈ ["HTTPS"; "TCP"]) ->
  ports !! i = Some p ->
  loc_fill (map (fun d => bool_decide (d = 21%Z)) ports) "FTP"
    (loc_fill (map (fun d => bool_decide (d = 22%Z)) ports) "SSH"
       (loc_assign (map (fun d => bool_decide (d = 443%Z)) ports) on443
          (loc_assign (map (fun d => bool_decide (d = 80%Z)) ports) on80
             protocol))) !! i = Some proto ->
  (p = 22%Z -> proto = "SSH") /\ (p = 21%Z -> proto = "FTP") /\
  (p = 80%Z -> proto ∈ ["HTTP"; "TCP"]) /\
  (p = 443%Z -> proto ∈ ["HTTPS"; "TCP"]).
Proof.
  intros Hlen H80 H443 Hin80 Hin443 Hp Hproto.
  assert (Hmask : forall q,
            map (fun d => bool_decide (d = q)) ports !! i
            = Some (bool_decide (p = q)))
    by (intros q; apply port_mask_lookup; exact Hp).
  assert (Hi : i < length ports) by (eapply lookup_lt_Some; exact Hp).
  split; [|split; [|split]]; intros ->.
  - rewrite loc_fill_lookup_false in Hproto by (rewrite Hmask; reflexivity).
    rewrite loc_fill_lookup_true in Hproto; [congruence| |rewrite Hmask; reflexivity].
    rewrite !loc_assign_length, length_map. symmetry. exact Hlen.
  - rewrite loc_fill_lookup_true in Hproto; [congruence| |rewrite Hmask; reflexivity].
    rewrite loc_fill_length, !loc_assign_length, length_map. symmetry. exact Hlen.
  - rewrite !loc_fill_lookup_false in Hproto by (rewrite Hmask; reflexivity).
    rewrite loc_assign_lookup_false in Hproto by (rewrite Hmask; reflexivity).
    destruct (loc_assign_lookup_true
                (map (fun d => bool_decide (d = 80%Z)) ports) on80 protocol i)
      as (v & Hv & Hlook); [lia|rewrite Hmask; reflexivity|lia|].
    rewrite Hlook in Hproto. injection Hproto as <-. apply Hin80. exact Hv.
  - rewrite !loc_fill_lookup_false in Hproto by (rewrite Hmask; reflexivity).
    destruct (loc_assign_lookup_true
                (map (fun d => bool_decide (d = 443%Z)) ports) on443
                (loc_assign (map (fun d => bool_decide (d = 80%Z)) ports) on80
                   protocol) i)
      as (v & Hv & Hlook);
      [lia|rewrite Hmask; reflexivity|rewrite loc_assign_length; lia|].
    rewrite Hlook in Hproto. injection Hproto as <-. apply Hin443. exact Hv.
Qed.

(** ** The generator of sample traffic: its run

    The statements of this section are about [generate_sample_data] over
    any numpy whose draws have the sizes asked for ([NumpyLaws]), and for a
    duration of at least one hour.  The table is followed through the
    forty draws of the source, and the lengths that [pd.DataFrame] and the
    column assignments need to agree do agree. *)

Section Generator.
Context (laws : @NumpyLaws H).

Lemma returns_ret {A : Type} (P : A -> Prop) (a : A) :
  P a -> returns_with P (mret a).
Proof. intros Ha s. exists a, s. auto. Qed.

Lemma returns_bind {A B : Type} (P : A -> Prop) (Q : B -> Prop)
    (m : Py A) (k : A -> Py B) :
  returns_with P m -> (forall a, P a -> returns_with Q (k a)) ->
  returns_with Q (m ≫= k).
Proof.
  intros Hm Hk s. destruct (Hm s) as (a & s1 & Hrun & Ha).
  destruct (Hk a Ha s1) as (b & s2 & Hrun2 & Hb).
  exists b, s2. split; [|exact Hb].
  unfold mbind, Py_bind. rewrite Hrun. exact Hrun2.
Qed.

Lemma returns_draw {A : Type} (P : A -> Prop)
    (d : RandomState -> A * RandomState) :
  (forall r, P (fst (d r))) -> returns_with P (draw d).
Proof.
  intros Hd s. unfold draw. specialize (Hd (np_random s)).
  destruct (d (np_random s)) as [a r]. eexists _, _. split; [reflexivity|exact Hd].
Qed.

Lemma returns_lift {A : Type} (P : A -> Prop) (a : A) :
  P a -> returns_with P (lift (Returned a)).
Proof. intros Ha s. exists a, s. auto. Qed.

Ltac any_result :=
  eapply returns_bind;
  [instantiate (1 := fun _ => True); intros ?; eexists _, _;
   split; [reflexivity|exact I]
  |intros ? _].

Ltac any_draw x :=
  eapply returns_bind;
  [apply (returns_draw (fun _ => True)); intros ?; exact I|intros x _].

Ltac sized_draw law x Hx :=
  lazymatch goal with
  | |- returns_with _ (draw (?f ?n) ≫= _) =>
      eapply returns_bind;
      [apply (returns_draw (fun l => length l = n)); intros ?; apply law
      |intros x Hx; cbv beta in Hx]
  end.

Ltac chosen_draw x Hx Hin :=
  lazymatch goal with
  | |- returns_with _ (draw (choice ?l ?p ?n) ≫= _) =>
      eapply returns_bind;
      [apply (returns_draw (fun xs => length xs = n /\ forall x, x ∈ xs -> x ∈ l));
       intros ?; split;
       [apply choice_length; discriminate|intros ?; apply choice_among]
      |intros x [Hx Hin]; cbv beta in Hx, Hin]
  end.

Ltac lengths :=
  rewrite ?length_map, ?loc_scale_length, ?loc_fill_length, ?loc_assign_length,
    ?length_zip_with;
  lia.

Lemma generate_sample_data_run (start_date : option Z) (duration_hours : Z)
    (output_file : string) :
  (0 < duration_hours)%Z ->
  returns_with
    (fun df =>
       exists (start : Z) (bytes packets durations retrans bpp pps : list Q)
              (sports dports : list Z) (protocol : list string),
         df = [ ("bytes_transferred", Float (map Some (map Qabs bytes)));
                ("packet_count", Float (map Some (map Qabs packets)));
                ("connection_duration", Float (map Some (map Qabs durations)));
                ("source_port", Float (map (fun x => Some (inject_Z x)) sports));
                ("destination_port",
                 Float (map (fun x => Some (inject_Z x)) dports));
                ("retransmission_rate", Float (map Some (map Qabs retrans)));
                ("protocol", Object (map Some protocol));
                ("timestamp",
                 Datetime (map (fun k => (start + Z.of_nat k * minute)%Z)
                             (seq 0 (Z.to_nat (duration_hours * 60)))));
                ("bytes_per_packet", Float (map Some bpp));
                ("packets_per_second", Float (map Some pps)) ] /\
         (forall d, start_date = Some d -> start = d) /\
         Forall (fun l : list Q => length l = Z.to_nat (duration_hours * 60))
           [bytes; packets; durations; retrans; bpp; pps] /\
         Forall (fun l : list Z => length l = Z.to_nat (duration_hours * 60))
           [sports; dports] /\
         length protocol = Z.to_nat (duration_hours * 60) /\
         (forall i p proto,
            dports !! i = Some p -> protocol !! i = Some proto ->
            (p = 22%Z -> proto = "SSH") /\ (p = 21%Z -> proto = "FTP") /\
            (p = 80%Z -> proto ∈ ["HTTP"; "TCP"]) /\
            (p = 443%Z -> proto ∈ ["HTTPS"; "TCP"])))
    (generate_sample_data start_date duration_hours output_file).
Proof.
  intros Hpos. unfold generate_sample_data.
  any_result. any_result.
  eapply returns_bind.
  { instantiate (1 := fun d' => forall d, start_date = Some d -> d' = d).
    destruct start_date as [d|].
    - apply returns_ret. congruence.
    - intros s. eexists _, _. split; [reflexivity|discriminate]. }
  intros start Hstart. cbv beta in Hstart.
  rewrite date_range_every_minute by lia.
  pose proof (minutes_are_sorted start (Z.to_nat (duration_hours * 60))) as Hsorted.
  set (n := Z.to_nat (duration_hours * 60)) in *.
  set (ts := map (fun k => (start + Z.of_nat k * minute)%Z) (seq 0 n)) in *.
  assert (Hts : length ts = n) by (unfold ts; rewrite length_map, length_seq; reflexivity).
  eapply returns_bind; [apply (returns_lift (fun l => l = ts)); reflexivity|].
  intros ? ->.
  set (n_normal := Z.to_nat (int_of (inject_Z (Z.of_nat (length ts)) * 0.85))).
  set (n_anomalous := length ts - n_normal).
  set (size0 := n_anomalous / 3 + (if decide (0 < n_anomalous mod 3) then 1 else 0)).
  set (size1 := n_anomalous / 3 + (if decide (1 < n_anomalous mod 3) then 1 else 0)).
  set (size2 := n_anomalous / 3).
  assert (Hnormal : n_normal <= length ts) by apply int_of_share.
  assert (Hanomalous : n_normal + n_anomalous = length ts)
    by (unfold n_anomalous; lia).
  assert (Hsizes : size0 + size1 + size2 = n_anomalous)
    by apply anomaly_sizes_add_up.
  clearbody n_normal n_anomalous size0 size1 size2.
  any_draw normal_traffic_mean. any_draw normal_traffic_std.
  any_draw normal_packet_mean. any_draw normal_packet_std.
  any_draw anomaly_multiplier.
  sized_draw normal_length n_bytes Hn_bytes.
  sized_draw normal_length n_packets Hn_packets.
  sized_draw gamma_length n_duration Hn_duration.
  sized_draw randint_length n_source Hn_source.
  chosen_draw n_dest Hn_dest Hn_dest_in.
  sized_draw beta_length n_retrans Hn_retrans.
  sized_draw normal_length ddos_bytes Hddos_bytes.
  sized_draw normal_length ddos_packets Hddos_packets.
  sized_draw normal_length exfil_bytes Hexfil_bytes.
  sized_draw normal_length exfil_packets Hexfil_packets.
  sized_draw normal_length scan_bytes Hscan_bytes.
  sized_draw normal_length scan_packets Hscan_packets.
  sized_draw uniform_length a_duration0 Ha_duration0.
  sized_draw uniform_length a_duration1 Ha_duration1.
  sized_draw uniform_length a_duration2 Ha_duration2.
  sized_draw randint_length a_source Ha_source.
  chosen_draw a_dest0 Ha_dest0 Ha_dest0_in.
  chosen_draw a_dest1 Ha_dest1 Ha_dest1_in.
  sized_draw randint_length a_dest2 Ha_dest2.
  sized_draw beta_length a_retrans0 Ha_retrans0.
  sized_draw beta_length a_retrans1 Ha_retrans1.
  sized_draw beta_length a_retrans2 Ha_retrans2.
  set (bytes_transferred := (n_bytes ++ ddos_bytes ++ exfil_bytes ++ scan_bytes)%list).
  set (packet_count := (n_packets ++ ddos_packets ++ exfil_packets ++ scan_packets)%list).
  set (connection_duration := (n_duration ++ a_duration0 ++ a_duration1 ++ a_duration2)%list).
  set (source_port := (n_source ++ a_source)%list).
  set (destination_port := (n_dest ++ a_dest0 ++ a_dest1 ++ a_dest2)%list).
  set (retransmission_rate := (n_retrans ++ a_retrans0 ++ a_retrans1 ++ a_retrans2)%list).
  assert (Hbytes : length bytes_transferred = length ts)
    by (unfold bytes_transferred; rewrite !length_app; lia).
  assert (Hpackets : length packet_count = length ts)
    by (unfold packet_count; rewrite !length_app; lia).
  assert (Hdurations : length connection_duration = length ts)
    by (unfold connection_duration; rewrite !length_app; lia).
  assert (Hsource : length source_port = length ts)
    by (unfold source_port; rewrite !length_app; lia).
  assert (Hdest : length destination_port = length ts)
    by (unfold destination_port; rewrite !length_app; lia).
  assert (Hretrans : length retransmission_rate = length ts)
    by (unfold retransmission_rate; rewrite !length_app; lia).
  clearbody bytes_transferred packet_count connection_duration source_port
    destination_port retransmission_rate.
  rewrite !Hbytes. rewrite firstn_all.
  chosen_draw protocol Hprotocol Hprotocol_in.
  chosen_draw on80 Hon80 Hon80_in.
  chosen_draw on443 Hon443 Hon443_in.
  eapply returns_bind;
    [apply (returns_draw (fun l => l ≡ₚ seq 0 (length ts))); intros ?;
     apply sample_positions_all|].
  intros positions Hpositions. cbv beta in Hpositions.
  rewrite !(shuffled_and_sorted ts positions Hsorted Hpositions).
  rewrite !(argsort_of_sorted ts Hsorted).
  sized_draw normal_length noise1 Hnoise1.
  sized_draw normal_length noise2 Hnoise2.
  any_draw night. any_draw day.
  apply returns_ret.
  rewrite !take_rows_all by lengths.
  eexists start, _, _, _, _, _, _, _, _, _.
  split; [reflexivity|]. split; [exact Hstart|].
  split; [repeat constructor; lengths|].
  split; [repeat constructor; lengths|].
  split; [lengths|].
  intros i p proto Hp Hproto.
  apply (protocol_follows_port destination_port protocol on80 on443 i p proto);
    [lia|exact Hon80|exact Hon443|exact Hon80_in|exact Hon443_in|exact Hp
    |exact Hproto].
Qed.
(** X13. For a duration of at least one hour the generator returns a
    table with its ten columns, in the order of the source, and one record
    for each minute of the duration: every column has [60 * duration_hours]
    values. *)
Theorem generated_table_has_a_row_per_minute (start_date : option Z)
    (duration_hours : Z) (output_file : string) (s : State) :
  (0 < duration_hours)%Z ->
  exists df s',
    generate_sample_data start_date duration_hours output_file s
    = (Returned df, s') /\
    columns df
    = ["bytes_transferred"; "packet_count"; "connection_duration";
       "source_port"; "destination_port"; "retransmission_rate"; "protocol";
       "timestamp"; "bytes_per_packet"; "packets_per_second"] /\
    nrows df = Z.to_nat (duration_hours * 60) /\
    Forall (fun nc => col_length (snd nc) = Z.to_nat (duration_hours * 60)) df.
Proof.
  intros Hpos.
  destruct (generate_sample_data_run start_date duration_hours output_file Hpos s)
    as (df & s' & Hrun & start & bytes & packets & durations & retrans & bpp
        & pps & sports & dports & protocol & -> & _ & HQ & HZ & Hprotocol & _).
  eexists _, s'. split; [exact Hrun|]. split; [reflexivity|].
  rewrite !Forall_cons in HQ. rewrite !Forall_cons in HZ.
  destruct HQ as (Hb & Hp & Hd & Hr & Hbpp & Hpps & _), HZ as (Hs & Hdp & _).
  split; [simpl; rewrite !length_map; exact Hb|].
  repeat constructor; simpl; rewrite ?length_map, ?length_seq; auto.
Qed.

(** X14. For a duration of at least one hour, the four measures of which
    the generator takes the absolute value at the end (bytes transferred,
    packet count, connection duration and retransmission rate) have no
    missing and no negative value in the table it returns. *)
Theorem generated_measures_are_non_negative (start_date : option Z)
    (duration_hours : Z) (output_file : string) (s : State) :
  (0 < duration_hours)%Z ->
  exists df s',
    generate_sample_data start_date duration_hours output_file s
    = (Returned df, s') /\
    forall name,
      name ∈ ["bytes_transferred"; "packet_count"; "connection_duration";
              "retransmission_rate"] ->
      exists xs,
        get_col name df = Some (Float xs) /\
        Forall (fun x => exists v, x = Some v /\ (0 <= v)%Q) xs.
Proof.
  intros Hpos.
  destruct (generate_sample_data_run start_date duration_hours output_file Hpos s)
    as (df & s' & Hrun & start & bytes & packets & durations & retrans & bpp
        & pps & sports & dports & protocol & -> & _).
  eexists _, s'. split; [exact Hrun|].
  assert (Habs : forall l : list Q,
            Forall (fun x => exists v, x = Some v /\ (0 <= v)%Q)
              (map Some (map Qabs l))).
  { intros l. rewrite !Forall_fmap. apply Forall_forall. intros v _.
    exists (Qabs v). split; [reflexivity|apply Qabs_nonneg]. }
  intros name Hname.
  repeat (apply elem_of_cons in Hname as [->|Hname];
          [eexists; split; [reflexivity|apply Habs]|]).
  apply elem_of_nil in Hname. contradiction.
Qed.

(** X15. Called with a start date and a duration of at least one hour,
    the generator stamps the records with the minutes that follow the
    date, in order and each one once: the record at position [k] bears
    [start + k] minutes.  The shuffle of the timestamps is undone by the
    sort that follows it. *)
Theorem generated_timestamps_are_the_minutes (start : Z) (duration_hours : Z)
    (output_file : string) (s : State) :
  (0 < duration_hours)%Z ->
  exists df s',
    generate_sample_data (Some start) duration_hours output_file s
    = (Returned df, s') /\
    get_col "timestamp" df
    = Some (Datetime (map (fun k => (start + Z.of_nat k * minute)%Z)
                        (seq 0 (Z.to_nat (duration_hours * 60))))).
Proof.
  intros Hpos.
  destruct (generate_sample_data_run (Some start) duration_hours output_file
              Hpos s)
    as (df & s' & Hrun & start' & bytes & packets & durations & retrans & bpp
        & pps & sports & dports & protocol & -> & Hstart & _).
  eexists _, s'. split; [exact Hrun|].
  rewrite (Hstart start eq_refl). reflexivity.
Qed.

(** X16. In the table generated for a duration of at least one hour the
    protocol follows the destination port: a record to port 22 is ["SSH"],
    one to port 21 is ["FTP"], one to port 80 is ["HTTP"] or ["TCP"] and
    one to port 443 is ["HTTPS"] or ["TCP"]. *)
Theorem generated_protocol_follows_port (start_date : option Z)
    (duration_hours : Z) (output_file : string) (s : State) :
  (0 < duration_hours)%Z ->
  exists df s' ports protocols,
    generate_sample_data start_date duration_hours output_file s
    = (Returned df, s') /\
    get_col "destination_port" df = Some (Float ports) /\
    get_col "protocol" df = Some (Object protocols) /\
    length ports = length protocols /\
    forall i proto,
      protocols !! i = Some proto ->
      (ports !! i = Some (Some 22%Q) -> proto = Some "SSH") /\
      (ports !! i = Some (Some 21%Q) -> proto = Some "FTP") /\
      (ports !! i = Some (Some 80%Q) ->
       proto = Some "HTTP" \/ proto = Some "TCP") /\
      (ports !! i = Some (Some 443%Q) ->
       proto = Some "HTTPS" \/ proto = Some "TCP").
Proof.
  intros Hpos.
  destruct (generate_sample_data_run start_date duration_hours output_file Hpos s)
    as (df & s' & Hrun & start & bytes & packets & durations & retrans & bpp
        & pps & sports & dports & protocol & -> & _ & _ & HZ & Hprotocol & Hlink).
  eexists _, s', _, _. split; [exact Hrun|].
  split; [reflexivity|]. split; [reflexivity|].
  rewrite !Forall_cons in HZ. destruct HZ as (_ & Hdp & _).
  split; [rewrite !length_map; lia|].
  intros i proto Hproto.
  rewrite list_lookup_fmap in Hproto.
  destruct (protocol !! i) as [name|] eqn:Hname; [|discriminate].
  injection Hproto as <-.
  assert (Hport : forall q : Z,
            map (fun x => Some (inject_Z x)) dports !! i = Some (Some (inject_Z q)) ->
            dports !! i = Some q).
  { intros q Hq. rewrite list_lookup_fmap in Hq.
    destruct (dports !! i) as [p|]; [|discriminate].
    injection Hq as ->. reflexivity. }
  split; [|split; [|split]]; intros Hq; apply (Hport _) in Hq;
    destruct (Hlink i _ name Hq Hname) as (H22 & H21 & H80 & H443).
  - rewrite H22; reflexivity.
  - rewrite H21; reflexivity.
  - specialize (H80 eq_refl). apply elem_of_cons in H80 as [->|H80]; [auto|].
    apply list_elem_of_singleton in H80 as ->. auto.
  - specialize (H443 eq_refl). apply elem_of_cons in H443 as [->|H443]; [auto|].
    apply list_elem_of_singleton in H443 as ->. auto.
Qed.

End Generator.

(** ** Tables without gaps *)

(** X18. A table in which no configured feature has a missing value goes
    through [_handle_missing_values] untouched: the table returned is the
    table given, and nothing is handed to the log. *)
Theorem complete_table_is_left_alone (cfg : Config) (df : DataFrame) (s : State) :
  (forall f, f ∈ features cfg ->
     exists xs, get_col f df = Some (Float xs) /\ None ∉ xs) ->
  _handle_missing_values cfg df s = (Returned df, s).
Proof.
  intros Hcomplete.
  destruct (select_total (features cfg) df) as [sel Hsel].
  { apply floats_are_columns. intros f Hf.
    destruct (Hcomplete f Hf) as (xs & Hxs & _). eauto. }
  assert (Hall : Forall (fun nc => exists ys, snd nc = Float ys /\ None ∉ ys) sel).
  { apply (selected_columns_satisfy
             (fun c => exists ys, c = Float ys /\ None ∉ ys) _ _ _ Hsel).
    intros f c Hf Hc. destruct (Hcomplete f Hf) as (xs & Hxs & Hnone).
    rewrite Hxs in Hc. injection Hc as <-. eauto. }
  assert (Hfixed : traverse fill_with_mean sel = Returned sel).
  { apply fill_with_mean_fixed. eapply Forall_impl; [exact Hall|].
    intros nc (ys & Hys & Hnone). exists ys. split; [exact Hys|].
    apply fillna_of_complete. exact Hnone. }
  rewrite (handle_missing_values_run cfg df sel sel s Hsel Hfixed).
  rewrite (any_missing_false sel Hall). rewrite assign_selected; [reflexivity|].
  apply select_returned in Hsel as [_ Hsel]. exact Hsel.
Qed.

(** ** What the verdicts depend on *)

(** The run of [detect_anomalies] once the forest is fitted. *)
Lemma detect_anomalies_after_fit (cfg : Config) (df : DataFrame)
    (sel : list (string * column)) (cols : list (list (option Q)))
    (m : Model) (s s1 : State) :
  select (features cfg) df = Returned sel ->
  check_array false sel = Returned cols ->
  "anomaly" ∉ features cfg ->
  fit cfg sel
    {| clock := clock s; np_random := np_random s; log := log s;
       scaler := scaler s; model := None |} = (Returned m, s1) ->
  exists s',
    detect_anomalies cfg df s
    = (Returned
         (set_col "anomaly_score"
            (Float (map Some (map (raw_score (trees m)) (rows_of cols))))
            (set_col "anomaly"
               (Object (map label_of
                          (map (fun p => Some (inject_Z p))
                             (map (predict_row m) (rows_of cols)))))
               df)), s').
Proof.
  intros Hsel Hcols Hnot Hfit. eexists.
  unfold detect_anomalies, try_except.
  unfold mbind at 1. unfold Py_bind at 1. unfold unset_model at 1.
  unfold mbind at 1. unfold Py_bind at 1. unfold lift at 1. rewrite Hsel.
  unfold mbind at 1. unfold Py_bind at 1.
  unfold fit_predict at 1. unfold mbind at 1. unfold Py_bind at 1.
  rewrite Hfit.
  unfold mbind at 1. unfold Py_bind at 1.
  unfold predict at 1. unfold mbind at 1. unfold Py_bind at 1.
  unfold lift at 1. rewrite Hcols. unfold mret at 1 2. unfold Py_ret at 1 2.
  unfold mbind at 1. unfold Py_bind at 1. unfold lift at 1.
  unfold getitem at 1. rewrite get_col_set_col_eq.
  simpl series_map. rewrite set_col_set_col.
  unfold mbind at 1. unfold Py_bind at 1. unfold lift at 1.
  rewrite select_set_col_other by exact Hnot. rewrite Hsel.
  unfold mbind at 1. unfold Py_bind at 1.
  unfold score_samples at 1. unfold mbind at 1. unfold Py_bind at 1.
  unfold lift at 1. rewrite Hcols. unfold mret at 1. unfold Py_ret at 1.
  unfold mbind at 1. unfold Py_bind at 1.
  unfold _log_anomaly_stats at 1.
  unfold mbind at 1 2. unfold Py_bind at 1 2. unfold lift at 1 2.
  unfold getitem.
  rewrite get_col_set_col_ne by discriminate. rewrite get_col_set_col_eq.
  rewrite get_col_set_col_eq. unfold logging. reflexivity.
Qed.

(** X19. With an integer [random_state], the verdicts depend on the table
    through the configured features only.  When detection returns on a
    table, it returns on every table that has the same columns under the
    configured features, from any process state, with the same labels and
    the same scores: the other columns play no part. *)
Theorem verdicts_depend_on_the_features_only (cfg : Config) (seed : Z)
    (df1 df2 df1' : DataFrame) (s1 s1' s2 : State) :
  random_state cfg = Some seed ->
  (forall f, f ∈ features cfg -> get_col f df2 = get_col f df1) ->
  detect_anomalies cfg df1 s1 = (Returned df1', s1') ->
  exists df2' s2',
    detect_anomalies cfg df2 s2 = (Returned df2', s2') /\
    get_col "anomaly" df2' = get_col "anomaly" df1' /\
    get_col "anomaly_score" df2' = get_col "anomaly_score" df1'.
Proof.
  intros Hseed Hsame Hrun.
  destruct (detect_anomalies_returned cfg df1 df1' s1 s1' Hrun)
    as (sel & cols & _ & Hsel & Hval & Hcols & _ & Hnot & _).
  destruct (fit_run cfg sel cols
              {| clock := clock s1; np_random := np_random s1; log := log s1;
                 scaler := scaler s1; model := None |} Hval Hcols)
    as (m & sf & Hfit & _).
  destruct (detect_anomalies_after_fit cfg df1 sel cols m s1 sf Hsel Hcols Hnot Hfit)
    as [s1'' Hrun1].
  rewrite Hrun in Hrun1. injection Hrun1 as -> _.
  assert (Hsel2 : select (features cfg) df2 = Returned sel)
    by (rewrite (select_ext _ df2 df1 Hsame); exact Hsel).
  destruct (detect_anomalies_after_fit cfg df2 sel cols m s1 sf Hsel2 Hcols Hnot Hfit)
    as [s2'' Hrun2].
  eexists _, (snd (detect_anomalies cfg df2 s2)). split.
  - apply run_returns.
    rewrite (detect_anomalies_independent cfg df2 seed Hseed s2 s1), Hrun2.
    reflexivity.
  - split.
    + rewrite !(get_col_set_col_ne "anomaly" "anomaly_score") by discriminate.
      rewrite !get_col_set_col_eq. reflexivity.
    + rewrite !get_col_set_col_eq. reflexivity.
Qed.
End More.

(** ** The names that [allowed_file] accepts *)

Lemma rpartition_Some (sep : Ascii.ascii) (s before after : string) :
  rpartition sep s = Some (before, after) <->
  s = (before ++ String sep after)%string /\ contains sep after = false.
Proof.
  revert before after. induction s as [|c s IH]; intros before after; simpl.
  - split; [discriminate|]. intros [Hs _]. destruct before; discriminate.
  - destruct (rpartition sep s) as [[b a]|] eqn:Hr.
    + split.
      * intros [= <- <-]. destruct (proj1 (IH b a) eq_refl) as [-> Hno].
        split; [reflexivity|exact Hno].
      * intros [Hs Hno]. destruct before as [|c' before]; simpl in Hs.
        -- injection Hs as -> ->.
           assert (Hnone : rpartition sep after = None).
           { clear -Hno. induction after as [|c after IH]; [reflexivity|].
             simpl in *. apply orb_false_elim in Hno as [Hc Hno].
             rewrite (IH Hno), Hc. reflexivity. }
           congruence.
        -- injection Hs as -> ->.
           assert (Heq : Some (b, a) = Some (before, after))
             by (apply IH; auto).
           injection Heq as -> ->. reflexivity.
    + assert (Hnone : forall b a, ~ (s = (b ++ String sep a)%string
                                     /\ contains sep a = false)).
      { intros b a Hba. apply IH in Hba. discriminate. }
      destruct (Ascii.eqb c sep) eqn:Hc.
      * apply Ascii.eqb_eq in Hc as ->. split.
        -- intros [= <- <-]. split; [reflexivity|].
           clear -Hr. induction s as [|c s IH]; [reflexivity|].
           simpl in *. destruct (rpartition sep s) as [[b a]|]; [discriminate|].
           destruct (Ascii.eqb c sep); [discriminate|]. simpl. apply IH.
           reflexivity.
        -- intros [Hs Hno]. destruct before as [|c' before]; simpl in Hs.
           ++ injection Hs as ->. reflexivity.
           ++ injection Hs as -> ->. elim (Hnone before after). auto.
      * split; [discriminate|]. intros [Hs Hno].
        destruct before as [|c' before]; simpl in Hs.
        -- injection Hs as -> ->. rewrite Ascii.eqb_refl in Hc. discriminate.
        -- injection Hs as -> ->. elim (Hnone before after). auto.
Qed.

Lemma contains_rpartition (sep : Ascii.ascii) (s : string) :
  contains sep s = true -> exists before after, rpartition sep s = Some (before, after).
Proof.
  induction s as [|c s IH]; simpl; [discriminate|].
  intros Hc. destruct (rpartition sep s) as [[b a]|]; [eauto|].
  destruct (Ascii.eqb c sep); [eauto|]. simpl in Hc.
  destruct (IH Hc) as (b & a & Hba). discriminate.
Qed.

Lemma contains_append (sep : Ascii.ascii) (before after : string) :
  contains sep (before ++ String sep after)%string = true.
Proof.
  induction before as [|c before IH]; simpl.
  - rewrite Ascii.eqb_refl. reflexivity.
  - rewrite IH. apply orb_true_r.
Qed.

(** X17. [allowed_file] never fails, and it accepts a name exactly when
    the text after the last dot of the name is [csv] in any mix of upper
    and lower case.  A name without a dot is refused; what comes before
    the last dot does not matter. *)
Theorem allowed_file_checks_the_last_extension (filename : string) :
  exists b,
    allowed_file filename = Some b /\
    (b = true <->
     exists stem ext,
       filename = (stem ++ "." ++ ext)%string /\
       contains dot ext = false /\ lower ext = "csv").
Proof.
  unfold allowed_file. destruct (contains dot filename) eqn:Hdot.
  - destruct (contains_rpartition _ _ Hdot) as (stem & ext & Hcut).
    unfold rsplit. rewrite Hcut. simpl.
    eexists. split; [reflexivity|].
    apply rpartition_Some in Hcut as [-> Hno].
    rewrite bool_decide_eq_true. unfold allowed_extensions.
    rewrite elem_of_singleton. split.
    + intros Hext. exists stem, ext. auto.
    + intros (stem' & ext' & Heq & Hno' & Hext').
      assert (Hsame : Some (stem, ext) = Some (stem', ext')).
      { rewrite <- (proj2 (rpartition_Some dot _ stem ext) (conj eq_refl Hno)).
        apply rpartition_Some. auto. }
      injection Hsame as -> ->. exact Hext'.
  - exists false. split; [reflexivity|]. split; [discriminate|].
    intros (stem & ext & -> & _).
    enough (Habsurd : true = false) by discriminate.
    rewrite <- Hdot. symmetry. exact (contains_append dot stem ext).
Qed.

(** ** The small instance follows the laws of numpy *)

Lemma stream_length (n : nat) (r : Z) : length (fst (Lcg.stream n r)) = n.
Proof.
  revert r. induction n as [|n IH]; intros r; simpl; [reflexivity|].
  specialize (IH (Lcg.step r)). destruct (Lcg.stream n (Lcg.step r)).
  simpl in *. rewrite IH. reflexivity.
Qed.

Lemma spread_length (f : Q -> Q) (n : nat) (r : Z) :
  length (fst (Lcg.spread f n r)) = n.
Proof.
  unfold Lcg.spread. pose proof (stream_length n r) as Hn.
  destruct (Lcg.stream n r). simpl in *. rewrite length_map. exact Hn.
Qed.

Lemma rotation_is_a_permutation (k n : nat) :
  map (fun i => (i + k) mod Nat.max 1 n) (seq 0 n) ≡ₚ seq 0 n.
Proof.
  destruct n as [|n]; [reflexivity|].
  replace (Nat.max 1 (S n)) with (S n) by lia.
  apply submseteq_length_Permutation.
  - apply NoDup_submseteq.
    + apply NoDup_fmap_2_strong; [|apply NoDup_seq].
      intros i j Hi Hj Heq. apply elem_of_seq in Hi, Hj.
      pose proof (Nat.div_mod_eq (i + k) (S n)) as Hi'.
      pose proof (Nat.div_mod_eq (j + k) (S n)) as Hj'.
      rewrite Heq in Hi'.
      generalize dependent ((i + k) / S n). generalize dependent ((j + k) / S n).
      generalize dependent ((j + k) mod S n). intros m _ q2 Hq2 q1 Hq1.
      destruct (Nat.lt_trichotomy q1 q2) as [Hlt|[->|Hlt]]; nia.
    + intros x Hx. apply list_elem_of_fmap in Hx as (i & -> & _).
      apply elem_of_seq. pose proof (Nat.mod_upper_bound (i + k) (S n)). lia.
  - rewrite length_map. reflexivity.
Qed.

Lemma pick_among {A : Type} (l : list A) (n : nat) (r : Z) (x : A) :
  x ∈ fst (Lcg.pick l n r) -> x ∈ l.
Proof.
  unfold Lcg.pick.
  destruct l as [|d l0] eqn:El; [intros Hx; apply elem_of_nil in Hx as []|].
  rewrite <- El. assert (Hlen : 0 < length l) by (rewrite El; simpl; lia).
  clear El. destruct (Lcg.stream n r) as [zs r']. cbn [fst].
  intros Hx. apply list_elem_of_fmap in Hx as (z & -> & _).
  apply list_elem_of_In, nth_In.
  pose proof (Z.mod_pos_bound z (Z.of_nat (length l)) ltac:(lia)). lia.
Qed.

Lemma lcg_draws_follow_numpy : @NumpyLaws Lcg.numpy.
Proof.
  split.
  - intros lo hi n r. apply spread_length.
  - intros mu sigma n r. apply spread_length.
  - intros shape scale n r. apply spread_length.
  - intros a b n r. apply spread_length.
  - intros lo hi n r. simpl. pose proof (stream_length n r) as Hn.
    destruct (Lcg.stream n r). simpl in *. rewrite length_map. exact Hn.
  - intros A l p n r Hne. simpl. unfold Lcg.pick.
    destruct l as [|d l]; [contradiction|].
    pose proof (stream_length n r) as Hn.
    destruct (Lcg.stream n r). simpl in *. rewrite length_map. exact Hn.
  - intros A l p n r x. apply pick_among.
  - intros n r. simpl. apply rotation_is_a_permutation.
Qed.

(** * The further properties on concrete tables *)

(** ** Detection *)

Lemma detection_changes_only_its_two_columns_witness :
  get_col "protocol" (table_of (fst scored_flows))
  = get_col "protocol" (table_of (fst preprocessed_flows)).
Proof.
  apply (detection_changes_only_its_two_columns two_features
           (table_of (fst preprocessed_flows)) (table_of (fst scored_flows))
           (snd preprocessed_flows)
           (snd (detect_anomalies two_features
                   (table_of (fst preprocessed_flows))
                   (snd preprocessed_flows)))
           "protocol").
  - apply run_returns. vm_compute. reflexivity.
  - discriminate.
  - discriminate.
Defined.

Lemma labels_follow_the_stored_threshold_witness :
  exists (labels : list (option string)) (scores : list Q),
    get_col "anomaly" (table_of (fst scored_flows)) = Some (Object labels) /\
    get_col "anomaly_score" (table_of (fst scored_flows))
    = Some (Float (map Some scores)) /\
    forall i j x y,
      labels !! i = Some (Some "Anomaly") ->
      labels !! j = Some (Some "Normal") ->
      scores !! i = Some x -> scores !! j = Some y -> (x < y)%Q.
Proof.
  destruct (labels_follow_the_stored_threshold two_features
              (table_of (fst preprocessed_flows)) (table_of (fst scored_flows))
              (snd preprocessed_flows)
              (snd (detect_anomalies two_features
                      (table_of (fst preprocessed_flows))
                      (snd preprocessed_flows))))
    as (m & labels & scores & _ & Hlabels & Hscores & _ & Hbelow).
  - apply run_returns. vm_compute. reflexivity.
  - exists labels, scores. split; [exact Hlabels|]. split; [exact Hscores|].
    exact Hbelow.
Defined.

Lemma some_record_is_always_normal_witness :
  exists labels,
    get_col "anomaly" (table_of (fst scored_flows)) = Some (Object labels) /\
    count_label "Anomaly" (Object labels) < length labels /\
    exists i, labels !! i = Some (Some "Normal").
Proof.
  apply (some_record_is_always_normal two_features
           (table_of (fst preprocessed_flows)) (table_of (fst scored_flows))
           (snd preprocessed_flows)
           (snd (detect_anomalies two_features
                   (table_of (fst preprocessed_flows))
                   (snd preprocessed_flows)))).
  apply run_returns. vm_compute. reflexivity.
Defined.

Lemma equal_records_get_equal_verdicts_witness :
  exists labels scores,
    get_col "anomaly"
      (table_of (fst (detect_anomalies two_features twin_flows fresh_process)))
    = Some (Object labels) /\
    get_col "anomaly_score"
      (table_of (fst (detect_anomalies two_features twin_flows fresh_process)))
    = Some (Float scores) /\
    labels !! 0 = labels !! 1 /\
    scores !! 0 = scores !! 1.
Proof.
  apply (equal_records_get_equal_verdicts two_features twin_flows
           (table_of (fst (detect_anomalies two_features twin_flows fresh_process)))
           fresh_process
           (snd (detect_anomalies two_features twin_flows fresh_process)) 0 1).
  - apply run_returns. vm_compute. reflexivity.
  - intros f xs Hf. simpl in Hf. each_feature Hf; intros [= <-]; reflexivity.
Defined.

Lemma invalid_parameters_stop_detection_witness :
  exists p s',
    detect_anomalies too_contaminated flows fresh_process
    = (Raised (ValueError (InvalidParameter p)), s') /\
    model s' = None.
Proof.
  apply (invalid_parameters_stop_detection too_contaminated flows fresh_process).
  - right. right. unfold Qle. simpl. lia.
  - intros f Hf. simpl in Hf. each_feature Hf; simpl; repeat constructor.
Defined.

Lemma absent_feature_is_a_key_error_witness :
  exists s',
    detect_anomalies two_features flows_without_packets fresh_process
    = (Raised (KeyError
                 (filter (fun n => n ∉ columns flows_without_packets)
                    (features two_features))), s') /\
    model s' = None.
Proof.
  apply (absent_feature_is_a_key_error two_features flows_without_packets
           fresh_process "packet_count").
  - simpl. repeat constructor.
  - simpl. intros Hin. not_listed Hin.
Defined.

Lemma label_column_as_feature_always_fails_witness :
  exists e s', detect_anomalies label_as_feature scored_before fresh_process
               = (Raised e, s').
Proof.
  apply (label_column_as_feature_always_fails label_as_feature scored_before
           fresh_process).
  simpl. repeat constructor.
Defined.

(** ** Preprocessing *)

Lemma preprocessed_features_are_complete_witness :
  exists df' s',
    load_and_preprocess_data two_features (Returned flows) fresh_process
    = (Returned df', s') /\
    exists ys,
      get_col "packet_count" df' = Some (Float ys) /\ length ys = 5 /\ None ∉ ys.
Proof.
  destruct (preprocessed_features_are_complete two_features flows fresh_process)
    as (df' & s' & Hrun & Hcols).
  - discriminate.
  - intros f Hf. simpl in Hf.
    each_feature Hf; eexists _, _; (split; [reflexivity|repeat constructor]).
  - exists df', s'. split; [exact Hrun|].
    apply (Hcols "packet_count"
             [Some 10%Q; Some 11%Q; Some 12%Q; Some 90%Q; None]).
    + simpl. repeat constructor.
    + reflexivity.
Defined.

Lemma well_formed_table_is_labelled_witness :
  exists df' s' labels scores,
    run_pipeline two_features (Returned flows) fresh_process = (Returned df', s') /\
    get_col "anomaly" df' = Some (Object labels) /\
    get_col "anomaly_score" df' = Some (Float scores) /\
    length labels = 5 /\ length scores = 5 /\
    Forall (fun l => l = Some "Normal" \/ l = Some "Anomaly") labels /\
    None ∉ scores.
Proof.
  apply (well_formed_table_is_labelled two_features flows fresh_process).
  - discriminate.
  - simpl. intros Hin. not_listed Hin.
  - simpl. lia.
  - reflexivity.
  - unfold Qle. simpl. lia.
  - intros f Hf. simpl in Hf.
    each_feature Hf; eexists _, _;
      (split; [reflexivity|split; [reflexivity|repeat constructor]]).
Defined.

Lemma missing_feature_stops_preprocessing_witness :
  exists s',
    load_and_preprocess_data two_features (Returned flows_without_packets)
      fresh_process
    = (Raised (ValueError
                 (MissingRequiredFeatures
                    (missing_features two_features flows_without_packets))), s') /\
    log s'
    = (log fresh_process
       ++ [(INFO, LoadedData);
           (ERROR,
            ErrorLoadingData
              (ValueError
                 (MissingRequiredFeatures
                    (missing_features two_features flows_without_packets))))])%list /\
    scaler s' = scaler fresh_process /\ model s' = model fresh_process.
Proof.
  apply (missing_feature_stops_preprocessing two_features flows_without_packets
           fresh_process "packet_count").
  - simpl. repeat constructor.
  - simpl. intros Hin. not_listed Hin.
Defined.

Lemma imputation_is_idempotent_witness :
  exists s3,
    _handle_missing_values two_features (table_of (fst imputed_flows))
      fresh_process
    = (Returned (table_of (fst imputed_flows)), s3) /\
    s3 = fresh_process.
Proof.
  destruct (imputation_is_idempotent two_features flows
              (table_of (fst imputed_flows)) fresh_process
              (snd (_handle_missing_values two_features flows fresh_process))
              fresh_process)
    as (s3 & Hrun & Hsame).
  - apply run_returns. vm_compute. reflexivity.
  - exists s3. split; [exact Hrun|]. apply Hsame.
    intros f xs Hf. simpl in Hf.
    each_feature Hf; intros [= <-]; eexists; repeat constructor.
Defined.

Lemma complete_table_is_left_alone_witness :
  _handle_missing_values two_features complete_flows fresh_process
  = (Returned complete_flows, fresh_process).
Proof.
  apply (complete_table_is_left_alone two_features complete_flows fresh_process).
  intros f Hf. simpl in Hf.
  each_feature Hf; eexists; (split; [reflexivity|intros Hin; not_listed Hin]).
Defined.

(** ** The sample generator *)

Lemma generated_table_has_a_row_per_minute_witness :
  exists df s',
    generate_sample_data (Some 0%Z) 1 "network_traffic.csv" (Lcg.boot 0 0)
    = (Returned df, s') /\
    columns df
    = ["bytes_transferred"; "packet_count"; "connection_duration";
       "source_port"; "destination_port"; "retransmission_rate"; "protocol";
       "timestamp"; "bytes_per_packet"; "packets_per_second"] /\
    nrows df = 60 /\
    Forall (fun nc => col_length (snd nc) = 60) df.
Proof.
  apply (generated_table_has_a_row_per_minute lcg_draws_follow_numpy
           (Some 0%Z) 1 "network_traffic.csv" (Lcg.boot 0 0)).
  lia.
Defined.

Lemma generated_measures_are_non_negative_witness :
  exists df s',
    generate_sample_data (Some 0%Z) 1 "network_traffic.csv" (Lcg.boot 0 0)
    = (Returned df, s') /\
    forall name,
      name ∈ ["bytes_transferred"; "packet_count"; "connection_duration";
              "retransmission_rate"] ->
      exists xs,
        get_col name df = Some (Float xs) /\
        Forall (fun x => exists v, x = Some v /\ (0 <= v)%Q) xs.
Proof.
  apply (generated_measures_are_non_negative lcg_draws_follow_numpy
           (Some 0%Z) 1 "network_traffic.csv" (Lcg.boot 0 0)).
  lia.
Defined.

Lemma generated_timestamps_are_the_minutes_witness :
  exists df s',
    generate_sample_data (Some 0%Z) 1 "network_traffic.csv" (Lcg.boot 0 0)
    = (Returned df, s') /\
    get_col "timestamp" df
    = Some (Datetime (map (fun k => (0 + Z.of_nat k * minute)%Z) (seq 0 60))).
Proof.
  apply (generated_timestamps_are_the_minutes lcg_draws_follow_numpy
           0 1 "network_traffic.csv" (Lcg.boot 0 0)).
  lia.
Defined.

Lemma generated_protocol_follows_port_witness :
  exists df s' ports protocols,
    generate_sample_data (Some 0%Z) 1 "network_traffic.csv" (Lcg.boot 0 0)
    = (Returned df, s') /\
    get_col "destination_port" df = Some (Float ports) /\
    get_col "protocol" df = Some (Object protocols) /\
    length ports = length protocols /\
    forall i proto,
      protocols !! i = Some proto ->
      (ports !! i = Some (Some 22%Q) -> proto = Some "SSH") /\
      (ports !! i = Some (Some 21%Q) -> proto = Some "FTP") /\
      (ports !! i = Some (Some 80%Q) ->
       proto = Some "HTTP" \/ proto = Some "TCP") /\
      (ports !! i = Some (Some 443%Q) ->
       proto = Some "HTTPS" \/ proto = Some "TCP").
Proof.
  apply (generated_protocol_follows_port lcg_draws_follow_numpy
           (Some 0%Z) 1 "network_traffic.csv" (Lcg.boot 0 0)).
  lia.
Defined.

(** ** Tables that agree on the features *)

Lemma verdicts_depend_on_the_features_only_witness :
  exists df2' s2',
    detect_anomalies two_features complete_flows_bare busy_process
    = (Returned df2', s2') /\
    get_col "anomaly" df2'
    = get_col "anomaly"
        (table_of (fst (detect_anomalies two_features complete_flows
                          fresh_process))) /\
    get_col "anomaly_score" df2'
    = get_col "anomaly_score"
        (table_of (fst (detect_anomalies two_features complete_flows
                          fresh_process))).
Proof.
  apply (verdicts_depend_on_the_features_only two_features 42
           complete_flows complete_flows_bare
           (table_of (fst (detect_anomalies two_features complete_flows
                             fresh_process)))
           fresh_process
           (snd (detect_anomalies two_features complete_flows fresh_process))
           busy_process).
  - reflexivity.
  - intros f Hf. simpl in Hf. each_feature Hf; reflexivity.
  - apply run_returns. vm_compute. reflexivity.
Defined.
